(** * Price-history pipeline of the cubie backend

    A shallow embedding of [solana/market.ts] (venue resolution, signature
    paging, batched transaction fetch, price derivation) and of the two
    functions of [helpers/agent.ts] that consume it, with the properties
    stated about them.

    JavaScript numbers are IEEE-754 binary64 values; they are modelled by
    [spec_float] at precision 53 and maximal exponent 1024, so every
    arithmetic step below rounds exactly as the running program does. *)

From Stdlib Require Import ZArith List String Bool Lia Arith.
From Stdlib Require Import Floats.SpecFloat.
From Stdlib Require Import Sorting.Sorted Sorting.Permutation.
Import ListNotations.

Local Open Scope string_scope.
Local Open Scope Z_scope.

(* ------------------------------------------------------------------ *)
(** ** JavaScript numbers *)

Definition float := spec_float.

Module Num.

Definition prec : Z := 53.
Definition emax : Z := 1024.

Definition NaN : float := S754_nan.
Definition zero : float := S754_zero false.

(** An integer literal, a JSON integer or [Number(bigint)]: the nearest
    double. *)
Definition of_Z (z : Z) : float := binary_normalize prec emax z 0 false.

Definition add : float -> float -> float := SFadd prec emax.
Definition sub : float -> float -> float := SFsub prec emax.
Definition mul : float -> float -> float := SFmul prec emax.
Definition div : float -> float -> float := SFdiv prec emax.
Definition abs : float -> float := SFabs.

(** [a === b] and [a < b] on numbers. *)
Definition eqb : float -> float -> bool := SFeqb.
Definition ltb : float -> float -> bool := SFltb.

Definition isNaN (x : float) : bool :=
  match x with S754_nan => true | _ => false end.

Definition isFinite (x : float) : bool :=
  match x with S754_zero _ | S754_finite _ _ _ => true | _ => false end.

(** ToBoolean on a number: [0], [-0] and [NaN] are falsy. *)
Definition truthy (x : float) : bool :=
  match x with S754_zero _ | S754_nan => false | _ => true end.

(** [x || 0] *)
Definition or0 (x : float) : float := if truthy x then x else zero.

(** [Math.floor] *)
Definition floor (x : float) : float :=
  match x with
  | S754_finite s m e =>
      if 0 <=? e then x
      else of_Z (Z.div (cond_Zopp s (Zpos m)) (Z.pow 2 (- e)))
  | _ => x
  end.

(** [Math.pow(10, 6)] and the literal [1e6] *)
Definition e6 : float := of_Z 1000000.

Definition is_zero (x : float) : bool :=
  match x with S754_zero _ => true | _ => false end.

(** A finite number whose sign bit is clear. *)
Definition finite_nonneg (x : float) : bool :=
  match x with
  | S754_zero false | S754_finite false _ _ => true
  | _ => false
  end.

End Num.

(* ------------------------------------------------------------------ *)
(** ** Exceptions *)

Inductive Result (A : Type) : Type :=
| Ok (a : A)
| Throw (e : string).
Arguments Ok {A} a.
Arguments Throw {A} e.

Definition rbind {A B} (r : Result A) (k : A -> Result B) : Result B :=
  match r with
  | Ok a => k a
  | Throw e => Throw e
  end.

Declare Scope result_scope.
Delimit Scope result_scope with result.
Notation "'try!' x <- r ; k" := (rbind r (fun x => k))
  (at level 10, x pattern, r at level 100, k at level 200) : result_scope.

(** [l.forEach(f)] where [f] updates one local and may raise. *)
Fixpoint forEachR {A S} (f : S -> A -> Result S) (l : list A) (s : S)
  : Result S :=
  match l with
  | [] => Ok s
  | a :: l' => rbind (f s a) (forEachR f l')
  end.

(* ------------------------------------------------------------------ *)
(** ** Data of the RPC responses *)

(** A [PublicKey] is represented by its base58 text, which determines the
    32 bytes web3.js stores: [toBase58] is the identity and [equals] is
    string equality. *)
Definition PublicKey := string.
Definition bytes := list Z.

Record TokenBalance := {
  tb_mint : string;
  tb_owner : option string;          (* owner?: string *)
  tb_amount : string                 (* uiTokenAmount.amount *)
}.

Record ParsedMessageAccount := {
  pubkey : PublicKey;
  signer : bool
}.

(** [ParsedInstruction | PartiallyDecodedInstruction]: only the second has
    a [data] field; on the first [ins.data] is [undefined]. *)
Record Instruction := {
  programId : PublicKey;
  ins_data : option string
}.

Record TransactionInstruction := {
  ti_programId : PublicKey;
  ti_data : bytes
}.

Record Meta := {
  preTokenBalances : option (list TokenBalance);
  postTokenBalances : option (list TokenBalance);
  preBalances : list float;
  postBalances : list float;
  fee : float;
  computeUnitsConsumed : option float
}.

Record ParsedTransactionWithMeta := {
  meta : option Meta;
  blockTime : option Z;
  signatures : list string;
  accountKeys : list ParsedMessageAccount;
  instructions : list Instruction
}.

Record ParsedTokenHistory := {
  pth_signature : option string;     (* signatures[0], possibly undefined *)
  pth_mint : string;
  pth_type : string;
  pth_owner : string;
  preTokenBalance : float;
  postTokenBalance : float;
  preSolBalance : float;
  postSolBalance : float;
  price : float;
  date : Z
}.

Record Signer := { key : string; index : nat }.

(** ** The libraries the module imports

    [@solana/web3.js], [@solana/spl-token], [bs58] and the conversions
    between strings and numbers are not part of the repository; the
    pipeline is parametric in them. *)
Record Lib := {
  LAMPORTS_PER_SOL : float;
  ComputeBudgetProgram_programId : PublicKey;
  NATIVE_MINT : PublicKey;
  StringToNumber : string -> float;                    (* Number(s) *)
  NumberToString : float -> string;                    (* "" + x *)
  parseFloat : string -> float;
  parseIntOfExponentForm : Z -> Z;     (* parseInt("" + x), 1e21 <= |x| *)
  bs58_decode : option string -> Result bytes;
  decodeInstructionType : TransactionInstruction -> Result string;
  decodeSetComputeUnitPrice : TransactionInstruction -> Result Z;
  newPublicKey : string -> Result PublicKey;           (* new PublicKey(s) *)
  toBuffer : PublicKey -> bytes;
  Buffer_from : string -> bytes;
  findProgramAddressSync : list bytes -> PublicKey -> Result (PublicKey * Z)
}.

Definition PUMPFUN_PROGRAM : string :=
  "6EF8rrecthR5Dkzon8Nwu78hRvfCKubJ14M5uBEwF6P".

(* ------------------------------------------------------------------ *)
(** ** computeTokenPrice *)

Section ComputeTokenPrice.

Variable lib : Lib.

(** [arr[i]] used as a number: out of range it is [undefined], which
    every arithmetic operator turns into [NaN]. *)
Definition numAt (arr : list float) (i : nat) : float :=
  match nth_error arr i with
  | Some x => x
  | None => Num.NaN
  end.

Definition ownerIs (b : TokenBalance) (k : string) : bool :=
  match tb_owner b with
  | Some o => String.eqb o k
  | None => false
  end.

(** [b.owner === key && b.mint === mint] *)
Definition isBalanceOf (k mint : string) (b : TokenBalance) : bool :=
  ownerIs b k && String.eqb (tb_mint b) mint.

(** [Number(bals.find(b => b.owner === key && b.mint === mint)
             ?.uiTokenAmount.amount || 0) / Math.pow(10, 6)] *)
Definition tokenBalanceOf (bals : list TokenBalance) (k mint : string)
  : float :=
  let raw :=
    match find (isBalanceOf k mint) bals with
    | Some b =>
        if String.eqb (tb_amount b) "" then Num.zero
        else StringToNumber lib (tb_amount b)
    | None => Num.zero
    end in
  Num.div raw Num.e6.

Definition blockTimeFalsy (bt : option Z) : bool :=
  match bt with
  | Some t => Z.eqb t 0
  | None => true
  end.

Definition computeBudgetInstructions (tx : ParsedTransactionWithMeta)
  : list Instruction :=
  filter (fun ins =>
            String.eqb (programId ins) (ComputeBudgetProgram_programId lib))
         (instructions tx).

(** Body of the [instructions.forEach] that looks for the unit price. *)
Definition scanInstruction (microLamports : Z) (ins : Instruction)
  : Result Z :=
  (try! raw <- bs58_decode lib (ins_data ins);
   let transactionInstruction :=
     {| ti_programId := programId ins; ti_data := raw |} in
   try! type <- decodeInstructionType lib transactionInstruction;
   if String.eqb type "SetComputeUnitPrice"
   then decodeSetComputeUnitPrice lib transactionInstruction
   else Ok microLamports)%result.

(** [parsedTranstion.meta?.computeUnitsConsumed || 0] *)
Definition computeUsageOf (m : Meta) : float :=
  match computeUnitsConsumed m with
  | Some c => Num.or0 c
  | None => Num.zero
  end.

Definition priorityFeeOf (tx : ParsedTransactionWithMeta) (m : Meta)
  : Result float :=
  let instructions := computeBudgetInstructions tx in
  match instructions with
  | [] => Ok Num.zero
  | _ :: _ =>
      (try! microLamports <- forEachR scanInstruction instructions 0;
       let computeUsage := computeUsageOf m in
       Ok (Num.floor
             (Num.div (Num.mul computeUsage (Num.of_Z microLamports))
                      Num.e6)))%result
  end.

Definition guardPrice (p : float) : float :=
  if Num.truthy p && negb (Num.isNaN p) && Num.isFinite p then p
  else Num.zero.

(** Body of [signers.forEach]: [Ok None] is the early [return]. *)
Definition signerTrade (tx : ParsedTransactionWithMeta) (m : Meta)
           (preTB postTB : list TokenBalance) (mint : string) (s : Signer)
  : Result (option ParsedTokenHistory) :=
  let preTokenBalance := tokenBalanceOf preTB (key s) mint in
  let postTokenBalance := tokenBalanceOf postTB (key s) mint in
  if Num.eqb preTokenBalance postTokenBalance
     || blockTimeFalsy (blockTime tx)
  then Ok None
  else
    (try! priorityFee <- priorityFeeOf tx m;
     let fee := Num.or0 (fee m) in
     let preSolBalance :=
       Num.div (numAt (preBalances m) (index s)) (LAMPORTS_PER_SOL lib) in
     let postSolBalance :=
       Num.div (Num.add (Num.add (numAt (postBalances m) (index s)) fee)
                        priorityFee)
               (LAMPORTS_PER_SOL lib) in
     let type :=
       if Num.ltb postTokenBalance preTokenBalance then "sell" else "buy" in
     let price :=
       Num.div (Num.abs (Num.sub preTokenBalance postTokenBalance))
               (Num.abs (Num.sub preSolBalance postSolBalance)) in
     Ok (Some {| pth_signature := hd_error (signatures tx);
                 pth_mint := mint;
                 date := match blockTime tx with Some t => t | None => 0 end;
                 pth_type := type;
                 pth_owner := key s;
                 preTokenBalance := preTokenBalance;
                 postTokenBalance := postTokenBalance;
                 preSolBalance := preSolBalance;
                 postSolBalance := postSolBalance;
                 price := guardPrice price |}))%result.

(** [accountKeys.forEach((key, index) => ...)] collecting the signers. *)
Fixpoint signersFrom (i : nat) (keys : list ParsedMessageAccount)
  : list Signer :=
  match keys with
  | [] => []
  | k :: keys' =>
      if signer k
      then {| key := pubkey k; index := i |} :: signersFrom (S i) keys'
      else signersFrom (S i) keys'
  end.

Definition pushTrade (tx : ParsedTransactionWithMeta) (m : Meta)
           (preTB postTB : list TokenBalance) (mint : string)
           (acc : list ParsedTokenHistory) (s : Signer)
  : Result (list ParsedTokenHistory) :=
  (try! r <- signerTrade tx m preTB postTB mint s;
   match r with
   | Some t => Ok (acc ++ [t])%list
   | None => Ok acc
   end)%result.

(** [Ok None] is the bare [return] (the caller sees [undefined]). *)
Definition computeTokenPrice (parsedTranstion : ParsedTransactionWithMeta)
           (mint : string) : Result (option (list ParsedTokenHistory)) :=
  match meta parsedTranstion with
  | None => Ok None
  | Some m =>
      match preTokenBalances m, postTokenBalances m with
      | Some preTB, Some postTB =>
          if blockTimeFalsy (blockTime parsedTranstion) then Ok None
          else
            let signers := signersFrom 0 (accountKeys parsedTranstion) in
            (try! accountIndexes <-
               forEachR (pushTrade parsedTranstion m preTB postTB mint)
                        signers [];
             Ok (Some accountIndexes))%result
      | _, _ => Ok None
      end
  end.

(** How the loop above reads one instruction. *)
Definition instructionTypeOf (ins : Instruction) : Result string :=
  (try! raw <- bs58_decode lib (ins_data ins);
   decodeInstructionType lib
     {| ti_programId := programId ins; ti_data := raw |})%result.

Definition unitPriceOf (ins : Instruction) : Result Z :=
  (try! raw <- bs58_decode lib (ins_data ins);
   decodeSetComputeUnitPrice lib
     {| ti_programId := programId ins; ti_data := raw |})%result.

Definition isSetComputeUnitPrice (ins : Instruction) : bool :=
  match instructionTypeOf ins with
  | Ok type => String.eqb type "SetComputeUnitPrice"
  | Throw _ => false
  end.

End ComputeTokenPrice.

(** The quotient of the balance changes recorded in a trade. *)
Definition denominator (t : ParsedTokenHistory) : float :=
  Num.abs (Num.sub (preSolBalance t) (postSolBalance t)).

Definition quotient (t : ParsedTokenHistory) : float :=
  Num.div (Num.abs (Num.sub (preTokenBalance t) (postTokenBalance t)))
          (denominator t).

(** The trades a call hands to its caller: none when it returns
    [undefined] or raises. *)
Definition emitted (r : Result (option (list ParsedTokenHistory)))
  : list ParsedTokenHistory :=
  match r with
  | Ok (Some trades) => trades
  | _ => []
  end.

(* ------------------------------------------------------------------ *)
(** ** The remote collaborators and the effects of the pipeline *)

Record ConfirmedSignatureInfo := {
  signature : string;
  err : option string                (* null on success *)
}.

Record PoolItem := { pool_id : string }.

Record Agent := { agent_id : Z; agent_mint : string }.

Record PriceHistoryRow := {
  row_price : string;
  row_blockTime : Z;
  row_agentId : Z;
  row_signature : option string
}.

(** What an observer of one run can see, oldest event first. *)
Inductive Event : Type :=
| EvFetchPoolByMints (mint1 mint2 : string)
| EvGetSignaturesForAddress (address : PublicKey) (until before : option string)
| EvGetParsedTransactions (sigs : list string)
| EvSleep (ms : Z)
| EvLogError (msg : string)
| EvLogInfo (found : nat) (mint : string)
| EvGetAgents
| EvGetLastSignature (agentId : Z)
| EvCreate (row : PriceHistoryRow).

(** The RPC node, the Raydium API and the database: each call reads and
    advances a state [W] of the outside world and may reject. *)
Record Remote (W : Type) := {
  fetchPoolByMints :
    string -> string -> W -> Result (option (list PoolItem)) * W;
  getSignaturesForAddress :
    PublicKey -> option string -> option string -> W ->
    Result (list ConfirmedSignatureInfo) * W;
  getParsedTransactions :
    list string -> W ->
    Result (option (list (option ParsedTransactionWithMeta))) * W;
  getAgents : W -> Result (list Agent) * W;
  getLastSignature : Z -> W -> Result (option string) * W;
  PriceHistory_create : PriceHistoryRow -> W -> Result unit * W
}.
Arguments fetchPoolByMints {W}.
Arguments getSignaturesForAddress {W}.
Arguments getParsedTransactions {W}.
Arguments getAgents {W}.
Arguments getLastSignature {W}.
Arguments PriceHistory_create {W}.

Record St (W : Type) := { world : W; trace : list Event }.
Arguments world {W}.
Arguments trace {W}.

(** A computation either runs out of fuel ([None]) or ends, normally or by
    an exception, in a new state. *)
Definition M (W A : Type) : Type := St W -> option (Result A * St W).

Section Monad.

Context {W : Type}.

Definition ret {A} (a : A) : M W A := fun st => Some (Ok a, st).

Definition bind {A B} (m : M W A) (k : A -> M W B) : M W B :=
  fun st =>
    match m st with
    | Some (Ok a, st') => k a st'
    | Some (Throw e, st') => Some (Throw e, st')
    | None => None
    end.

(** [try { m } catch (error) { h error }] *)
Definition tryCatch {A} (m : M W A) (h : string -> M W A) : M W A :=
  fun st =>
    match m st with
    | Some (Throw e, st') => h e st'
    | r => r
    end.

Definition outOfFuel {A} : M W A := fun _ => None.

Definition liftR {A} (r : Result A) : M W A := fun st => Some (r, st).

Definition emit (ev : Event) : M W unit :=
  fun st => Some (Ok tt, {| world := world st; trace := trace st ++ [ev] |}).

(** An awaited call to a collaborator, recorded in the trace. *)
Definition call {A} (ev : Event) (f : W -> Result A * W) : M W A :=
  fun st =>
    let '(r, w) := f (world st) in
    Some (r, {| world := w; trace := trace st ++ [ev] |}).

(** [await new Promise((resolve) => setTimeout(resolve, ms))] *)
Definition sleep (ms : Z) : M W unit := emit (EvSleep ms).

End Monad.

Declare Scope m_scope.
Delimit Scope m_scope with m.
Notation "'let!' x <- m ; k" := (bind m (fun x => k))
  (at level 10, x pattern, m at level 100, k at level 200) : m_scope.
Notation "m ;; k" := (bind m (fun _ => k))
  (at level 100, k at level 200, right associativity) : m_scope.

Section Market.

Context {W : Type}.
Variable lib : Lib.
Variable remote : Remote W.

Local Open Scope m_scope.

(** [lastSignature && { until: lastSignature }]: the empty string is
    falsy, like [undefined]. *)
Definition untilOf (lastSignature : option string) : option string :=
  match lastSignature with
  | Some s => if String.eqb s "" then None else Some s
  | None => None
  end.

(** [current[current.length - 1].signature] *)
Definition lastSignatureOf (current : list ConfirmedSignatureInfo)
  : option string :=
  option_map signature (nth_error current (List.length current - 1)%nat).

(** The [while (current.length > 0)] loop; [fuel] bounds the number of
    further pages. *)
Fixpoint walkPages (fuel : nat) (mint : PublicKey) (until : option string)
         (current allSignatures : list ConfirmedSignatureInfo)
  : M W (list ConfirmedSignatureInfo) :=
  match current with
  | [] => ret allSignatures
  | _ :: _ =>
      match fuel with
      | O => outOfFuel
      | S fuel' =>
          let before := lastSignatureOf current in
          let! current' <-
            call (EvGetSignaturesForAddress mint until before)
                 (getSignaturesForAddress remote mint until before);
          let allSignatures' := (allSignatures ++ current')%list in
          sleep 1000 ;;
          walkPages fuel' mint until current' allSignatures'
      end
  end.

Definition getAllTransactionsUntilLastSignature (fuel : nat)
           (mint : PublicKey) (lastSignature : option string)
  : M W (list ConfirmedSignatureInfo) :=
  let until := untilOf lastSignature in
  let! current <-
    call (EvGetSignaturesForAddress mint until None)
         (getSignaturesForAddress remote mint until None);
  walkPages fuel mint until current current.

Definition getPoolInfo (mint : string) : M W PublicKey :=
  let! poolInfo <-
    call (EvFetchPoolByMints mint (NATIVE_MINT lib))
         (fetchPoolByMints remote mint (NATIVE_MINT lib));
  match poolInfo with
  | Some (p :: _) => liftR (newPublicKey lib (pool_id p))
  | _ =>
      let! mintKey <- liftR (newPublicKey lib mint);
      let seeds := [Buffer_from lib "bonding-curve"; toBuffer lib mintKey] in
      let! program <- liftR (newPublicKey lib PUMPFUN_PROGRAM);
      let! found <- liftR (findProgramAddressSync lib seeds program);
      ret (fst found)
  end.

(** [tx.forEach(t => { if (t) transactions.push(t) })] *)
Fixpoint nonNull {A} (l : list (option A)) : list A :=
  match l with
  | [] => []
  | Some a :: l' => a :: nonNull l'
  | None :: l' => nonNull l'
  end.

(** One pass of [while (retries < 5)]: [remaining] is [5 - retries]. *)
Fixpoint retryLoop (remaining : nat) (batch : list ConfirmedSignatureInfo)
         (transactions : list ParsedTransactionWithMeta)
  : M W (list ParsedTransactionWithMeta) :=
  match remaining with
  | O => ret transactions
  | S remaining' =>
      let sigs := map signature batch in
      let! next <-
        tryCatch
          (let! tx <-
             call (EvGetParsedTransactions sigs)
                  (getParsedTransactions remote sigs);
           let transactions' :=
             match tx with
             | Some l => (transactions ++ nonNull l)%list
             | None => transactions
             end in
           ret (inl transactions'))                        (* break *)
          (fun error =>
             emit (EvLogError ("Error fetching transactions: " ++ error)) ;;
             sleep 1000 ;;
             ret (inr tt));
      match next with
      | inl done => ret done
      | inr _ => retryLoop remaining' batch transactions   (* retries++ *)
      end
  end.

Definition getTransactionsWithRetries (batch : list ConfirmedSignatureInfo)
  : M W (list ParsedTransactionWithMeta) :=
  retryLoop 5 batch [].

Fixpoint priceAll (txs : list ParsedTransactionWithMeta) (mint : string)
         (priceHistory : list ParsedTokenHistory)
  : Result (list ParsedTokenHistory) :=
  match txs with
  | [] => Ok priceHistory
  | tx :: txs' =>
      (try! priceForAccounts <- computeTokenPrice lib tx mint;
       match priceForAccounts with
       | Some l => priceAll txs' mint (priceHistory ++ l)
       | None => priceAll txs' mint priceHistory
       end)%result
  end.

Definition processTransactionBatch (batch : list ConfirmedSignatureInfo)
           (mint : string) : M W (list ParsedTokenHistory) :=
  let! parsedTransactions <- getTransactionsWithRetries batch;
  liftR (priceAll parsedTransactions mint []).

(** [for (i = 0; i < n; i += BATCH_SIZE) batches.push(l.slice(i, i + BATCH_SIZE))];
    [fuel] is the length of the list. *)
Fixpoint chunksOf (fuel : nat) (size : nat)
         (l : list ConfirmedSignatureInfo)
  : list (list ConfirmedSignatureInfo) :=
  match fuel, l with
  | _, [] => []
  | O, _ => []
  | S fuel', _ => firstn size l :: chunksOf fuel' size (skipn size l)
  end.

Definition BATCH_SIZE : nat := 100.

Fixpoint processBatches (batches : list (list ConfirmedSignatureInfo))
         (mint : string) (priceHistory : list ParsedTokenHistory)
  : M W (list ParsedTokenHistory) :=
  match batches with
  | [] => ret priceHistory
  | batch :: batches' =>
      sleep 1000 ;;
      let! r <- processTransactionBatch batch mint;
      processBatches batches' mint (priceHistory ++ r)
  end.

(** [transactions.filter((transaction) => transaction.err === null)] *)
Definition succeeded (t : ConfirmedSignatureInfo) : bool :=
  match err t with None => true | Some _ => false end.

(** The records handed to the batch stage. *)
Definition forwarded (allSignatures : list ConfirmedSignatureInfo)
  : list ConfirmedSignatureInfo :=
  let transactions := firstn 5000 allSignatures in
  filter succeeded transactions.

Definition getTokenPoolInfo (fuel : nat) (mint : string)
           (lastSignature : option string) : M W (list ParsedTokenHistory) :=
  let! poolPublicKey <- getPoolInfo mint;
  let! allSignatures <-
    getAllTransactionsUntilLastSignature fuel poolPublicKey lastSignature;
  let successfullTransactions := forwarded allSignatures in
  let batches :=
    chunksOf (List.length successfullTransactions) BATCH_SIZE
             successfullTransactions in
  processBatches batches mint [].

Definition getHistoricalTransactionData (fuel : nat) (mint : string)
           (lastSignature : option string) : M W (list ParsedTokenHistory) :=
  getTokenPoolInfo fuel mint lastSignature.

End Market.

(* ------------------------------------------------------------------ *)
(** ** helpers/agent.ts *)

Section Sync.

Context {W : Type}.
Variable lib : Lib.
Variable remote : Remote W.

Local Open Scope m_scope.

(** [for (const item of history) await PriceHistory.create({...})] *)
Fixpoint createAll (history : list ParsedTokenHistory) (agent : Agent)
  : M W unit :=
  match history with
  | [] => ret tt
  | item :: history' =>
      let row := {| row_price := NumberToString lib (price item);
                    row_blockTime := date item;
                    row_agentId := agent_id agent;
                    row_signature := pth_signature item |} in
      call (EvCreate row) (PriceHistory_create remote row) ;;
      createAll history' agent
  end.

(** [for (const agent of agents) { ... }] *)
Fixpoint syncAgents (fuel : nat) (agents : list Agent) : M W unit :=
  match agents with
  | [] => ret tt
  | agent :: agents' =>
      let! lastSignature <-
        call (EvGetLastSignature (agent_id agent))
             (getLastSignature remote (agent_id agent));
      let! history <-
        getHistoricalTransactionData lib remote fuel (agent_mint agent)
                                     lastSignature;
      createAll history agent ;;
      emit (EvLogInfo (List.length history) (agent_mint agent)) ;;
      syncAgents fuel agents'
  end.

Definition syncAgentTransactionHistory (fuel : nat) : M W unit :=
  let! agents <- call EvGetAgents (getAgents remote);
  syncAgents fuel agents.

End Sync.

(** *** The history of the expanded agent response *)

Record HistoricPrice := { time : Z; hp_price : float }.

(** A JavaScript object used as a map from block time to rows: the
    properties in creation order.  The property key is the text of the
    block time; two block times have the same text only when they are
    equal, so the entry is listed under the block time itself and
    [keyTime] below gives what [parseInt] reads from its text. *)
Definition JSObject := list (Z * list PriceHistoryRow).

(** [if (!history[k]) history[k] = []; history[k].push(row)] *)
Fixpoint pushAt (k : Z) (row : PriceHistoryRow) (history : JSObject)
  : JSObject :=
  match history with
  | [] => [(k, [row])]
  | (k', rows) :: history' =>
      if Z.eqb k k' then (k', rows ++ [row])%list :: history'
      else (k', rows) :: pushAt k row history'
  end.

(** A key is an array index when it is an integer in [0, 2^32 - 2]. *)
Definition isArrayIndex (k : Z) : bool := (0 <=? k) && (k <? 2 ^ 32 - 1).

Section InsertionSort.
Context {A : Type}.
Variable le : A -> A -> bool.

Fixpoint insertBy (x : A) (l : list A) : list A :=
  match l with
  | [] => [x]
  | y :: l' => if le x y then x :: l else y :: insertBy x l'
  end.

(** A stable sort. *)
Definition sortBy (l : list A) : list A :=
  fold_right insertBy [] l.
End InsertionSort.

(** [Object.entries(o)]: array-index keys in ascending order, then the
    other keys in creation order. *)
Definition Object_entries (o : JSObject) : JSObject :=
  (sortBy (fun a b => fst a <=? fst b)
          (filter (fun e => isArrayIndex (fst e)) o)
   ++ filter (fun e => negb (isArrayIndex (fst e))) o)%list.

(** Arrays live in a store and are handled through references. *)
Definition ref := nat.
Definition Heap := list (list HistoricPrice).

Definition alloc (a : list HistoricPrice) (h : Heap) : ref * Heap :=
  (List.length h, (h ++ [a])%list).

Definition deref (h : Heap) (r : ref) : list HistoricPrice := nth r h [].

Definition store (r : ref) (a : list HistoricPrice) (h : Heap) : Heap :=
  if (r <? List.length h)%nat then (firstn r h ++ a :: skipn (S r) h)%list
  else h.

(** [arr.sort(cmp)] sorts the array in place and returns the same
    reference. *)
Definition Array_sort (cmp : HistoricPrice -> HistoricPrice -> Z)
           (r : ref) (h : Heap) : ref * Heap :=
  (r, store r (sortBy (fun a b => cmp a b <=? 0) (deref h r)) h).

Section AgentResponse.

Variable lib : Lib.

Definition aggregate (agentHistory : list PriceHistoryRow) : JSObject :=
  fold_left (fun history row => pushAt (row_blockTime row) row history)
            agentHistory [].

(** [prices.reduce((acc, price) => ..., 0) ?? 0] *)
Definition sumPrices (prices : list PriceHistoryRow) : float :=
  fold_left
    (fun acc p =>
       let paresedPrice := parseFloat lib (row_price p) in
       if Num.isNaN paresedPrice then acc else Num.add acc paresedPrice)
    prices Num.zero.

(** [parseInt(time)] for the key of block time [t].  Below 10^21 the key
    is the decimal text of [t], which is read back as [t]; from 10^21 on
    the key is in exponent form, such as 1e+21, of which [parseInt] reads
    the digits before the first character that is not one. *)
Definition keyTime (t : Z) : Z :=
  if Z.abs t <? 10 ^ 21 then t else parseIntOfExponentForm lib t.

Definition flatten (history : JSObject) : list HistoricPrice :=
  map (fun '(time, prices) =>
         {| time := keyTime time; hp_price := sumPrices prices |})
      (Object_entries history).

(** The [expanded] branch of [getAgentResponse], as far as
    [response.history] goes. *)
Definition getAgentResponse_history (agentHistory : list PriceHistoryRow)
  : list HistoricPrice :=
  let history := aggregate agentHistory in
  let '(flattendHistory, heap) := alloc (flatten history) [] in
  let '(sorted, heap) :=
    Array_sort (fun a b => time a - time b) flattendHistory heap in
  let response_history := sorted in
  let response_history := flattendHistory in
  deref heap response_history.

End AgentResponse.

(* ------------------------------------------------------------------ *)
(** ** Reading a trace *)

Definition isAttempt (ev : Event) : bool :=
  match ev with
  | EvGetParsedTransactions _ => true
  | _ => false
  end.

(** Number of calls to [getParsedTransactions] in a trace. *)
Definition countAttempts (evs : list Event) : nat :=
  List.length (filter isAttempt evs).

(** What one rejected attempt leaves in the trace: the call, the logged
    error and the pause. *)
Definition rejectedAttempt (sigs : list string) (e : string) : list Event :=
  [EvGetParsedTransactions sigs;
   EvLogError ("Error fetching transactions: " ++ e);
   EvSleep 1000].

(** [Rejected remote sigs k w w' evs]: from [w], [k] calls in a row for
    [sigs] are rejected, leaving the world in [w'] and [evs] in the trace. *)
Inductive Rejected {W : Type} (remote : Remote W) (sigs : list string)
  : nat -> W -> W -> list Event -> Prop :=
| Rejected_none (w : W) : Rejected remote sigs 0 w w []
| Rejected_more (k : nat) (w w1 w2 : W) (e : string) (evs : list Event) :
    getParsedTransactions remote sigs w = (Throw e, w1) ->
    Rejected remote sigs k w1 w2 evs ->
    Rejected remote sigs (S k) w w2 (rejectedAttempt sigs e ++ evs).

(** The entries a response carries, [tx] being possibly [null]. *)
Definition entriesOf {A} (tx : option (list (option A))) : list A :=
  match tx with
  | Some l => nonNull l
  | None => []
  end.


(* ------------------------------------------------------------------ *)
(** ** Order of the signature history *)

(** [pos] places a signature in the history of the venue, a larger place
    being more recent.  [Newer pos a b]: record [a] is strictly more recent
    than [b]. *)
Definition Newer (pos : string -> nat) (a b : ConfirmedSignatureInfo) : Prop :=
  (pos (signature b) < pos (signature a))%nat.

(** Pages still needed after [current]: none for an empty page, otherwise
    at most one per place at or below its oldest record. *)
Definition pagesLeft (pos : string -> nat)
           (current : list ConfirmedSignatureInfo) : nat :=
  match lastSignatureOf current with
  | Some s => S (pos s)
  | None => O
  end.


(** A record lies strictly after the bound [until], when there is one. *)
Definition NewerThanBound (pos : string -> nat) (until : option string)
           (r : ConfirmedSignatureInfo) : Prop :=
  match until with
  | Some u => (pos u < pos (signature r))%nat
  | None => True
  end.


(* ------------------------------------------------------------------ *)
(** ** Venue resolution, in pure terms *)

(** The address derived from the tag [bonding-curve], the bytes of the mint
    and the pump.fun program, as the fallback branch of [getPoolInfo]
    computes it. *)
Definition fallbackVenue (lib : Lib) (mint : string) : Result PublicKey :=
  (try! mintKey <- newPublicKey lib mint;
   try! program <- newPublicKey lib PUMPFUN_PROGRAM;
   try! found <-
     findProgramAddressSync lib
       [Buffer_from lib "bonding-curve"; toBuffer lib mintKey] program;
   Ok (fst found))%result.

(** The state in which a call recorded as [ev] leaves a run. *)
Definition after {W} (st : St W) (w' : W) (ev : Event) : St W :=
  {| world := w'; trace := (trace st ++ [ev])%list |}.

(** How a run ended, and what it left in the trace. *)
Definition outcomeOf {W A} (r : option (Result A * St W))
  : option (Result A) :=
  option_map fst r.

Definition traceOf {W A} (r : option (Result A * St W)) : list Event :=
  match r with
  | Some (_, st) => trace st
  | None => []
  end.

Definition asksCursorOf (id : Z) (ev : Event) : bool :=
  match ev with
  | EvGetLastSignature i => i =? id
  | _ => false
  end.


(* ------------------------------------------------------------------ *)
(** ** Batches and pages, for the statements about them *)

(** The batches [getTokenPoolInfo] builds from the forwarded records. *)
Definition batchesOf (l : list ConfirmedSignatureInfo)
  : list (list ConfirmedSignatureInfo) :=
  chunksOf (List.length l) BATCH_SIZE l.

(** [l.slice(from, to)] for indices within [0, to]. *)
Definition slice {A} (l : list A) (from to : nat) : list A :=
  firstn (to - from) (skipn from l).

Definition isSleep (ev : Event) : bool :=
  match ev with
  | EvSleep _ => true
  | _ => false
  end.

Definition isPageRequest (ev : Event) : bool :=
  match ev with
  | EvGetSignaturesForAddress _ _ _ => true
  | _ => false
  end.

(** [Paged remote venue until before w pages w']: asked from [w] for the
    records before [before], the provider answers with the non-empty pages
    of [pages] but the last, each asked for before the last signature of the
    one it follows, and then with the empty page that ends [pages]. *)
Inductive Paged {W : Type} (remote : Remote W) (venue : PublicKey)
          (until : option string)
  : option string -> W -> list (list ConfirmedSignatureInfo) -> W -> Prop :=
| Paged_end (before : option string) (w w' : W) :
    getSignaturesForAddress remote venue until before w = (Ok [], w') ->
    Paged remote venue until before w [[]] w'
| Paged_next (before : option string) (w w1 w' : W)
             (page : list ConfirmedSignatureInfo)
             (pages : list (list ConfirmedSignatureInfo)) :
    getSignaturesForAddress remote venue until before w = (Ok page, w1) ->
    page <> [] ->
    Paged remote venue until (lastSignatureOf page) w1 pages w' ->
    Paged remote venue until before w (page :: pages) w'.

(** The requests and pauses of a walk over [pages], the first request
    apart. *)
Definition furtherRequests (venue : PublicKey) (until : option string)
           (pages : list (list ConfirmedSignatureInfo)) : list Event :=
  flat_map (fun page =>
              [EvGetSignaturesForAddress venue until (lastSignatureOf page);
               EvSleep 1000])
           (removelast pages).


(** The state a run ended in; the given one when it ran out of fuel. *)
Definition finalOf {W A} (st : St W) (r : option (Result A * St W)) : St W :=
  match r with
  | Some (_, st') => st'
  | None => st
  end.


(* ------------------------------------------------------------------ *)
(** ** Signers and trades, for the statements about them *)

(** [preTokenBalance !== postTokenBalance] for a signer. *)
Definition balanceChanged (lib : Lib) (preTB postTB : list TokenBalance)
           (mint : string) (s : Signer) : bool :=
  negb (Num.eqb (tokenBalanceOf lib preTB (key s) mint)
                (tokenBalanceOf lib postTB (key s) mint)).

(** What every trade of one call for [mint] carries. *)
Definition labelled (tx : ParsedTransactionWithMeta) (mint : string)
           (t : ParsedTokenHistory) : Prop :=
  pth_signature t = hd_error (signatures tx)
  /\ pth_mint t = mint
  /\ blockTime tx = Some (date t)
  /\ date t <> 0.

(** What every trade of a run for [mint] satisfies. *)
Definition wellPriced (mint : string) (t : ParsedTokenHistory) : Prop :=
  Num.finite_nonneg (price t) = true
  /\ pth_mint t = mint
  /\ (pth_type t = "buy" \/ pth_type t = "sell")
  /\ date t <> 0.


(** The row [syncAgentTransactionHistory] stores for a trade. *)
Definition rowOf (lib : Lib) (agent : Agent) (item : ParsedTokenHistory)
  : PriceHistoryRow :=
  {| row_price := NumberToString lib (price item);
     row_blockTime := date item;
     row_agentId := agent_id agent;
     row_signature := pth_signature item |}.

(** The events of the market module, as opposed to those of the sync
    loop around it. *)
Definition isMarketEvent (ev : Event) : bool :=
  match ev with
  | EvFetchPoolByMints _ _ | EvGetSignaturesForAddress _ _ _
  | EvGetParsedTransactions _ | EvSleep _ | EvLogError _ => true
  | _ => false
  end.

(** A row of some agent of [agents] for a trade that is well priced. *)
Definition goodRow (lib : Lib) (agents : list Agent) (row : PriceHistoryRow)
  : Prop :=
  exists agent item,
    In agent agents
    /\ wellPriced (agent_mint agent) item
    /\ row = rowOf lib agent item.

Definition rowsStored (evs : list Event) : list PriceHistoryRow :=
  flat_map (fun ev => match ev with
                      | EvCreate row => [row]
                      | _ => []
                      end) evs.

(** [Stored remote rows w w']: from [w] the database accepts the rows of
    [rows] one after the other and is left in [w']. *)
Inductive Stored {W : Type} (remote : Remote W)
  : list PriceHistoryRow -> W -> W -> Prop :=
| Stored_none (w : W) : Stored remote [] w w
| Stored_more (row : PriceHistoryRow) (rows : list PriceHistoryRow)
              (w w1 w2 : W) :
    PriceHistory_create remote row w = (Ok tt, w1) ->
    Stored remote rows w1 w2 ->
    Stored remote (row :: rows) w w2.


(** The rows of [agentHistory] stored for block time [k], in order. *)
Definition rowsAt (k : Z) (agentHistory : list PriceHistoryRow)
  : list PriceHistoryRow :=
  filter (fun r => row_blockTime r =? k) agentHistory.

(** Not [NaN], and with a clear sign bit: zero, a positive number or
    [Infinity]. *)
Definition notNegative (x : float) : bool :=
  match x with
  | S754_zero false | S754_finite false _ _ | S754_infinity false => true
  | _ => false
  end.


(* ------------------------------------------------------------------ *)
(** ** controllers/agent.ts: POST /launch *)

(** A value that is only handed on is kept as its JSON text. *)
Definition Json := string.

Record TwitterConfig := {
  twc_email : string;
  twc_password : string;
  twc_username : string
}.

Record TelegramConfig := {
  tgc_botToken : string;
  tgc_username : string
}.

(** The [data] of a successful [launchSchema.safeParseAsync]. *)
Record LaunchData := {
  ld_name : string;
  ld_ticker : string;
  ld_bio : string;
  ld_api : Json;
  twitterConfig : option TwitterConfig;
  telegramConfig : option TelegramConfig;
  knowledge : list string;
  style : list string;
  twitterStyle : list string;
  telegramStyle : list string;
  devBuy : Json
}.

(** [req.file] as multer leaves it. *)
Record UploadedFile := {
  file_buffer : option bytes;
  file_mimetype : string
}.

Record LaunchRequest := {
  req_address : option string;       (* set by checkAuth *)
  req_body : Json;
  req_file : option UploadedFile
}.

Record Keypair := { publicKey : PublicKey; secretKey : bytes }.

Record TokenMetadata := { imageUri : string; metadata_rest : Json }.

Record AgentInfoRow := {
  info_type : string;
  info_data : string;
  info_agentId : option Z
}.

(** The attributes of the agent that is saved; the optional ones are those
    that the two spreads may or may not set. *)
Record AgentData := {
  ad_name : string;
  ad_ticker : string;
  ad_bio : string;
  ad_api : Json;
  ad_owner : string;
  ad_mint : string;
  ad_status : string;
  ad_feeAccountPublicKey : string;
  ad_feeAccountPrivateKey : string;
  ad_tw_email : option string;
  ad_tw_password : option string;
  ad_tw_handle : option string;
  ad_telegram_bot_token : option string;
  ad_telegram : option string;
  ad_private_key : string;
  ad_image_url : option string
}.

(** What the handler does with the request: [next(new
    InternalValidationError(msg))] or [res.status(200).json(...)]. *)
Inductive Reply : Type :=
| NextError (msg : string)
| Json200 (id : Z) (mint : string) (transaction : string).

Inductive LaunchEvent : Type :=
| LvParse (body : Json)
| LvLog (msg : string)
| LvKeypair
| LvGetAgentFee
| LvPollFeeAccount (account : PublicKey) (fee : Json)
| LvCreateTokenMetadata (name ticker bio : string)
| LvSaveAgent (data : AgentData)
| LvSaveInfo (row : AgentInfoRow)
| LvBuildTransaction (owner : string) (mint : PublicKey).

(** The modules the handler imports, none of which is part of the model:
    validators, key generation, database models, pump.fun helpers. *)
Record LaunchDeps (W : Type) := {
  DISABLE_LAUNCH : bool;
  safeParseAsync : Json -> W -> Result (LaunchData + list string) * W;
  Keypair_generate : W -> Keypair * W;
  getAgentFee : W -> Result Json * W;
  pollFeeAccount : PublicKey -> Json -> W -> W;        (* not awaited *)
  createTokenMetadata :
    string -> string -> string -> bytes -> string ->
    option string -> option string -> W -> Result TokenMetadata * W;
  Agent_save : AgentData -> W -> Result Z * W;         (* gives agent.id *)
  AgentInfo_save : AgentInfoRow -> W -> Result unit * W;
  getCreateAndBuyTransaction :
    string -> TokenMetadata -> Keypair -> Json -> PublicKey -> Json -> W ->
    Result (option Json) * W;
  signAndSerialize : Json -> Keypair -> Result string;
                                     (* sign([mint]), serialize, base64 *)
  base64 : bytes -> string
}.
Arguments DISABLE_LAUNCH {W}.
Arguments safeParseAsync {W}.
Arguments Keypair_generate {W}.
Arguments getAgentFee {W}.
Arguments pollFeeAccount {W}.
Arguments createTokenMetadata {W}.
Arguments Agent_save {W}.
Arguments AgentInfo_save {W}.
Arguments getCreateAndBuyTransaction {W}.
Arguments signAndSerialize {W}.
Arguments base64 {W}.

Record LSt (W : Type) := { lworld : W; ltrace : list LaunchEvent }.
Arguments lworld {W}.
Arguments ltrace {W}.

(** A handler step ends normally or by a rejection nobody catches. *)
Definition L (W A : Type) : Type := LSt W -> Result A * LSt W.

Section LaunchMonad.

Context {W : Type}.

Definition lret {A} (a : A) : L W A := fun st => (Ok a, st).

Definition lbind {A B} (m : L W A) (k : A -> L W B) : L W B :=
  fun st =>
    match m st with
    | (Ok a, st') => k a st'
    | (Throw e, st') => (Throw e, st')
    end.

Definition lemit (ev : LaunchEvent) : L W unit :=
  fun st => (Ok tt, {| lworld := lworld st;
                       ltrace := (ltrace st ++ [ev])%list |}).

(** An awaited call that may reject. *)
Definition lcall {A} (ev : LaunchEvent) (f : W -> Result A * W) : L W A :=
  fun st =>
    let '(r, w) := f (lworld st) in
    (r, {| lworld := w; ltrace := (ltrace st ++ [ev])%list |}).

(** A call that cannot reject. *)
Definition lrun {A} (ev : LaunchEvent) (f : W -> A * W) : L W A :=
  fun st =>
    let '(a, w) := f (lworld st) in
    (Ok a, {| lworld := w; ltrace := (ltrace st ++ [ev])%list |}).

End LaunchMonad.

Declare Scope l_scope.
Delimit Scope l_scope with l.
Notation "'do!' x <- m ; k" := (lbind m (fun x => k))
  (at level 10, x pattern, m at level 100, k at level 200) : l_scope.
Notation "m ;;; k" := (lbind m (fun _ => k))
  (at level 100, k at level 200, right associativity) : l_scope.

Section Launch.

Context {W : Type}.
Variable deps : LaunchDeps W.

Local Open Scope l_scope.

(** ToBoolean of a string that may be undefined. *)
Definition given (s : option string) : bool :=
  match s with
  | Some v => negb (String.eqb v "")
  | None => false
  end.

(** [!req.file || !req.file.buffer || !req.file.mimetype] *)
Definition imageMissing (file : option UploadedFile) : bool :=
  match file with
  | None => true
  | Some f =>
      match file_buffer f with
      | None => true
      | Some _ => String.eqb (file_mimetype f) ""
      end
  end.

(** The four [forEach] loops that fill [agentInfo]. *)
Definition agentInfoOf (data : LaunchData) : list AgentInfoRow :=
  let build type d :=
    {| info_type := type; info_data := d; info_agentId := None |} in
  (map (build "knowledge") (knowledge data)
   ++ map (build "style") (style data)
   ++ map (build "twitter_style") (twitterStyle data)
   ++ map (build "telegram_style") (telegramStyle data))%list.

(** [for (const info of agentInfo) { info.agentId = agent.id; await info.save(); }] *)
Fixpoint saveInfos (id : Z) (agentInfo : list AgentInfoRow) : L W unit :=
  match agentInfo with
  | [] => lret tt
  | info :: agentInfo' =>
      let info' := {| info_type := info_type info;
                      info_data := info_data info;
                      info_agentId := Some id |} in
      lcall (LvSaveInfo info') (AgentInfo_save deps info') ;;;
      saveInfos id agentInfo'
  end.

(** An interpolated value that may be undefined. *)
Definition shown (s : option string) : string :=
  match s with
  | Some v => v
  | None => "undefined"
  end.

Definition creatingMessage (owner : string) (data : LaunchData) : string :=
  ("Creating agent for owner " ++ owner
   ++ " with name " ++ ld_name data
   ++ " and ticker " ++ ld_ticker data
   ++ " and " ++ shown (option_map twc_email (twitterConfig data))
   ++ " and " ++ shown (option_map tgc_botToken (telegramConfig data)))%string.

Definition agentBioOf (bio : string) : string :=
  (bio ++ String (Ascii.ascii_of_nat 10) "Launched on $CUBIE (https://cubie.fun)")%string.

Definition launch (req : LaunchRequest) : L W Reply :=
  if DISABLE_LAUNCH deps
  then lret (NextError "Launchpad is going live Feb 19 @ 12PM PST/3PM EST")
  else
  match req_address req with
  | None => lret (NextError "Sign in to launch an agent")
  | Some owner =>
  if String.eqb owner ""
  then lret (NextError "Sign in to launch an agent")
  else
  do! parsed <- lcall (LvParse (req_body req))
                      (safeParseAsync deps (req_body req));
  match parsed with
  | inr errors => lret (NextError (String.concat ", " errors))
  | inl data =>
  lemit (LvLog (creatingMessage owner data)) ;;;
  let agentBio := agentBioOf (ld_bio data) in
  match req_file req with
  | None => lret (NextError "Image is required")
  | Some file =>
  match file_buffer file with
  | None => lret (NextError "Image is required")
  | Some buffer =>
  if String.eqb (file_mimetype file) ""
  then lret (NextError "Image is required")
  else
  match twitterConfig data, telegramConfig data with
  | None, None =>
      lret (NextError "Enable at least one social media platform")
  | _, _ =>
  let agentInfo := agentInfoOf data in
  do! mint <- lrun LvKeypair (Keypair_generate deps);
  do! userFeeAccount <- lrun LvKeypair (Keypair_generate deps);
  do! agentFee <- lcall LvGetAgentFee (getAgentFee deps);
  lrun (LvPollFeeAccount (publicKey userFeeAccount) agentFee)
       (fun w => (tt, pollFeeAccount deps (publicKey userFeeAccount)
                                     agentFee w)) ;;;
  do! privateKey <- lrun LvKeypair (Keypair_generate deps);
  let agentData image := {|
    ad_name := ld_name data;
    ad_ticker := ld_ticker data;
    ad_bio := agentBio;
    ad_api := ld_api data;
    ad_owner := owner;
    ad_mint := publicKey mint;
    ad_status := "pending";
    ad_feeAccountPublicKey := publicKey userFeeAccount;
    ad_feeAccountPrivateKey := base64 deps (secretKey userFeeAccount);
    ad_tw_email := option_map twc_email (twitterConfig data);
    ad_tw_password := option_map twc_password (twitterConfig data);
    ad_tw_handle := option_map twc_username (twitterConfig data);
    ad_telegram_bot_token := option_map tgc_botToken (telegramConfig data);
    ad_telegram := option_map tgc_username (telegramConfig data);
    ad_private_key := base64 deps (secretKey privateKey);
    ad_image_url := image
  |} in
  do! tokenMetadata <-
    lcall (LvCreateTokenMetadata (ld_name data) (ld_ticker data) agentBio)
          (createTokenMetadata deps (ld_name data) (ld_ticker data) agentBio
             buffer (file_mimetype file)
             (option_map twc_username (twitterConfig data))
             (option_map tgc_username (telegramConfig data)));
  let agent := agentData (Some (imageUri tokenMetadata)) in
  lemit (LvLog "Saving agent") ;;;
  do! id <- lcall (LvSaveAgent agent) (Agent_save deps agent);
  saveInfos id agentInfo ;;;
  lemit (LvLog "Agent saved") ;;;
  do! transaction <-
    lcall (LvBuildTransaction owner (publicKey mint))
          (getCreateAndBuyTransaction deps owner tokenMetadata mint
             (devBuy data) (publicKey userFeeAccount) agentFee);
  match transaction with
  | None => lret (NextError "Failed to create agent")
  | Some tx =>
      do! serialized <- (fun st => (signAndSerialize deps tx mint, st));
      lret (Json200 id (publicKey mint) serialized)
  end
  end end end end end.

End Launch.


(** The steps of a launch, and the order in which a launch with [rows]
    info rows takes them when nothing stops it. *)
Inductive LaunchStep : Type :=
| KParse | KLog | KKeypair | KFee | KPoll | KMetadata
| KSaveAgent | KSaveInfo | KBuild.

Definition stepOf (ev : LaunchEvent) : LaunchStep :=
  match ev with
  | LvParse _ => KParse
  | LvLog _ => KLog
  | LvKeypair => KKeypair
  | LvGetAgentFee => KFee
  | LvPollFeeAccount _ _ => KPoll
  | LvCreateTokenMetadata _ _ _ => KMetadata
  | LvSaveAgent _ => KSaveAgent
  | LvSaveInfo _ => KSaveInfo
  | LvBuildTransaction _ _ => KBuild
  end.

Definition launchPlan (rows : nat) : list LaunchStep :=
  ([KParse; KLog; KKeypair; KKeypair; KFee; KPoll; KKeypair; KMetadata;
    KLog; KSaveAgent] ++ repeat KSaveInfo rows ++ [KLog; KBuild])%list.

(** Anything beyond validating the body and logging. *)
Definition acts (ev : LaunchEvent) : bool :=
  match ev with
  | LvParse _ | LvLog _ => false
  | _ => true
  end.

Definition rowsOf (parsed : Result (LaunchData + list string)) : nat :=
  match parsed with
  | Ok (inl data) =>
      List.length (knowledge data) + List.length (style data)
      + List.length (twitterStyle data) + List.length (telegramStyle data)
  | _ => 0
  end.

Definition ofAgent (id : Z) (info : AgentInfoRow) : AgentInfoRow :=
  {| info_type := info_type info;
     info_data := info_data info;
     info_agentId := Some id |}.

Definition savedAgents (t : list LaunchEvent) : list AgentData :=
  flat_map (fun ev => match ev with LvSaveAgent a => [a] | _ => [] end) t.

Definition savedInfos (t : list LaunchEvent) : list AgentInfoRow :=
  flat_map (fun ev => match ev with LvSaveInfo r => [r] | _ => [] end) t.


(* ------------------------------------------------------------------ *)
(** ** A concrete library and a concrete outside world

    Used to run the definitions above on explicit inputs. *)

Module Sample.

Import Ascii.

Definition alphabet : string :=
  "123456789ABCDEFGHJKLMNPQRSTUVWXYZabcdefghijkmnopqrstuvwxyz".

Fixpoint indexOf (c : ascii) (s : string) (i : Z) : option Z :=
  match s with
  | EmptyString => None
  | String c' s' => if Ascii.eqb c c' then Some i else indexOf c s' (i + 1)
  end.

Fixpoint base58Value (s : string) (acc : Z) : option Z :=
  match s with
  | EmptyString => Some acc
  | String c s' =>
      match indexOf c alphabet 0 with
      | Some d => base58Value s' (acc * 58 + d)
      | None => None
      end
  end.

Fixpoint leadingOnes (s : string) : nat :=
  match s with
  | String "1"%char s' => S (leadingOnes s')
  | _ => O
  end.

Fixpoint bytesBE (fuel : nat) (n : Z) (acc : bytes) : bytes :=
  match fuel with
  | O => acc
  | S fuel' =>
      if n =? 0 then acc else bytesBE fuel' (n / 256) (n mod 256 :: acc)
  end.

(** [bs58.decode]; a value that is not a string is rejected. *)
Definition decode58 (v : option string) : Result bytes :=
  match v with
  | None => Throw "Expected String"
  | Some s =>
      match base58Value s 0 with
      | Some n =>
          Ok (repeat 0 (leadingOnes s) ++ bytesBE (String.length s) n [])%list
      | None => Throw "Non-base58 character"
      end
  end.

Definition computeBudget : PublicKey :=
  "ComputeBudget111111111111111111111111111111".

(** [ComputeBudgetInstruction.decodeInstructionType]: the first byte
    selects one of the four layouts web3.js knows. *)
Definition instructionType (ti : TransactionInstruction) : Result string :=
  if negb (String.eqb (ti_programId ti) computeBudget)
  then Throw "invalid instruction; programId is not ComputeBudgetProgram"
  else
    match ti_data ti with
    | 0 :: _ => Ok "RequestUnits"
    | 1 :: _ => Ok "RequestHeapFrame"
    | 2 :: _ => Ok "SetComputeUnitLimit"
    | 3 :: _ => Ok "SetComputeUnitPrice"
    | _ => Throw "Instruction type incorrect; not a ComputeBudgetInstruction"
    end.

Fixpoint littleEndian (l : bytes) : Z :=
  match l with
  | [] => 0
  | b :: l' => b + 256 * littleEndian l'
  end.

(** [ComputeBudgetInstruction.decodeSetComputeUnitPrice]: a tag byte and
    a little-endian [u64]. *)
Definition unitPrice (ti : TransactionInstruction) : Result Z :=
  if negb (String.eqb (ti_programId ti) computeBudget)
  then Throw "invalid instruction; programId is not ComputeBudgetProgram"
  else
    match ti_data ti with
    | tag :: rest =>
        if (List.length rest <? 8)%nat then Throw "invalid instruction"
        else if tag =? 3 then Ok (littleEndian (firstn 8 rest))
             else Throw "invalid instruction; instruction index mismatch"
    | [] => Throw "invalid instruction"
    end.

Definition digit (c : ascii) : option Z :=
  let n := Z.of_nat (nat_of_ascii c) in
  if (48 <=? n) && (n <=? 57) then Some (n - 48) else None.

Fixpoint digits (s : string) (acc : Z) : option Z :=
  match s with
  | EmptyString => Some acc
  | String c s' =>
      match digit c with
      | Some d => digits s' (acc * 10 + d)
      | None => None
      end
  end.

(** [Number(s)] and [parseFloat(s)] on the decimal integers that the RPC
    and the examples use; anything else reads as [NaN]. *)
Definition numberOf (s : string) : float :=
  match s with
  | EmptyString => Num.NaN
  | _ => match digits s 0 with
         | Some n => Num.of_Z n
         | None => Num.NaN
         end
  end.

Definition publicKey (s : string) : Result PublicKey :=
  match decode58 (Some s) with
  | Ok b => if (List.length b =? 32)%nat then Ok s
            else Throw "Invalid public key input"
  | Throw e => Throw e
  end.

Definition keyBytes (k : PublicKey) : bytes :=
  match decode58 (Some k) with
  | Ok b => b
  | Throw _ => []
  end.

Definition utf8 (s : string) : bytes :=
  map (fun c => Z.of_nat (nat_of_ascii c)) (list_ascii_of_string s).

(** Stands for [PublicKey.findProgramAddressSync], whose SHA-256 and
    curve test are outside this development: a fixed address per
    program, bump 255. *)
Definition derive (seeds : list bytes) (program : PublicKey)
  : Result (PublicKey * Z) :=
  Ok ("9WzDXwBbmkg8ZTbNMqUxvQRAyrZzDsGYdLVL9zYtAWWM", 255).

Fixpoint decimal (fuel : nat) (n : Z) (acc : string) : string :=
  match fuel with
  | O => acc
  | S fuel' =>
      let acc' := String (ascii_of_nat (Z.to_nat (48 + n mod 10))) acc in
      if n <? 10 then acc' else decimal fuel' (n / 10) acc'
  end.

(** Prints integers as JavaScript does; of a fraction only the integer
    part is printed, followed by an ellipsis. *)
Definition show (x : float) : string :=
  match x with
  | S754_zero _ => "0"
  | S754_nan => "NaN"
  | S754_infinity false => "Infinity"
  | S754_infinity true => "-Infinity"
  | S754_finite s m e =>
      let whole := if 0 <=? e then Z.pos m * 2 ^ e else Z.pos m / 2 ^ (- e) in
      let exact := if 0 <=? e then true
                   else Z.pos m mod 2 ^ (- e) =? 0 in
      ((if s then "-" else "")
       ++ decimal (Z.to_nat (Z.log2 whole) + 1) whole ""
       ++ (if exact then "" else "..."))%string
  end.

(** The digit a number written in exponent form starts with. *)
Fixpoint firstDigit (fuel : nat) (n : Z) : Z :=
  match fuel with
  | O => n
  | S fuel' => if n <? 10 then n else firstDigit fuel' (n / 10)
  end.

Definition lib : Lib := {|
  LAMPORTS_PER_SOL := Num.of_Z 1000000000;
  ComputeBudgetProgram_programId := computeBudget;
  NATIVE_MINT := "So11111111111111111111111111111111111111112";
  StringToNumber := numberOf;
  NumberToString := show;
  parseFloat := numberOf;
  parseIntOfExponentForm := fun x => Z.sgn x * firstDigit 400 (Z.abs x);
  bs58_decode := decode58;
  decodeInstructionType := instructionType;
  decodeSetComputeUnitPrice := unitPrice;
  newPublicKey := publicKey;
  toBuffer := keyBytes;
  Buffer_from := utf8;
  findProgramAddressSync := derive
|}.

(** *** The outside world as data *)

Record World := {
  w_pools : list (string * list PoolItem);
  w_registryDown : bool;
  w_ledger : list ConfirmedSignatureInfo;       (* newest first *)
  w_pageSize : nat;
  w_bodies : list (string * ParsedTransactionWithMeta);
  w_failures : nat;                             (* fetches that reject next *)
  w_agents : list Agent;
  w_cursors : list (Z * string);
  w_rows : list PriceHistoryRow
}.

Fixpoint lookup {A} (k : string) (l : list (string * A)) : option A :=
  match l with
  | [] => None
  | (k', a) :: l' => if String.eqb k k' then Some a else lookup k l'
  end.

(** The place of a signature in a history listed newest first: the oldest
record has place 1, an unknown signature place 0. *)
Fixpoint rankIn (ledger : list ConfirmedSignatureInfo) (s : string) : nat :=
  match ledger with
  | [] => O
  | r :: ledger' =>
      if String.eqb (signature r) s then S (List.length ledger')
      else rankIn ledger' s
  end.

Definition between (ledger : list ConfirmedSignatureInfo)
           (until before : option string) (r : ConfirmedSignatureInfo)
  : bool :=
  let place := rankIn ledger (signature r) in
  match before with
  | Some b => (place <? rankIn ledger b)%nat
  | None => true
  end
  && match until with
     | Some u => (rankIn ledger u <? place)%nat
     | None => true
     end.

(** A page: the newest [w_pageSize] records strictly between the bounds. *)
Definition page (w : World) (until before : option string)
  : list ConfirmedSignatureInfo :=
  firstn (w_pageSize w) (filter (between (w_ledger w) until before) (w_ledger w)).

Definition fetchBodies (sigs : list string) (w : World)
  : Result (option (list (option ParsedTransactionWithMeta))) * World :=
  match w_failures w with
  | S n =>
      (Throw "429 Too Many Requests",
       {| w_pools := w_pools w; w_registryDown := w_registryDown w;
          w_ledger := w_ledger w; w_pageSize := w_pageSize w;
          w_bodies := w_bodies w; w_failures := n;
          w_agents := w_agents w; w_cursors := w_cursors w;
          w_rows := w_rows w |})
  | O => (Ok (Some (map (fun s => lookup s (w_bodies w)) sigs)), w)
  end.

Definition findCursor (id : Z) (w : World) : option string :=
  option_map snd (find (fun c => fst c =? id) (w_cursors w)).

Definition insertRow (row : PriceHistoryRow) (w : World) : World :=
  {| w_pools := w_pools w; w_registryDown := w_registryDown w;
     w_ledger := w_ledger w; w_pageSize := w_pageSize w;
     w_bodies := w_bodies w; w_failures := w_failures w;
     w_agents := w_agents w; w_cursors := w_cursors w;
     w_rows := (w_rows w ++ [row])%list |}.

Definition remote : Remote World := {|
  fetchPoolByMints := fun mint1 _ w =>
    if w_registryDown w then (Throw "Network Error", w)
    else (Ok (lookup mint1 (w_pools w)), w);
  getSignaturesForAddress := fun _ until before w =>
    (Ok (page w until before), w);
  getParsedTransactions := fetchBodies;
  getAgents := fun w => (Ok (w_agents w), w);
  getLastSignature := fun id w => (Ok (findCursor id w), w);
  PriceHistory_create := fun row w => (Ok tt, insertRow row w)
|}.

Definition start (w : World) : St World := {| world := w; trace := [] |}.

(** *** A sale of two tokens for half a SOL *)

Definition mintOne : string := "Eb2eNLcYrpTg9zeR8wFg6sEV43m8GgKNhWDJ51aWEhHo".
Definition mintTwo : string := "FQacTfKjVSh9bWRauHRbTSkUqdu8H1GiofRdPcrAQgfi".
Definition traderOne : string := "9spTbRg6KjFzPsUpwenGsd7515SbJckoSdahVnhiQ3Uo".
Definition traderTwo : string := "94mFqUU6UumsoWsYVqfrFnC9AfSdozzW5WTydxkv3NRH".
Definition poolOne : string := "4v3FCtJhJ5WNr4Zo7ESDJNv5Dj9RKNfvho1DJWN2JKb7".

Definition balance (owner amount : string) : TokenBalance :=
  {| tb_mint := mintOne; tb_owner := Some owner; tb_amount := amount |}.

(** Raises the unit price to 2,000,000 micro-lamports. *)
Definition setPrice : Instruction :=
  {| programId := computeBudget; ins_data := Some "3axL5qdEKYoR" |}.

(** Sets the unit limit to 200,000. *)
Definition setLimit : Instruction :=
  {| programId := computeBudget; ins_data := Some "Fj2Eoy" |}.

(** A compute-budget instruction with tag 4, which the decoder of
    web3.js does not list. *)
Definition setLoadedAccounts : Instruction :=
  {| programId := computeBudget; ins_data := Some "TB8KeX" |}.

Definition saleMeta : Meta := {|
  preTokenBalances := Some [balance traderOne "5000000"];
  postTokenBalances := Some [balance traderOne "3000000"];
  preBalances := [Num.of_Z 1000000000; Num.of_Z 7];
  postBalances := [Num.of_Z 1499795000; Num.of_Z 7];
  fee := Num.of_Z 5000;
  computeUnitsConsumed := Some (Num.of_Z 100000)
|}.

Definition saleAs (sig : string) (extra : list Instruction)
  : ParsedTransactionWithMeta := {|
  meta := Some saleMeta;
  blockTime := Some 1700000000;
  signatures := [sig];
  accountKeys := [ {| pubkey := traderOne; signer := true |};
                   {| pubkey := traderTwo; signer := true |} ];
  instructions := extra
|}.

Definition sale (extra : list Instruction) : ParsedTransactionWithMeta :=
  saleAs "sig-sale" extra.

Definition saleTrade : ParsedTokenHistory := {|
  pth_signature := Some "sig-sale";
  pth_mint := mintOne;
  pth_type := "sell";
  pth_owner := traderOne;
  preTokenBalance := Num.of_Z 5;
  postTokenBalance := Num.of_Z 3;
  preSolBalance := Num.of_Z 1;
  postSolBalance := Num.div (Num.of_Z 3) (Num.of_Z 2);
  price := Num.of_Z 4;
  date := 1700000000
|}.

(** *** A venue with five transactions *)

Definition landed (s : string) : ConfirmedSignatureInfo :=
  {| signature := s; err := None |}.

Definition failed (s : string) : ConfirmedSignatureInfo :=
  {| signature := s; err := Some "InstructionError" |}.

Definition history : list ConfirmedSignatureInfo :=
  [landed "s5"; failed "s4"; landed "s3"; landed "s2"; landed "s1"].

Definition rank : string -> nat := rankIn history.

(** The node knows the bodies of [s5] and [s3] only. *)
Definition calm : World := {|
  w_pools := [];
  w_registryDown := false;
  w_ledger := history;
  w_pageSize := 2;
  w_bodies := [("s5", saleAs "s5" [setLimit; setPrice]);
               ("s3", saleAs "s3" [])];
  w_failures := 0;
  w_agents := [ {| agent_id := 1; agent_mint := mintOne |};
                {| agent_id := 2; agent_mint := mintTwo |} ];
  w_cursors := [(1, "s1")];
  w_rows := []
|}.

Definition withFailures (n : nat) (w : World) : World :=
  {| w_pools := w_pools w; w_registryDown := w_registryDown w;
     w_ledger := w_ledger w; w_pageSize := w_pageSize w;
     w_bodies := w_bodies w; w_failures := n;
     w_agents := w_agents w; w_cursors := w_cursors w;
     w_rows := w_rows w |}.

Definition withRegistryDown (w : World) : World :=
  {| w_pools := w_pools w; w_registryDown := true;
     w_ledger := w_ledger w; w_pageSize := w_pageSize w;
     w_bodies := w_bodies w; w_failures := w_failures w;
     w_agents := w_agents w; w_cursors := w_cursors w;
     w_rows := w_rows w |}.

Definition withPools (pools : list (string * list PoolItem)) (w : World)
  : World :=
  {| w_pools := pools; w_registryDown := w_registryDown w;
     w_ledger := w_ledger w; w_pageSize := w_pageSize w;
     w_bodies := w_bodies w; w_failures := w_failures w;
     w_agents := w_agents w; w_cursors := w_cursors w;
     w_rows := w_rows w |}.

Definition withBodies (bodies : list (string * ParsedTransactionWithMeta))
           (w : World) : World :=
  {| w_pools := w_pools w; w_registryDown := w_registryDown w;
     w_ledger := w_ledger w; w_pageSize := w_pageSize w;
     w_bodies := bodies; w_failures := w_failures w;
     w_agents := w_agents w; w_cursors := w_cursors w;
     w_rows := w_rows w |}.

(** The records of the venue that are sent on to the batch stage. *)
Definition batch : list ConfirmedSignatureInfo := forwarded history.

(** The body of [s3] carries the instruction the decoder rejects. *)
Definition poisoned : World :=
  withBodies [("s5", saleAs "s5" [setLimit; setPrice]);
              ("s3", saleAs "s3" [setLimit; setLoadedAccounts])] calm.

(** *** Other states of the world *)

(** The registry lists two pools for the first mint. *)
Definition listed : World :=
  withPools [(mintOne, [ {| pool_id := poolOne |};
                         {| pool_id := mintTwo |} ])] calm.

(** The registry cannot be reached. *)
Definition down : World := withRegistryDown calm.

(** Two stored prices whose block times lie beyond the array-index range,
    the later one stored first. *)
Definition lateRows : list PriceHistoryRow :=
  [ {| row_price := "1"; row_blockTime := 4294967297;
       row_agentId := 1; row_signature := Some "s7" |};
    {| row_price := "2"; row_blockTime := 4294967296;
       row_agentId := 1; row_signature := Some "s6" |} ].


(** *** A provider that ignores its bounds *)

(** Whatever is asked, the same record is the answer. *)
Definition stuck : Remote World := {|
  fetchPoolByMints := fetchPoolByMints remote;
  getSignaturesForAddress := fun _ _ _ w =>
    (Ok [ {| signature := "s5"; err := None |} ], w);
  getParsedTransactions := getParsedTransactions remote;
  getAgents := getAgents remote;
  getLastSignature := getLastSignature remote;
  PriceHistory_create := PriceHistory_create remote
|}.


(** *** A transaction whose native balances are missing *)

Definition bareMeta : Meta := {|
  preTokenBalances := preTokenBalances saleMeta;
  postTokenBalances := postTokenBalances saleMeta;
  preBalances := [];
  postBalances := [];
  fee := fee saleMeta;
  computeUnitsConsumed := computeUnitsConsumed saleMeta
|}.

Definition bareSale : ParsedTransactionWithMeta := {|
  meta := Some bareMeta;
  blockTime := Some 1700000000;
  signatures := ["sig-bare"];
  accountKeys := accountKeys (sale []);
  instructions := []
|}.


(** *** Stored prices of three trades in two blocks *)

Definition storedRows : list PriceHistoryRow :=
  [ {| row_price := "4"; row_blockTime := 1700000100;
       row_agentId := 1; row_signature := Some "s5" |};
    {| row_price := "3"; row_blockTime := 1700000000;
       row_agentId := 1; row_signature := Some "s3" |};
    {| row_price := "oops"; row_blockTime := 1700000100;
       row_agentId := 1; row_signature := Some "s4" |};
    {| row_price := "2"; row_blockTime := 1700000100;
       row_agentId := 1; row_signature := Some "s2" |} ].


Definition rowsAtLaterBlock : list PriceHistoryRow :=
  rowsAt 1700000100 storedRows.



(** A launch service whose collaborators all answer: keys are numbered,
    the body ["ok"] parses to [form], any other body is refused. *)
Definition form : LaunchData := {|
  ld_name := "Cubie";
  ld_ticker := "CUB";
  ld_bio := "A friendly agent";
  ld_api := "null";
  twitterConfig := None;
  telegramConfig := Some {| tgc_botToken := "token"; tgc_username := "cubie_bot" |};
  knowledge := ["k1"; "k2"];
  style := ["s1"];
  twitterStyle := [];
  telegramStyle := ["t1"]
  ; devBuy := "0.5"
|}.

Definition keyNames : list string := ["keyA"; "keyB"; "keyC"].

Definition launchDeps (builds : bool) : LaunchDeps nat := {|
  DISABLE_LAUNCH := false;
  safeParseAsync := fun body w =>
    (Ok (if String.eqb body "ok" then inl form else inr ["Required"]), w);
  Keypair_generate := fun w =>
    (Build_Keypair (nth w keyNames "key") [Z.of_nat w], S w);
  getAgentFee := fun w => (Ok "0.1", w);
  pollFeeAccount := fun _ _ w => w;
  createTokenMetadata := fun _ _ _ _ _ _ _ w =>
    (Ok {| imageUri := "https://ipfs.io/image"; metadata_rest := "{}" |}, w);
  Agent_save := fun _ w => (Ok 7, w);
  AgentInfo_save := fun _ w => (Ok tt, w);
  getCreateAndBuyTransaction := fun _ _ _ _ _ _ w =>
    (Ok (if builds then Some "tx" else None), w);
  signAndSerialize := fun _ _ => Ok "dHg=";
  base64 := fun _ => "AA=="
|}.

Definition launchRequest : LaunchRequest := {|
  req_address := Some "owner1";
  req_body := "ok";
  req_file := Some {| file_buffer := Some [137; 80]; file_mimetype := "image/png" |}
|}.

Definition fresh : LSt nat := {| lworld := 0%nat; ltrace := [] |}.


(** A block time of 10^21, whose key is written 1e+21, beside one of 5. *)
Definition distantRows : list PriceHistoryRow :=
  [ {| row_price := "1"; row_blockTime := 10 ^ 21;
       row_agentId := 1; row_signature := Some "s9" |};
    {| row_price := "2"; row_blockTime := 5;
       row_agentId := 1; row_signature := Some "s8" |} ].

End Sample.

(* ================================================================== *)
(** * Properties *)

Local Open Scope list_scope.

(** ** The definitions at work *)

Example floor_of_fractions :
  Num.floor (Num.div (Num.of_Z 7) (Num.of_Z 2)) = Num.of_Z 3
  /\ Num.floor (Num.div (Num.of_Z (-7)) (Num.of_Z 2)) = Num.of_Z (-4)
  /\ Num.floor (Num.div (Num.of_Z 1) (Num.of_Z 3)) = Num.zero
  /\ Num.floor (Num.of_Z 12) = Num.of_Z 12.
Proof. repeat split; vm_compute; reflexivity. Qed.

Example division_by_zero :
  Num.div (Num.of_Z 2) Num.zero = S754_infinity false
  /\ Num.div Num.zero Num.zero = Num.NaN
  /\ guardPrice (Num.div (Num.of_Z 2) Num.zero) = Num.zero
  /\ guardPrice Num.NaN = Num.zero.
Proof. repeat split; reflexivity. Qed.

Example sample_sale_priced :
  computeTokenPrice Sample.lib
    (Sample.sale [Sample.setLimit; Sample.setPrice]) Sample.mintOne
  = Ok (Some [Sample.saleTrade]).
Proof. vm_compute; reflexivity. Qed.

Example sample_unit_price :
  unitPriceOf Sample.lib Sample.setPrice = Ok 2000000
  /\ instructionTypeOf Sample.lib Sample.setLimit = Ok "SetComputeUnitLimit"
  /\ instructionTypeOf Sample.lib Sample.setLoadedAccounts
     = Throw "Instruction type incorrect; not a ComputeBudgetInstruction".
Proof. repeat split; vm_compute; reflexivity. Qed.

Example sample_walk :
  outcomeOf (getAllTransactionsUntilLastSignature Sample.remote 2 "venue"
               (Some "s1") (Sample.start Sample.calm))
  = Some (Ok [Sample.landed "s5"; Sample.failed "s4";
              Sample.landed "s3"; Sample.landed "s2"])
  /\ outcomeOf (getAllTransactionsUntilLastSignature Sample.remote 1 "venue"
                  (Some "s1") (Sample.start Sample.calm))
     = None
  /\ Sample.batch
     = [Sample.landed "s5"; Sample.landed "s3";
        Sample.landed "s2"; Sample.landed "s1"].
Proof. repeat split; vm_compute; reflexivity. Qed.

(** Seven rejections in a row cost the first batch and delay the second. *)
Example sample_rejections_contained :
  option_map (fun r => match r with
                       | Ok l => map pth_signature l
                       | Throw _ => []
                       end)
             (outcomeOf (processBatches Sample.lib Sample.remote
                           [[Sample.landed "s5"]; [Sample.landed "s3"]]
                           Sample.mintOne []
                           (Sample.start (Sample.withFailures 7 Sample.calm))))
  = Some [Some "s3"]
  /\ countAttempts
       (traceOf (processBatches Sample.lib Sample.remote
                   [[Sample.landed "s5"]; [Sample.landed "s3"]]
                   Sample.mintOne []
                   (Sample.start (Sample.withFailures 7 Sample.calm))))
     = 8%nat.
Proof. split; vm_compute; reflexivity. Qed.

Example sample_sync_rows :
  map row_signature
      (Sample.w_rows
         (match syncAgentTransactionHistory Sample.lib Sample.remote 3
                  (Sample.start Sample.calm) with
          | Some (_, st) => world st
          | None => Sample.calm
          end))
  = [Some "s5"; Some "s3"]
  /\ Sample.show (Num.of_Z 4) = "4"
  /\ Sample.show (Num.of_Z 1700000000) = "1700000000"
  /\ Sample.show (Num.div (Num.of_Z 3) (Num.of_Z 2)) = "1...".
Proof. repeat split; vm_compute; reflexivity. Qed.

(** ** Numbers *)

Lemma binary_round_aux_sign (s : bool) (m e : Z) (l : location) :
  match binary_round_aux Num.prec Num.emax s m e l with
  | S754_zero s' | S754_infinity s' | S754_finite s' _ _ => s' = s
  | S754_nan => True
  end.
Proof.
  unfold binary_round_aux.
  destruct (shr_fexp Num.prec Num.emax m e l) as [mrs e'].
  destruct (shr_fexp _ _ _ e' loc_Exact) as [mrs' e''].
  destruct (shr_m mrs'); [reflexivity | | exact I].
  destruct (e'' <=? Num.emax - Num.prec); reflexivity.
Qed.

(** The quotient of two absolute values is [NaN], or carries a clear sign
    bit. *)
Lemma div_abs_sign (a b : float) :
  match Num.div (Num.abs a) (Num.abs b) with
  | S754_zero s | S754_infinity s | S754_finite s _ _ => s = false
  | S754_nan => True
  end.
Proof.
  destruct a as [sa | sa | | sa ma ea], b as [sb | sb | | sb mb eb];
    cbn; try exact I; try reflexivity.
  destruct (SFdiv_core_binary Num.prec Num.emax (Z.pos ma) ea (Z.pos mb) eb)
    as [[mz ez] lz].
  apply binary_round_aux_sign.
Qed.

Lemma div_by_zero_not_finite (a b : float) :
  Num.is_zero b = true -> Num.isFinite (Num.div a b) = false.
Proof.
  destruct b; try discriminate; intros _.
  destruct a; reflexivity.
Qed.

(** What the guard [price && !isNaN(price) && isFinite(price) ? price : 0]
    makes of such a quotient. *)
Lemma guardPrice_quotient (a b : float) :
  let q := Num.div (Num.abs a) (Num.abs b) in
  guardPrice q
  = (if Num.is_zero (Num.abs b) || negb (Num.finite_nonneg q)
     then Num.zero else q)
  /\ Num.finite_nonneg (guardPrice q) = true.
Proof.
  intros q.
  pose proof (div_abs_sign a b) as Hs. fold q in Hs.
  assert (Hz : Num.is_zero (Num.abs b) = true -> Num.isFinite q = false)
    by apply div_by_zero_not_finite.
  unfold guardPrice.
  destruct (Num.is_zero (Num.abs b)).
  - specialize (Hz eq_refl). destruct q; try discriminate; split; reflexivity.
  - clear Hz. destruct q as [s | s | | s m e]; cbn in *; subst;
      split; reflexivity.
Qed.

(** ** computeTokenPrice *)

Section ComputeTokenPriceFacts.

Variable lib : Lib.
Variables (tx : ParsedTransactionWithMeta) (m : Meta).
Variables (preTB postTB : list TokenBalance) (mint : string).

Let step := pushTrade lib tx m preTB postTB mint.
Let trade := signerTrade lib tx m preTB postTB mint.

(** The accumulated array is the initial one followed by the trades of
    the signers, in order. *)
Lemma pushTrade_run (signers : list Signer) :
  forall acc out,
    forEachR step signers acc = Ok out ->
    exists rs,
      Forall2 (fun s r => trade s = Ok r) signers rs
      /\ out = (acc ++ nonNull rs)%list.
Proof.
  induction signers as [| s signers IH]; intros acc out H; cbn in H.
  - inversion H; subst. exists []. split; [constructor |].
    cbn. now rewrite app_nil_r.
  - unfold step at 1, pushTrade in H. fold trade in H.
    destruct (trade s) as [r | e] eqn:Hs; cbn in H; [| discriminate].
    destruct r as [t |].
    + cbn in H. apply IH in H as (rs & HF & ->).
      exists (Some t :: rs). split; [constructor; assumption |].
      cbn. now rewrite <- app_assoc.
    + cbn in H. apply IH in H as (rs & HF & ->).
      exists (None :: rs). split; [constructor; assumption | reflexivity].
Qed.

Lemma in_nonNull {A} (rs : list (option A)) (a : A) :
  In a (nonNull rs) <-> In (Some a) rs.
Proof.
  induction rs as [| [x |] rs IH]; cbn; [tauto | |].
  - rewrite IH. split; intros [H | H]; auto; left; congruence.
  - rewrite IH. split; [auto | intros [H | H]; [discriminate | auto]].
Qed.

Lemma trade_of_signer (signers : list Signer) (out : list ParsedTokenHistory)
      (t : ParsedTokenHistory) :
  forEachR step signers [] = Ok out ->
  In t out ->
  exists s, In s signers /\ trade s = Ok (Some t).
Proof.
  intros H Hin. apply pushTrade_run in H as (rs & HF & ->).
  cbn in Hin. apply in_nonNull in Hin.
  clear step. induction HF as [| s r signers rs Hs HF IH]; [contradiction |].
  destruct Hin as [-> | Hin].
  - exists s. split; [now left | assumption].
  - destruct (IH Hin) as (s' & Hs' & Ht). exists s'. split; [now right | assumption].
Qed.

Lemma signer_has_trade (signers : list Signer) (out : list ParsedTokenHistory)
      (s : Signer) :
  forEachR step signers [] = Ok out ->
  In s signers ->
  exists r, trade s = Ok r /\ forall t, r = Some t -> In t out.
Proof.
  intros H Hin. apply pushTrade_run in H as (rs & HF & ->). cbn.
  clear step. induction HF as [| s' r signers rs Hs HF IH]; [contradiction |].
  destruct Hin as [-> | Hin].
  - exists r. split; [assumption |]. intros t ->. cbn. now left.
  - destruct (IH Hin) as (r' & Hr' & Ht). exists r'. split; [assumption |].
    intros t Hrt. destruct r; cbn; auto.
Qed.

(** Everything that is known of a trade pushed for a signer. *)
Lemma signerTrade_Some (s : Signer) (t : ParsedTokenHistory) :
  trade s = Ok (Some t) ->
  exists priorityFee,
    priorityFeeOf lib tx m = Ok priorityFee
    /\ Num.eqb (tokenBalanceOf lib preTB (key s) mint)
               (tokenBalanceOf lib postTB (key s) mint) = false
    /\ pth_owner t = key s
    /\ preTokenBalance t = tokenBalanceOf lib preTB (key s) mint
    /\ postTokenBalance t = tokenBalanceOf lib postTB (key s) mint
    /\ preSolBalance t
       = Num.div (numAt (preBalances m) (index s)) (LAMPORTS_PER_SOL lib)
    /\ postSolBalance t
       = Num.div (Num.add (Num.add (numAt (postBalances m) (index s))
                                   (Num.or0 (fee m)))
                          priorityFee)
                 (LAMPORTS_PER_SOL lib)
    /\ pth_type t
       = (if Num.ltb (postTokenBalance t) (preTokenBalance t)
          then "sell" else "buy")
    /\ price t
       = guardPrice
           (Num.div
              (Num.abs (Num.sub (preTokenBalance t) (postTokenBalance t)))
              (Num.abs (Num.sub (preSolBalance t) (postSolBalance t)))).
Proof.
  unfold trade, signerTrade.
  destruct (Num.eqb _ _) eqn:He; cbn; [discriminate |].
  destruct (blockTimeFalsy _); cbn; [discriminate |].
  destruct (priorityFeeOf lib tx m) as [pf | e]; cbn; [| discriminate].
  intros H. inversion H; subst t; clear H. cbn.
  exists pf. repeat split; reflexivity.
Qed.

End ComputeTokenPriceFacts.

Lemma computeTokenPrice_Some (lib : Lib) (tx : ParsedTransactionWithMeta)
      (mint : string) (trades : list ParsedTokenHistory) :
  computeTokenPrice lib tx mint = Ok (Some trades) ->
  exists m preTB postTB,
    meta tx = Some m
    /\ preTokenBalances m = Some preTB
    /\ postTokenBalances m = Some postTB
    /\ blockTimeFalsy (blockTime tx) = false
    /\ forEachR (pushTrade lib tx m preTB postTB mint)
                (signersFrom 0 (accountKeys tx)) [] = Ok trades.
Proof.
  unfold computeTokenPrice.
  destruct (meta tx) as [m |]; [| discriminate].
  destruct (preTokenBalances m) as [preTB |] eqn:Hpre; [| discriminate].
  destruct (postTokenBalances m) as [postTB |] eqn:Hpost; [| discriminate].
  destruct (blockTimeFalsy (blockTime tx)); [discriminate |].
  destruct (forEachR _ _ _) as [out | e] eqn:Hrun; cbn; [| discriminate].
  intros E; inversion E; subst out. exists m, preTB, postTB.
  repeat split; assumption || reflexivity.
Qed.

Lemma signerTrade_changed (lib : Lib) (tx : ParsedTransactionWithMeta)
      (m : Meta) (preTB postTB : list TokenBalance) (mint : string)
      (s : Signer) (r : option ParsedTokenHistory) :
  signerTrade lib tx m preTB postTB mint s = Ok r ->
  Num.eqb (tokenBalanceOf lib preTB (key s) mint)
          (tokenBalanceOf lib postTB (key s) mint) = false ->
  blockTimeFalsy (blockTime tx) = false ->
  exists t, r = Some t.
Proof.
  unfold signerTrade. intros H He Hb. rewrite He, Hb in H. cbn in H.
  destruct (priorityFeeOf lib tx m); cbn in H; [| discriminate].
  inversion H. eexists; reflexivity.
Qed.

(** C1. Direction and price of an emitted trade: [sell] when the asset
    balance fell and [buy] otherwise; the price is the quotient of the
    absolute balance changes, replaced by 0 when the denominator is zero or
    the quotient is not a finite non-negative number, so it is always
    finite and non-negative.  Every signer whose asset balance changed has
    such a trade, whose asset balances are the ones looked up for that
    signer before and after and whose native balances are the ones at the
    signer's index, and every emitted trade is the trade of such a
    signer. *)
Theorem price_and_direction (lib : Lib) (tx : ParsedTransactionWithMeta)
        (mint : string) (trades : list ParsedTokenHistory) :
  computeTokenPrice lib tx mint = Ok (Some trades) ->
  (forall t, In t trades ->
     pth_type t
     = (if Num.ltb (postTokenBalance t) (preTokenBalance t)
        then "sell" else "buy")
     /\ price t
        = (if Num.is_zero (denominator t) || negb (Num.finite_nonneg (quotient t))
           then Num.zero else quotient t)
     /\ Num.finite_nonneg (price t) = true)
  /\ (forall m preTB postTB s,
        meta tx = Some m ->
        preTokenBalances m = Some preTB ->
        postTokenBalances m = Some postTB ->
        In s (signersFrom 0 (accountKeys tx)) ->
        Num.eqb (tokenBalanceOf lib preTB (key s) mint)
                (tokenBalanceOf lib postTB (key s) mint) = false ->
        exists t priorityFee,
          In t trades /\ pth_owner t = key s
          /\ preTokenBalance t = tokenBalanceOf lib preTB (key s) mint
          /\ postTokenBalance t = tokenBalanceOf lib postTB (key s) mint
          /\ pth_type t
             = (if Num.ltb (tokenBalanceOf lib postTB (key s) mint)
                           (tokenBalanceOf lib preTB (key s) mint)
                then "sell" else "buy")
          /\ priorityFeeOf lib tx m = Ok priorityFee
          /\ preSolBalance t
             = Num.div (numAt (preBalances m) (index s))
                       (LAMPORTS_PER_SOL lib)
          /\ postSolBalance t
             = Num.div (Num.add (Num.add (numAt (postBalances m) (index s))
                                         (Num.or0 (fee m)))
                                priorityFee)
                       (LAMPORTS_PER_SOL lib)
          /\ quotient t
             = Num.div
                 (Num.abs (Num.sub (tokenBalanceOf lib preTB (key s) mint)
                                   (tokenBalanceOf lib postTB (key s) mint)))
                 (Num.abs (Num.sub (preSolBalance t) (postSolBalance t)))
          /\ price t
             = (if Num.is_zero (denominator t)
                   || negb (Num.finite_nonneg (quotient t))
                then Num.zero else quotient t)
          /\ Num.finite_nonneg (price t) = true)
  /\ (forall t, In t trades ->
        exists m preTB postTB s,
          meta tx = Some m
          /\ preTokenBalances m = Some preTB
          /\ postTokenBalances m = Some postTB
          /\ In s (signersFrom 0 (accountKeys tx))
          /\ Num.eqb (tokenBalanceOf lib preTB (key s) mint)
                     (tokenBalanceOf lib postTB (key s) mint) = false
          /\ pth_owner t = key s
          /\ preTokenBalance t = tokenBalanceOf lib preTB (key s) mint
          /\ postTokenBalance t = tokenBalanceOf lib postTB (key s) mint).
Proof.
  intros H.
  destruct (computeTokenPrice_Some _ _ _ _ H)
    as (m & preTB & postTB & Hm & Hpre & Hpost & Hbt & Hrun).
  split; [| split].
  - intros t Hin.
    destruct (trade_of_signer _ _ _ _ _ _ _ _ _ Hrun Hin) as (s & _ & Hs).
    destruct (signerTrade_Some _ _ _ _ _ _ _ _ Hs)
      as (pf & _ & _ & _ & _ & _ & _ & _ & Hty & Hpr).
    split; [exact Hty |].
    unfold quotient, denominator. rewrite Hpr.
    apply guardPrice_quotient.
  - intros m' preTB' postTB' s Hm' Hpre' Hpost' Hin Hne.
    assert (m' = m) by congruence; subst m'.
    assert (preTB' = preTB) by congruence; subst preTB'.
    assert (postTB' = postTB) by congruence; subst postTB'.
    destruct (signer_has_trade _ _ _ _ _ _ _ _ _ Hrun Hin) as (r & Hr & Hout).
    destruct (signerTrade_changed _ _ _ _ _ _ _ _ Hr Hne Hbt) as (t & ->).
    destruct (signerTrade_Some _ _ _ _ _ _ _ _ Hr)
      as (pf & Hpf & _ & Ho & Hp & Hq & Hps & Hqs & Hty & Hpr).
    exists t, pf.
    split; [now apply Hout |]. split; [exact Ho |].
    split; [exact Hp |]. split; [exact Hq |].
    split; [rewrite Hty, Hp, Hq; reflexivity |].
    split; [exact Hpf |]. split; [exact Hps |]. split; [exact Hqs |].
    split; [unfold quotient, denominator; rewrite Hp, Hq; reflexivity |].
    unfold quotient, denominator. rewrite Hpr.
    apply guardPrice_quotient.
  - intros t Hin.
    destruct (trade_of_signer _ _ _ _ _ _ _ _ _ Hrun Hin) as (s & Hs & Ht).
    destruct (signerTrade_Some _ _ _ _ _ _ _ _ Ht)
      as (pf & _ & Hne & Ho & Hp & Hq & _).
    exists m, preTB, postTB, s. repeat split; assumption.
Qed.

(** The sale of the specification: 5 tokens before, 3 after, 1 SOL before
    and 1.5 SOL after the fees are added back give a [sell] at price 4,
    and this trade is the one of the first signer, with the balances
    looked up for that signer. *)
Lemma price_and_direction_witness :
  let t := Sample.saleTrade in
  let s := {| key := Sample.traderOne; index := 0 |} in
  let preTB := [Sample.balance Sample.traderOne "5000000"] in
  let postTB := [Sample.balance Sample.traderOne "3000000"] in
  (pth_type t
   = (if Num.ltb (postTokenBalance t) (preTokenBalance t)
      then "sell" else "buy")
   /\ price t
      = (if Num.is_zero (denominator t)
            || negb (Num.finite_nonneg (quotient t))
         then Num.zero else quotient t)
   /\ Num.finite_nonneg (price t) = true)
  /\ exists t' priorityFee,
       In t' [Sample.saleTrade] /\ pth_owner t' = key s
       /\ preTokenBalance t'
          = tokenBalanceOf Sample.lib preTB (key s) Sample.mintOne
       /\ postTokenBalance t'
          = tokenBalanceOf Sample.lib postTB (key s) Sample.mintOne
       /\ pth_type t'
          = (if Num.ltb (tokenBalanceOf Sample.lib postTB (key s)
                                        Sample.mintOne)
                        (tokenBalanceOf Sample.lib preTB (key s)
                                        Sample.mintOne)
             then "sell" else "buy")
       /\ priorityFeeOf Sample.lib
            (Sample.sale [Sample.setLimit; Sample.setPrice]) Sample.saleMeta
          = Ok priorityFee
       /\ preSolBalance t'
          = Num.div (numAt (preBalances Sample.saleMeta) (index s))
                    (LAMPORTS_PER_SOL Sample.lib)
       /\ postSolBalance t'
          = Num.div
              (Num.add (Num.add (numAt (postBalances Sample.saleMeta)
                                       (index s))
                                (Num.or0 (fee Sample.saleMeta)))
                       priorityFee)
              (LAMPORTS_PER_SOL Sample.lib)
       /\ quotient t'
          = Num.div
              (Num.abs (Num.sub
                          (tokenBalanceOf Sample.lib preTB (key s)
                                          Sample.mintOne)
                          (tokenBalanceOf Sample.lib postTB (key s)
                                          Sample.mintOne)))
              (Num.abs (Num.sub (preSolBalance t') (postSolBalance t')))
       /\ price t'
          = (if Num.is_zero (denominator t')
                || negb (Num.finite_nonneg (quotient t'))
             then Num.zero else quotient t')
       /\ Num.finite_nonneg (price t') = true.
Proof.
  assert (H : computeTokenPrice Sample.lib
                (Sample.sale [Sample.setLimit; Sample.setPrice]) Sample.mintOne
              = Ok (Some [Sample.saleTrade]))
    by (vm_compute; reflexivity).
  destruct (price_and_direction _ _ _ _ H) as (Heach & Hsigner & _).
  cbn zeta. split.
  - exact (Heach Sample.saleTrade (or_introl eq_refl)).
  - apply (Hsigner Sample.saleMeta
             [Sample.balance Sample.traderOne "5000000"]
             [Sample.balance Sample.traderOne "3000000"]
             {| key := Sample.traderOne; index := 0 |});
      first [reflexivity | left; reflexivity].
Defined.

(** ** Balance lookup *)

Lemma isBalanceOf_spec (k mint : string) (b : TokenBalance) :
  isBalanceOf k mint b = true <-> tb_owner b = Some k /\ tb_mint b = mint.
Proof.
  unfold isBalanceOf, ownerIs. rewrite andb_true_iff, String.eqb_eq.
  destruct (tb_owner b) as [o |].
  - rewrite String.eqb_eq. split; intros [H1 H2]; split; congruence.
  - split; intros [H1 H2]; discriminate.
Qed.

Lemma find_none_of {A} (p : A -> bool) (l : list A) :
  Forall (fun a => p a = false) l -> find p l = None.
Proof.
  induction 1 as [| a l Ha _ IH]; cbn; [reflexivity |]. now rewrite Ha.
Qed.

Lemma find_first {A} (p : A -> bool) (l1 l2 : list A) (a : A) :
  Forall (fun x => p x = false) l1 -> p a = true ->
  find p (l1 ++ a :: l2) = Some a.
Proof.
  induction 1 as [| x l1 Hx _ IH]; cbn; intros Ha.
  - now rewrite Ha.
  - rewrite Hx. auto.
Qed.

Lemma zero_div_e6 (s : bool) : Num.div (S754_zero s) Num.e6 = S754_zero s.
Proof. destruct s; reflexivity. Qed.

Lemma tokenBalanceOf_absent (lib : Lib) (bals : list TokenBalance)
      (k mint : string) :
  Forall (fun b => isBalanceOf k mint b = false) bals ->
  tokenBalanceOf lib bals k mint = Num.zero.
Proof.
  intros H. unfold tokenBalanceOf. rewrite (find_none_of _ _ H).
  apply zero_div_e6.
Qed.

(** C2. The signer's balances are those of the first entry with the
    signer's address as owner and the asset as mint, divided by 10^6, and
    zero when there is no such entry; a signer whose two balances are
    equal, in particular one without any entry, gets no trade. *)
Theorem unchanged_balance_no_trade (lib : Lib)
        (tx : ParsedTransactionWithMeta) (mint : string) (m : Meta)
        (preTB postTB : list TokenBalance) (k : string) :
  meta tx = Some m ->
  preTokenBalances m = Some preTB ->
  postTokenBalances m = Some postTB ->
  let absent bals := Forall (fun b => isBalanceOf k mint b = false) bals in
  let untouched :=
    forall t, In t (emitted (computeTokenPrice lib tx mint)) ->
              pth_owner t <> k in
  (forall b, isBalanceOf k mint b = true
             <-> tb_owner b = Some k /\ tb_mint b = mint)
  /\ (forall bals, absent bals -> tokenBalanceOf lib bals k mint = Num.zero)
  /\ (forall l1 b l2,
        absent l1 -> isBalanceOf k mint b = true -> tb_amount b <> "" ->
        tokenBalanceOf lib (l1 ++ b :: l2) k mint
        = Num.div (StringToNumber lib (tb_amount b)) (Num.of_Z (10 ^ 6)))
  /\ (Num.eqb (tokenBalanceOf lib preTB k mint)
              (tokenBalanceOf lib postTB k mint) = true -> untouched)
  /\ (absent preTB -> absent postTB -> untouched).
Proof.
  intros Hm Hpre Hpost absent untouched.
  assert (Heq : Num.eqb (tokenBalanceOf lib preTB k mint)
                        (tokenBalanceOf lib postTB k mint) = true -> untouched).
  { intros He t Hin Hk.
    destruct (computeTokenPrice lib tx mint) as [[trades |] | e] eqn:Hc;
      cbn in Hin; try contradiction.
    destruct (computeTokenPrice_Some _ _ _ _ Hc)
      as (m' & preTB' & postTB' & Hm' & Hpre' & Hpost' & _ & Hrun).
    assert (m' = m) by congruence; subst m'.
    assert (preTB' = preTB) by congruence; subst preTB'.
    assert (postTB' = postTB) by congruence; subst postTB'.
    destruct (trade_of_signer _ _ _ _ _ _ _ _ _ Hrun Hin) as (s & _ & Hs).
    destruct (signerTrade_Some _ _ _ _ _ _ _ _ Hs) as (_ & _ & Hne & Ho & _).
    rewrite <- Ho, Hk in Hne. congruence. }
  split; [intros b; apply isBalanceOf_spec |].
  split; [intros bals; apply tokenBalanceOf_absent |].
  split.
  - intros l1 b l2 H1 Hb Ha. unfold tokenBalanceOf.
    rewrite (find_first _ _ _ _ H1 Hb).
    destruct (String.eqb_spec (tb_amount b) ""); [contradiction | reflexivity].
  - split; [exact Heq |].
    intros Ha Hb. apply Heq.
    unfold absent in *.
    now rewrite (tokenBalanceOf_absent _ _ _ _ Ha),
                (tokenBalanceOf_absent _ _ _ _ Hb).
Qed.

(** The second signer of the sample sale holds none of the asset before
    or after: no trade names it. *)
Lemma unchanged_balance_no_trade_witness :
  Forall (fun t => pth_owner t <> Sample.traderTwo)
         (emitted (computeTokenPrice Sample.lib
                     (Sample.sale [Sample.setLimit; Sample.setPrice])
                     Sample.mintOne)).
Proof.
  apply Forall_forall.
  refine (proj2 (proj2 (proj2 (proj2
            (unchanged_balance_no_trade Sample.lib
               (Sample.sale [Sample.setLimit; Sample.setPrice])
               Sample.mintOne Sample.saleMeta
               [Sample.balance Sample.traderOne "5000000"]
               [Sample.balance Sample.traderOne "3000000"]
               Sample.traderTwo eq_refl eq_refl eq_refl)))) _ _);
    repeat constructor.
Defined.

(** ** Priority fee *)

Section PriorityFee.

Variable lib : Lib.

Lemma scanInstruction_cases (ml : Z) (ins : Instruction) (ml' : Z) :
  scanInstruction lib ml ins = Ok ml' ->
  (isSetComputeUnitPrice lib ins = true /\ unitPriceOf lib ins = Ok ml')
  \/ (isSetComputeUnitPrice lib ins = false /\ ml' = ml).
Proof.
  unfold scanInstruction, isSetComputeUnitPrice, instructionTypeOf,
    unitPriceOf.
  destruct (bs58_decode lib (ins_data ins)) as [raw | e]; cbn;
    [| discriminate].
  destruct (decodeInstructionType lib _) as [type | e]; cbn;
    [| discriminate].
  destruct (String.eqb type "SetComputeUnitPrice"); intros H.
  - left. split; [reflexivity | exact H].
  - right. split; [reflexivity | congruence].
Qed.

(** The unit price left by the scan is the one of the last
    [SetComputeUnitPrice] instruction, or the initial one. *)
Lemma scan_run (cbs : list Instruction) :
  forall ml0 ml,
    forEachR (scanInstruction lib) cbs ml0 = Ok ml ->
    (exists l1 ins l2,
        cbs = (l1 ++ ins :: l2)%list
        /\ isSetComputeUnitPrice lib ins = true
        /\ unitPriceOf lib ins = Ok ml
        /\ Forall (fun i => isSetComputeUnitPrice lib i = false) l2)
    \/ (Forall (fun i => isSetComputeUnitPrice lib i = false) cbs
        /\ ml = ml0).
Proof.
  induction cbs as [| a cbs IH]; intros ml0 ml H; cbn in H.
  - right. split; [constructor | congruence].
  - destruct (scanInstruction lib ml0 a) as [ml1 | e] eqn:Ha; cbn in H;
      [| discriminate].
    destruct (IH _ _ H) as [(l1 & ins & l2 & -> & Hi & Hp & Hl2) | [Hn ->]].
    + left. exists (a :: l1), ins, l2. repeat split; assumption.
    + destruct (scanInstruction_cases _ _ _ Ha) as [[Hi Hp] | [Hi ->]].
      * left. exists [], a, cbs. repeat split; assumption.
      * right. split; [constructor; assumption | reflexivity].
Qed.

(** Without a unit price a finite compute usage costs nothing. *)
Lemma no_price_no_fee (cu : float) :
  Num.isFinite cu = true ->
  Num.is_zero (Num.floor (Num.div (Num.mul cu (Num.of_Z 0)) Num.e6)) = true.
Proof.
  destruct cu as [s | s | | s mc ec]; try discriminate; intros _;
    destruct s; reflexivity.
Qed.

Lemma computeBudgetInstructions_In (tx : ParsedTransactionWithMeta)
      (ins : Instruction) :
  In ins (computeBudgetInstructions lib tx) <->
  In ins (instructions tx)
  /\ programId ins = ComputeBudgetProgram_programId lib.
Proof.
  unfold computeBudgetInstructions. rewrite filter_In, String.eqb_eq.
  reflexivity.
Qed.

End PriorityFee.

(** C3. For an emitted trade the priority fee is
    [floor(computeUnitsConsumed * microLamports / 1e6)], the unit price
    being decoded from the last [SetComputeUnitPrice] instruction addressed
    to the compute-budget program; it is 0 without such an instruction.
    The native balance before is the raw one over [LAMPORTS_PER_SOL], the
    one after is raw balance plus fee plus priority fee over
    [LAMPORTS_PER_SOL]. *)
Theorem fee_adjusted_native_balances (lib : Lib)
        (tx : ParsedTransactionWithMeta) (mint : string) (m : Meta)
        (trades : list ParsedTokenHistory) (t : ParsedTokenHistory) :
  meta tx = Some m ->
  computeTokenPrice lib tx mint = Ok (Some trades) ->
  In t trades ->
  let cbs := computeBudgetInstructions lib tx in
  let noUnitPrice :=
    Forall (fun i => isSetComputeUnitPrice lib i = false) cbs in
  exists s priorityFee,
    In s (signersFrom 0 (accountKeys tx))
    /\ key s = pth_owner t
    /\ priorityFeeOf lib tx m = Ok priorityFee
    /\ preSolBalance t
       = Num.div (numAt (preBalances m) (index s)) (LAMPORTS_PER_SOL lib)
    /\ postSolBalance t
       = Num.div (Num.add (Num.add (numAt (postBalances m) (index s))
                                   (Num.or0 (fee m)))
                          priorityFee)
                 (LAMPORTS_PER_SOL lib)
    /\ (forall ins, In ins cbs <->
                    In ins (instructions tx)
                    /\ programId ins = ComputeBudgetProgram_programId lib)
    /\ (cbs = [] -> priorityFee = Num.zero)
    /\ (cbs <> [] ->
        exists microLamports,
          priorityFee
          = Num.floor (Num.div (Num.mul (computeUsageOf m)
                                        (Num.of_Z microLamports))
                               (Num.of_Z 1000000))
          /\ ((exists l1 ins l2,
                  cbs = (l1 ++ ins :: l2)%list
                  /\ isSetComputeUnitPrice lib ins = true
                  /\ unitPriceOf lib ins = Ok microLamports
                  /\ Forall (fun i => isSetComputeUnitPrice lib i = false) l2)
              \/ (noUnitPrice /\ microLamports = 0)))
    /\ (noUnitPrice -> Num.isFinite (computeUsageOf m) = true ->
        Num.is_zero priorityFee = true).
Proof.
  intros Hm H Hin cbs noUnitPrice.
  destruct (computeTokenPrice_Some _ _ _ _ H)
    as (m' & preTB & postTB & Hm' & _ & _ & _ & Hrun).
  assert (m' = m) by congruence; subst m'.
  destruct (trade_of_signer _ _ _ _ _ _ _ _ _ Hrun Hin) as (s & Hs & Ht).
  destruct (signerTrade_Some _ _ _ _ _ _ _ _ Ht)
    as (pf & Hpf & _ & Ho & _ & _ & Hpre & Hpost & _).
  exists s, pf.
  split; [exact Hs |]. split; [now symmetry |]. split; [exact Hpf |].
  split; [exact Hpre |]. split; [exact Hpost |].
  split; [intros ins; apply computeBudgetInstructions_In |].
  unfold priorityFeeOf in Hpf. fold cbs in Hpf.
  destruct cbs as [| c cbs'] eqn:Hcbs.
  - inversion Hpf; subst pf.
    split; [reflexivity |]. split; [congruence |]. reflexivity.
  - destruct (forEachR (scanInstruction lib) (c :: cbs') 0) as [ml | e] eqn:Hscan;
      cbn in Hpf; [| discriminate].
    inversion Hpf as [Hpf']. clear Hpf.
    split; [discriminate |].
    pose proof (scan_run lib _ _ _ Hscan) as Hcases.
    split.
    + intros _. exists ml. split; [reflexivity | exact Hcases].
    + intros Hno Hfin.
      destruct Hcases as [(l1 & ins & l2 & E & Hi & _) | [_ ->]].
      * exfalso. unfold noUnitPrice in Hno. rewrite E in Hno.
        apply Forall_app in Hno as [_ Hno]. inversion Hno; congruence.
      * now apply no_price_no_fee.
Qed.

(** In the sample sale 100,000 units at 2,000,000 micro-lamports cost
    200,000 lamports, which with the 5,000 lamport fee are added back. *)
Lemma fee_adjusted_native_balances_witness :
  exists s priorityFee,
    key s = Sample.traderOne
    /\ priorityFee = Num.of_Z 200000
    /\ priorityFee
       = Num.floor (Num.div (Num.mul (Num.of_Z 100000) (Num.of_Z 2000000))
                            (Num.of_Z 1000000))
    /\ postSolBalance Sample.saleTrade
       = Num.div (Num.add (Num.add (numAt (postBalances Sample.saleMeta)
                                          (index s))
                                   (Num.of_Z 5000))
                          priorityFee)
                 (Num.of_Z 1000000000).
Proof.
  assert (H : computeTokenPrice Sample.lib
                (Sample.sale [Sample.setLimit; Sample.setPrice]) Sample.mintOne
              = Ok (Some [Sample.saleTrade]))
    by (vm_compute; reflexivity).
  destruct (fee_adjusted_native_balances Sample.lib
              (Sample.sale [Sample.setLimit; Sample.setPrice]) Sample.mintOne
              Sample.saleMeta [Sample.saleTrade] Sample.saleTrade
              eq_refl H (or_introl eq_refl))
    as (s & pf & _ & Hk & Hpf & _ & Hpost & _).
  exists s, pf. split; [exact Hk |].
  assert (E : pf = Num.of_Z 200000)
    by (vm_compute in Hpf; inversion Hpf; vm_compute; reflexivity).
  split; [exact E |]. split; [rewrite E; vm_compute; reflexivity |].
  exact Hpost.
Defined.

(** ** Batch fetch *)

Section BatchFetch.

Context {W : Type}.
Variable remote : Remote W.
Variable batch : list ConfirmedSignatureInfo.

Let sigs := map signature batch.

Lemma countAttempts_app (evs1 evs2 : list Event) :
  countAttempts (evs1 ++ evs2) = (countAttempts evs1 + countAttempts evs2)%nat.
Proof.
  unfold countAttempts. now rewrite filter_app, length_app.
Qed.

Lemma Rejected_attempts (k : nat) (w w' : W) (evs : list Event) :
  Rejected remote sigs k w w' evs -> countAttempts evs = k.
Proof.
  induction 1 as [| k w w1 w2 e evs _ _ IH]; [reflexivity |].
  rewrite countAttempts_app, IH. reflexivity.
Qed.

(** The loop with [remaining] passes left either sees them all rejected
    and returns what it had, or stops at the first answer and appends its
    non-null entries. *)
Lemma retryLoop_run (remaining : nat) :
  forall (st : St W) (transactions : list ParsedTransactionWithMeta),
  exists k w1 evs,
    (k <= remaining)%nat
    /\ Rejected remote sigs k (world st) w1 evs
    /\ ((k = remaining
         /\ retryLoop remote remaining batch transactions st
            = Some (Ok transactions,
                    {| world := w1; trace := trace st ++ evs |}))
        \/ ((k < remaining)%nat
            /\ exists tx w2,
                getParsedTransactions remote sigs w1 = (Ok tx, w2)
                /\ retryLoop remote remaining batch transactions st
                   = Some (Ok (transactions ++ entriesOf tx)%list,
                           {| world := w2;
                              trace := trace st ++ evs
                                       ++ [EvGetParsedTransactions sigs] |}))).
Proof.
  induction remaining as [| n IH]; intros st transactions.
  - exists 0%nat, (world st), []. split; [lia |]. split; [constructor |].
    left. split; [reflexivity |]. cbn. rewrite app_nil_r.
    destruct st; reflexivity.
  - destruct (getParsedTransactions remote sigs (world st)) as [[tx | e] w']
      eqn:Hcall.
    + exists 0%nat, (world st), []. split; [lia |]. split; [constructor |].
      right. split; [lia |]. exists tx, w'. split; [exact Hcall |].
      cbn. unfold bind, tryCatch, call. fold sigs. rewrite Hcall. cbn.
      destruct tx; cbn; rewrite ?app_nil_r; reflexivity.
    + set (st1 := {| world := w';
                     trace := trace st ++ rejectedAttempt sigs e |}).
      destruct (IH st1 transactions) as (k & w1 & evs & Hk & Hrej & Hrun).
      assert (Hstep : retryLoop remote (S n) batch transactions st
                      = retryLoop remote n batch transactions st1).
      { cbn. unfold bind at 1, tryCatch, bind at 1, call. fold sigs.
        rewrite Hcall. cbn. unfold st1, rejectedAttempt.
        now rewrite <- !app_assoc. }
      exists (S k), w1, (rejectedAttempt sigs e ++ evs).
      split; [lia |]. split; [econstructor; eassumption |].
      rewrite Hstep. cbn [trace st1] in Hrun.
      destruct Hrun as [[-> Hrun] | (Hlt & tx & w2 & Htx & Hrun)].
      * left. split; [reflexivity |]. rewrite Hrun.
        unfold st1; cbn. now rewrite <- !app_assoc.
      * right. split; [lia |]. exists tx, w2. split; [exact Htx |].
        rewrite Hrun. unfold st1; cbn. now rewrite <- !app_assoc.
Qed.

Lemma length_nonNull {A} (l : list (option A)) :
  (List.length (nonNull l) <= List.length l)%nat.
Proof.
  induction l as [| [a |] l IH]; cbn; lia.
Qed.

End BatchFetch.

(** C4. A batch fetch calls the provider at most five times, each rejected
    call being followed by the logged error and the 1000 ms pause; it
    never raises; five rejections give the empty sequence; an answer gives
    its non-null entries; and when the provider answers with at most one
    entry per signature, the result is no longer than the batch. *)
Theorem batch_fetch_bounded_retry {W : Type} (remote : Remote W)
        (batch : list ConfirmedSignatureInfo) (st : St W) :
  let sigs := map signature batch in
  exists k w1 evs txs st' new,
    getTransactionsWithRetries remote batch st = Some (Ok txs, st')
    /\ trace st' = (trace st ++ new)%list
    /\ (1 <= countAttempts new <= 5)%nat
    /\ Rejected remote sigs k (world st) w1 evs
    /\ ((k = 5%nat /\ txs = [] /\ world st' = w1 /\ new = evs)
        \/ ((k < 5)%nat
            /\ new = (evs ++ [EvGetParsedTransactions sigs])%list
            /\ exists tx,
                getParsedTransactions remote sigs w1 = (Ok tx, world st')
                /\ txs = entriesOf tx))
    /\ ((forall w tx w',
            getParsedTransactions remote sigs w = (Ok (Some tx), w') ->
            (List.length tx <= List.length sigs)%nat) ->
        (List.length txs <= List.length batch)%nat).
Proof.
  intros sigs.
  destruct (retryLoop_run remote batch 5 st [])
    as (k & w1 & evs & Hk & Hrej & Hrun).
  pose proof (Rejected_attempts _ _ _ _ _ _ Hrej) as Hcount.
  unfold getTransactionsWithRetries.
  destruct Hrun as [[-> Hrun] | (Hlt & tx & w2 & Htx & Hrun)].
  - exists 5%nat, w1, evs, [], {| world := w1; trace := trace st ++ evs |}, evs.
    split; [exact Hrun |]. split; [reflexivity |].
    split; [rewrite Hcount; lia |]. split; [exact Hrej |].
    split; [left; repeat split |].
    intros _. cbn. lia.
  - exists k, w1, evs, (entriesOf tx),
      {| world := w2;
         trace := trace st ++ evs ++ [EvGetParsedTransactions sigs] |},
      (evs ++ [EvGetParsedTransactions sigs])%list.
    split; [exact Hrun |]. split; [reflexivity |].
    split; [rewrite countAttempts_app, Hcount; cbn; lia |].
    split; [exact Hrej |]. split.
    + right. split; [exact Hlt |]. split; [reflexivity |].
      exists tx. split; [exact Htx | reflexivity].
    + intros Hlen. destruct tx as [l |]; cbn; [| lia].
      specialize (Hlen _ _ _ Htx). unfold sigs in Hlen.
      rewrite length_map in Hlen.
      pose proof (length_nonNull l). lia.
Qed.

(** ** History walker *)

Lemma StronglySorted_app {A} (R : A -> A -> Prop) (l1 l2 : list A) :
  StronglySorted R l1 -> StronglySorted R l2 ->
  (forall a b, In a l1 -> In b l2 -> R a b) ->
  StronglySorted R (l1 ++ l2).
Proof.
  induction l1 as [| x l1 IH]; intros H1 H2 H12; cbn; [assumption |].
  inversion H1 as [| ? ? Hs Hx]; subst. constructor.
  - apply IH; auto. intros a b Ha Hb. apply H12; [now right | assumption].
  - apply Forall_app. split; [assumption |].
    apply Forall_forall. intros b Hb. apply H12; [now left | assumption].
Qed.

Lemma firstn_In {A} (n : nat) (l : list A) (x : A) :
  In x (firstn n l) -> In x l.
Proof.
  revert l; induction n as [| n IH]; intros [| y l]; cbn; try tauto.
  intros [H | H]; [now left | right; now apply IH].
Qed.

Lemma StronglySorted_firstn {A} (R : A -> A -> Prop) (n : nat) (l : list A) :
  StronglySorted R l -> StronglySorted R (firstn n l).
Proof.
  revert l; induction n as [| n IH]; intros l H; [constructor |].
  destruct l as [| x l]; [constructor |].
  inversion H as [| ? ? Hs Hx]; subst. cbn. constructor; [now apply IH |].
  apply Forall_forall. intros y Hy. rewrite Forall_forall in Hx.
  apply Hx. eapply firstn_In; eassumption.
Qed.

Lemma StronglySorted_filter_keep {A} (R : A -> A -> Prop) (f : A -> bool)
      (l : list A) :
  StronglySorted R l -> StronglySorted R (filter f l).
Proof.
  induction 1 as [| x l Hs IH Hx]; cbn; [constructor |].
  destruct (f x); [| assumption]. constructor; [assumption |].
  apply Forall_forall. intros y Hy. rewrite Forall_forall in Hx.
  apply Hx. now apply filter_In in Hy.
Qed.

Lemma Forall_firstn_keep {A} (P : A -> Prop) (n : nat) (l : list A) :
  Forall P l -> Forall P (firstn n l).
Proof.
  rewrite !Forall_forall. intros H x Hx. apply H.
  eapply firstn_In; eassumption.
Qed.

Lemma Forall_filter_keep {A} (P : A -> Prop) (f : A -> bool) (l : list A) :
  Forall P l -> Forall P (filter f l).
Proof.
  rewrite !Forall_forall. intros H x Hx. apply H. now apply filter_In in Hx.
Qed.

Lemma lastSignatureOf_In (current : list ConfirmedSignatureInfo) (s : string) :
  lastSignatureOf current = Some s ->
  exists r, In r current /\ signature r = s.
Proof.
  unfold lastSignatureOf.
  destruct (nth_error current (List.length current - 1)) as [r |] eqn:H;
    cbn; [| discriminate].
  intros E; inversion E; subst. exists r. split; [| reflexivity].
  eapply nth_error_In; eassumption.
Qed.

Lemma lastSignatureOf_cons (r : ConfirmedSignatureInfo)
      (current : list ConfirmedSignatureInfo) :
  exists s, lastSignatureOf (r :: current) = Some s.
Proof.
  unfold lastSignatureOf.
  destruct (nth_error (r :: current) (List.length (r :: current) - 1))
    as [x |] eqn:H.
  - eexists; reflexivity.
  - apply nth_error_None in H. cbn in H. lia.
Qed.

(** The last record of a page sorted newest first is its oldest. *)
Lemma last_is_oldest (pos : string -> nat)
      (l : list ConfirmedSignatureInfo) (s : string) :
  StronglySorted (Newer pos) l ->
  lastSignatureOf l = Some s ->
  Forall (fun r => (pos s <= pos (signature r))%nat) l.
Proof.
  intros Hs Hl. unfold lastSignatureOf in Hl.
  destruct (nth_error l (List.length l - 1)) as [x |] eqn:Hx; cbn in Hl;
    [| discriminate].
  inversion Hl; subst s; clear Hl.
  revert Hx. induction Hs as [| a l Hs IH Ha]; intros Hx; [constructor |].
  destruct l as [| b l].
  - cbn in Hx. inversion Hx; subst. constructor; [lia | constructor].
  - assert (Hx' : nth_error (b :: l) (List.length (b :: l) - 1) = Some x).
    { cbn in Hx |- *. now rewrite Nat.sub_0_r in *. }
    specialize (IH Hx'). constructor; [| assumption].
    rewrite Forall_forall in Ha. inversion IH as [| ? ? Hb _]; subst.
    assert (Hin : In x (b :: l)) by (eapply nth_error_In; eassumption).
    specialize (Ha x Hin). unfold Newer in Ha. lia.
Qed.

Lemma sorted_signatures_NoDup (pos : string -> nat)
      (l : list ConfirmedSignatureInfo) :
  StronglySorted (Newer pos) l -> NoDup (map signature l).
Proof.
  induction 1 as [| a l Hs IH Ha]; cbn; constructor; [| assumption].
  intros Hin. apply in_map_iff in Hin as (b & Hb & Hin).
  rewrite Forall_forall in Ha. specialize (Ha b Hin).
  unfold Newer in Ha. rewrite Hb in Ha. lia.
Qed.

Lemma lastSignatureOf_app (prefix current : list ConfirmedSignatureInfo) :
  current <> [] ->
  lastSignatureOf (prefix ++ current) = lastSignatureOf current.
Proof.
  intros Hne. unfold lastSignatureOf. f_equal.
  destruct current as [| c cs]; [contradiction |].
  rewrite length_app. cbn [List.length].
  rewrite nth_error_app2 by lia. f_equal. lia.
Qed.

Section Walker.

Context {W : Type}.
Variable remote : Remote W.
Variable venue : PublicKey.

(** The place of each signature in the history of the venue, and what is
    known of the provider's state throughout. *)
Variable pos : string -> nat.
Variable Inv : W -> Prop.

Hypothesis Inv_kept :
  forall until before w r w',
    Inv w ->
    getSignaturesForAddress remote venue until before w = (r, w') -> Inv w'.

(** Each page comes newest first. *)
Hypothesis newest_first :
  forall until before w page w',
    Inv w ->
    getSignaturesForAddress remote venue until before w = (Ok page, w') ->
    StronglySorted (Newer pos) page.

(** A page holds only records older than [before]... *)
Hypothesis honors_before :
  forall until b w page w',
    Inv w ->
    getSignaturesForAddress remote venue until (Some b) w = (Ok page, w') ->
    Forall (fun r => (pos (signature r) < pos b)%nat) page.

(** ...and newer than [until]. *)
Hypothesis honors_until :
  forall u before w page w',
    Inv w ->
    getSignaturesForAddress remote venue (Some u) before w = (Ok page, w') ->
    Forall (fun r => (pos u < pos (signature r))%nat) page.

Lemma page_after_bound (until before : option string) (w w' : W)
      (page : list ConfirmedSignatureInfo) :
  Inv w ->
  getSignaturesForAddress remote venue until before w = (Ok page, w') ->
  Forall (NewerThanBound pos until) page.
Proof.
  intros Hi Hc. destruct until as [u |]; cbn.
  - eapply honors_until; eassumption.
  - apply Forall_forall. intros; exact I.
Qed.

(** With enough fuel the loop ends, and what it returns is sorted newest
    first and lies after the bound. *)
Lemma walkPages_run (until : option string) (fuel : nat) :
  forall (current allSignatures : list ConfirmedSignatureInfo) (st : St W),
    Inv (world st) ->
    (pagesLeft pos current <= fuel)%nat ->
    (exists prefix, allSignatures = prefix ++ current) ->
    StronglySorted (Newer pos) allSignatures ->
    Forall (NewerThanBound pos until) allSignatures ->
    exists r st',
      walkPages remote fuel venue until current allSignatures st
      = Some (r, st')
      /\ forall out,
          r = Ok out ->
          StronglySorted (Newer pos) out
          /\ Forall (NewerThanBound pos until) out.
Proof.
  induction fuel as [| fuel IH];
    intros current allSignatures st Hi Hfuel [prefix Hpre] Hs Hb.
  - destruct current as [| c cs].
    + exists (Ok allSignatures), st. split; [reflexivity |].
      intros out E; inversion E; subst; auto.
    + exfalso. unfold pagesLeft in Hfuel.
      destruct (lastSignatureOf_cons c cs) as [s Hl]. rewrite Hl in Hfuel. lia.
  - destruct current as [| c cs].
    + exists (Ok allSignatures), st. split; [reflexivity |].
      intros out E; inversion E; subst; auto.
    + destruct (lastSignatureOf_cons c cs) as [s Hl].
      unfold pagesLeft in Hfuel. rewrite Hl in Hfuel.
      cbn [walkPages]. rewrite Hl. unfold bind at 1, call.
      destruct (getSignaturesForAddress remote venue until (Some s) (world st))
        as [[page | e] w'] eqn:Hcall.
      2:{ eexists _, _. split; [reflexivity |]. intros out E; discriminate. }
      unfold bind at 1, sleep, emit. cbn [world trace].
      apply IH.
      * cbn. eapply Inv_kept; eassumption.
      * pose proof (honors_before _ _ _ _ _ Hi Hcall) as Hlt.
        unfold pagesLeft.
        destruct (lastSignatureOf page) as [s' |] eqn:Hl'; [| lia].
        apply lastSignatureOf_In in Hl' as (r & Hr & <-).
        rewrite Forall_forall in Hlt. specialize (Hlt r Hr). lia.
      * now exists allSignatures.
      * apply StronglySorted_app; [assumption | |].
        -- eapply newest_first; eassumption.
        -- intros a b Ha Hb'.
           assert (Hlast : lastSignatureOf allSignatures = Some s).
           { rewrite Hpre, lastSignatureOf_app by discriminate. exact Hl. }
           pose proof (last_is_oldest pos _ _ Hs Hlast) as Hold.
           pose proof (honors_before _ _ _ _ _ Hi Hcall) as Hlt.
           rewrite Forall_forall in Hold, Hlt.
           specialize (Hold a Ha). specialize (Hlt b Hb').
           unfold Newer. lia.
      * apply Forall_app. split; [assumption |].
        eapply page_after_bound; eassumption.
Qed.

Lemma untilOf_Some (lastSignature : option string) (c : string) :
  lastSignature = Some c -> c <> "" -> untilOf lastSignature = Some c.
Proof.
  intros -> Hc. cbn. destruct (String.eqb_spec c ""); [contradiction |].
  reflexivity.
Qed.

(** C5. When the provider keeps its pages newest first and within the
    [before] and [until] bounds, the walk ends, and the records forwarded
    to the batch stage are strictly ordered newest to oldest, without
    duplicates, all newer than the cursor, all successful, and at most
    5000. *)
Theorem walker_forwards_ordered_history (lastSignature : option string)
        (st : St W) :
  Inv (world st) ->
  exists fuel0,
  forall fuel, (fuel0 <= fuel)%nat ->
  exists r st',
    getAllTransactionsUntilLastSignature remote fuel venue lastSignature st
    = Some (r, st')
    /\ forall allSignatures,
        r = Ok allSignatures ->
        let sent := forwarded allSignatures in
        StronglySorted (Newer pos) sent
        /\ NoDup (map signature sent)
        /\ (forall c, lastSignature = Some c -> c <> "" ->
                      Forall (fun r => (pos c < pos (signature r))%nat) sent)
        /\ Forall (fun r => err r = None) sent
        /\ (List.length sent <= 5000)%nat.
Proof.
  intros Hi.
  unfold getAllTransactionsUntilLastSignature, bind, call.
  set (until := untilOf lastSignature).
  destruct (getSignaturesForAddress remote venue until None (world st))
    as [[page | e] w'] eqn:Hcall.
  2:{ exists 0%nat. intros fuel _. eexists _, _. split; [reflexivity |].
      intros out E; discriminate. }
  exists (pagesLeft pos page). intros fuel Hfuel.
  destruct (walkPages_run until fuel page page
              {| world := w';
                 trace := trace st
                          ++ [EvGetSignaturesForAddress venue until None] |})
    as (r & st' & Hrun & Hout).
  - cbn. eapply Inv_kept; eassumption.
  - exact Hfuel.
  - now exists [].
  - eapply newest_first; eassumption.
  - eapply page_after_bound; eassumption.
  - exists r, st'. split; [exact Hrun |].
    intros allSignatures E. destruct (Hout _ E) as [Hs Hb].
    assert (Hsent : StronglySorted (Newer pos) (forwarded allSignatures)).
    { unfold forwarded.
      now apply StronglySorted_filter_keep, StronglySorted_firstn. }
    cbn zeta. split; [exact Hsent |].
    split; [now apply sorted_signatures_NoDup with (pos := pos) |].
    split; [| split].
    + intros c Hc Hne.
      assert (Hu : until = Some c) by now apply untilOf_Some.
      rewrite Hu in Hb. cbn in Hb.
      unfold forwarded. now apply Forall_filter_keep, Forall_firstn_keep.
    + unfold forwarded. apply Forall_forall. intros x Hx.
      apply filter_In in Hx as [_ Hx]. unfold succeeded in Hx.
      destruct (err x); [discriminate | reflexivity].
    + unfold forwarded.
      etransitivity; [apply filter_length_le |]. apply firstn_le_length.
Qed.

End Walker.

(** ** The sample provider keeps its contract *)

Lemma sample_fetch_length (sigs : list string) (w w' : Sample.World)
      (tx : list (option ParsedTransactionWithMeta)) :
  getParsedTransactions Sample.remote sigs w = (Ok (Some tx), w') ->
  (List.length tx <= List.length sigs)%nat.
Proof.
  cbn. unfold Sample.fetchBodies. destruct (Sample.w_failures w);
    intros H; inversion H; subst. now rewrite length_map.
Qed.

Lemma sample_history_sorted :
  StronglySorted (Newer Sample.rank) Sample.history.
Proof.
  repeat constructor; unfold Newer; cbn; lia.
Qed.

Lemma sample_page_in (w : Sample.World) (until before : option string)
      (r : ConfirmedSignatureInfo) :
  In r (Sample.page w until before) ->
  Sample.between (Sample.w_ledger w) until before r = true.
Proof.
  unfold Sample.page. intros H. apply firstn_In in H.
  now apply filter_In in H.
Qed.

Lemma sample_newest_first (until before : option string)
      (w w' : Sample.World) (page : list ConfirmedSignatureInfo) :
  Sample.w_ledger w = Sample.history ->
  getSignaturesForAddress Sample.remote "venue" until before w = (Ok page, w') ->
  StronglySorted (Newer Sample.rank) page.
Proof.
  cbn. intros Hl H; inversion H; subst. unfold Sample.page. rewrite Hl.
  apply StronglySorted_firstn, StronglySorted_filter_keep,
    sample_history_sorted.
Qed.

Lemma sample_honors_before (until : option string) (b : string)
      (w w' : Sample.World) (page : list ConfirmedSignatureInfo) :
  Sample.w_ledger w = Sample.history ->
  getSignaturesForAddress Sample.remote "venue" until (Some b) w
  = (Ok page, w') ->
  Forall (fun r => (Sample.rank (signature r) < Sample.rank b)%nat) page.
Proof.
  cbn. intros Hl H; inversion H; subst. apply Forall_forall. intros r Hr.
  apply sample_page_in in Hr. rewrite Hl in Hr. unfold Sample.between in Hr.
  apply andb_true_iff in Hr as [Hr _]. now apply Nat.ltb_lt in Hr.
Qed.

Lemma sample_honors_until (u : string) (before : option string)
      (w w' : Sample.World) (page : list ConfirmedSignatureInfo) :
  Sample.w_ledger w = Sample.history ->
  getSignaturesForAddress Sample.remote "venue" (Some u) before w
  = (Ok page, w') ->
  Forall (fun r => (Sample.rank u < Sample.rank (signature r))%nat) page.
Proof.
  cbn. intros Hl H; inversion H; subst. apply Forall_forall. intros r Hr.
  apply sample_page_in in Hr. rewrite Hl in Hr. unfold Sample.between in Hr.
  apply andb_true_iff in Hr as [_ Hr]. now apply Nat.ltb_lt in Hr.
Qed.

Lemma sample_ledger_kept (until before : option string)
      (w w' : Sample.World) (r : Result (list ConfirmedSignatureInfo)) :
  Sample.w_ledger w = Sample.history ->
  getSignaturesForAddress Sample.remote "venue" until before w = (r, w') ->
  Sample.w_ledger w' = Sample.history.
Proof.
  cbn. intros Hl H; inversion H; subst. exact Hl.
Qed.

(** Two rejections, then an answer with two bodies for four signatures. *)
Lemma batch_fetch_bounded_retry_witness :
  exists txs st',
    getTransactionsWithRetries Sample.remote Sample.batch
      (Sample.start (Sample.withFailures 2 Sample.calm))
    = Some (Ok txs, st')
    /\ (List.length txs <= List.length Sample.batch)%nat.
Proof.
  destruct (batch_fetch_bounded_retry Sample.remote Sample.batch
              (Sample.start (Sample.withFailures 2 Sample.calm)))
    as (k & w1 & evs & txs & st' & new & Hrun & _ & _ & _ & _ & Hlen).
  exists txs, st'. split; [exact Hrun |].
  apply Hlen. intros w tx w'. apply sample_fetch_length.
Defined.

(** The walk over the sample venue from the cursor [s1]. *)
Lemma walker_forwards_ordered_history_witness :
  exists fuel0,
  forall fuel, (fuel0 <= fuel)%nat ->
  exists r st',
    getAllTransactionsUntilLastSignature Sample.remote fuel "venue"
      (Some "s1") (Sample.start Sample.calm)
    = Some (r, st')
    /\ forall allSignatures,
        r = Ok allSignatures ->
        let sent := forwarded allSignatures in
        StronglySorted (Newer Sample.rank) sent
        /\ NoDup (map signature sent)
        /\ (forall c, Some "s1" = Some c -> c <> "" ->
                      Forall (fun r => (Sample.rank c
                                        < Sample.rank (signature r))%nat) sent)
        /\ Forall (fun r => err r = None) sent
        /\ (List.length sent <= 5000)%nat.
Proof.
  exact (walker_forwards_ordered_history Sample.remote "venue" Sample.rank
           (fun w => Sample.w_ledger w = Sample.history)
           (fun until before w r w' => sample_ledger_kept until before w w' r)
           (fun until before w page w' =>
              sample_newest_first until before w w' page)
           (fun until b w page w' => sample_honors_before until b w w' page)
           (fun u before w page w' => sample_honors_until u before w w' page)
           (Some "s1") (Sample.start Sample.calm) eq_refl).
Defined.

(** ** Venue resolution *)

(** What [getPoolInfo] does with each answer of the registry. *)
Lemma getPoolInfo_run {W : Type} (lib : Lib) (remote : Remote W)
      (mint : string) (st : St W)
      (r : Result (option (list PoolItem))) (w' : W) :
  fetchPoolByMints remote mint (NATIVE_MINT lib) (world st) = (r, w') ->
  getPoolInfo lib remote mint st
  = Some (match r with
          | Throw e => Throw e
          | Ok (Some (p :: _)) => newPublicKey lib (pool_id p)
          | Ok _ => fallbackVenue lib mint
          end,
          after st w' (EvFetchPoolByMints mint (NATIVE_MINT lib))).
Proof.
  intros H. unfold getPoolInfo, bind at 1, call. rewrite H.
  destruct r as [[[| p rest] |] | e]; try reflexivity;
    unfold fallbackVenue, bind, liftR, ret;
    destruct (newPublicKey lib mint) as [mintKey | e1]; try reflexivity;
    cbn;
    destruct (newPublicKey lib PUMPFUN_PROGRAM) as [program | e2];
    try reflexivity; cbn;
    destruct (findProgramAddressSync lib _ program) as [found | e3];
    reflexivity.
Qed.

(** C6. When the registry lists a pairing of the asset with the native
    mint, resolution returns the address of the first pool listed;
    otherwise it returns the address derived from the tag, the bytes of the
    asset and the pump.fun program; and two calls that get the same answer
    from the registry return the same address. *)
Theorem venue_resolution {W : Type} (lib : Lib) (remote : Remote W)
        (mint : string) (st : St W)
        (answer : option (list PoolItem)) (w' : W) :
  fetchPoolByMints remote mint (NATIVE_MINT lib) (world st) = (Ok answer, w') ->
  let st' := after st w' (EvFetchPoolByMints mint (NATIVE_MINT lib)) in
  (forall p rest,
      answer = Some (p :: rest) ->
      getPoolInfo lib remote mint st
      = Some (newPublicKey lib (pool_id p), st'))
  /\ (answer = None \/ answer = Some [] ->
      getPoolInfo lib remote mint st = Some (fallbackVenue lib mint, st'))
  /\ (forall (st2 : St W) (w2 : W),
        fetchPoolByMints remote mint (NATIVE_MINT lib) (world st2)
        = (Ok answer, w2) ->
        outcomeOf (getPoolInfo lib remote mint st2)
        = outcomeOf (getPoolInfo lib remote mint st)).
Proof.
  intros H st'. pose proof (getPoolInfo_run lib remote mint st _ _ H) as Hrun.
  split; [| split].
  - intros p rest ->. exact Hrun.
  - intros [-> | ->]; exact Hrun.
  - intros st2 w2 H2.
    rewrite (getPoolInfo_run lib remote mint st2 _ _ H2), Hrun. reflexivity.
Qed.

(** With two pools listed for the sample mint the first one is returned. *)
Lemma venue_resolution_witness :
  getPoolInfo Sample.lib Sample.remote Sample.mintOne
    (Sample.start Sample.listed)
  = Some (Ok Sample.poolOne,
          after (Sample.start Sample.listed) Sample.listed
                (EvFetchPoolByMints Sample.mintOne (NATIVE_MINT Sample.lib))).
Proof.
  exact (proj1 (venue_resolution Sample.lib Sample.remote Sample.mintOne
                  (Sample.start Sample.listed)
                  (Some [ {| pool_id := Sample.poolOne |};
                          {| pool_id := Sample.mintTwo |} ])
                  Sample.listed eq_refl)
               {| pool_id := Sample.poolOne |}
               [ {| pool_id := Sample.mintTwo |} ] eq_refl).
Defined.

(** C7, as the code has it. An error raised by the registry lookup is not
    caught: it reaches the caller of [getPoolInfo].  Only an answer without
    a listing, [null] or empty, leads to the derived address. *)
Theorem registry_error_propagates {W : Type} (lib : Lib) (remote : Remote W)
        (mint : string) (st : St W)
        (r : Result (option (list PoolItem))) (w' : W) :
  fetchPoolByMints remote mint (NATIVE_MINT lib) (world st) = (r, w') ->
  let st' := after st w' (EvFetchPoolByMints mint (NATIVE_MINT lib)) in
  (forall e, r = Throw e ->
             getPoolInfo lib remote mint st = Some (Throw e, st'))
  /\ (r = Ok None \/ r = Ok (Some []) ->
      getPoolInfo lib remote mint st = Some (fallbackVenue lib mint, st')).
Proof.
  intros H st'. pose proof (getPoolInfo_run lib remote mint st _ _ H) as Hrun.
  split.
  - intros e ->. exact Hrun.
  - intros [-> | ->]; exact Hrun.
Qed.

(** With the registry unreachable, resolution ends with the registry's
    error. *)
Lemma registry_error_propagates_witness :
  getPoolInfo Sample.lib Sample.remote Sample.mintOne
    (Sample.start Sample.down)
  = Some (Throw "Network Error",
          after (Sample.start Sample.down) Sample.down
                (EvFetchPoolByMints Sample.mintOne (NATIVE_MINT Sample.lib))).
Proof.
  exact (proj1 (registry_error_propagates Sample.lib Sample.remote
                  Sample.mintOne (Sample.start Sample.down)
                  (Throw "Network Error") Sample.down eq_refl)
               "Network Error" eq_refl).
Defined.

(** C7 as stated fails: the registry rejects the lookup, the derived
    address exists, and yet the caller gets the error, not the address. *)
Lemma registry_error_counterexample :
  fetchPoolByMints Sample.remote Sample.mintOne (NATIVE_MINT Sample.lib)
    Sample.down
  = (Throw "Network Error", Sample.down)
  /\ fallbackVenue Sample.lib Sample.mintOne
     = Ok "9WzDXwBbmkg8ZTbNMqUxvQRAyrZzDsGYdLVL9zYtAWWM"
  /\ outcomeOf (getPoolInfo Sample.lib Sample.remote Sample.mintOne
                  (Sample.start Sample.down))
     = Some (Throw "Network Error").
Proof.
  repeat split; vm_compute; reflexivity.
Qed.

(** ** The batch loop and the sync loop *)

Lemma priceAll_Throw (lib : Lib) (mint : string)
      (txs : list ParsedTransactionWithMeta) :
  forall acc e,
    priceAll lib txs mint acc = Throw e ->
    exists tx, In tx txs /\ computeTokenPrice lib tx mint = Throw e.
Proof.
  induction txs as [| tx txs IH]; intros acc e H; cbn in H; [discriminate |].
  destruct (computeTokenPrice lib tx mint) as [[l |] | e'] eqn:Hc; cbn in H.
  - destruct (IH _ _ H) as (tx' & Hin & Ht). exists tx'. split; [now right | exact Ht].
  - destruct (IH _ _ H) as (tx' & Hin & Ht). exists tx'. split; [now right | exact Ht].
  - inversion H; subst. exists tx. split; [now left | exact Hc].
Qed.

(** A batch fetch always ends normally. *)
Lemma getTransactionsWithRetries_ends {W : Type} (remote : Remote W)
      (batch : list ConfirmedSignatureInfo) (st : St W) :
  exists txs st',
    getTransactionsWithRetries remote batch st = Some (Ok txs, st').
Proof.
  unfold getTransactionsWithRetries.
  destruct (retryLoop_run remote batch 5 st [])
    as (k & w1 & evs & _ & _ & [[_ H] | (_ & tx & w2 & _ & H)]);
    rewrite H; eexists _, _; reflexivity.
Qed.

Lemma processBatches_step {W : Type} (lib : Lib) (remote : Remote W)
      (mint : string) (batch : list ConfirmedSignatureInfo)
      (batches : list (list ConfirmedSignatureInfo))
      (acc : list ParsedTokenHistory) (st st' : St W)
      (txs : list ParsedTransactionWithMeta) :
  getTransactionsWithRetries remote batch
    {| world := world st; trace := trace st ++ [EvSleep 1000] |}
  = Some (Ok txs, st') ->
  processBatches lib remote (batch :: batches) mint acc st
  = match priceAll lib txs mint [] with
    | Ok r => processBatches lib remote batches mint (acc ++ r) st'
    | Throw e => Some (Throw e, st')
    end.
Proof.
  intros H. cbn [processBatches]. unfold bind at 1, sleep, emit.
  unfold bind at 1, processTransactionBatch, bind at 1. rewrite H.
  unfold liftR. destruct (priceAll lib txs mint []); reflexivity.
Qed.

(** The batch loop ends, and if it ends with an error, the error was
    raised by the price derivation of some transaction. *)
Lemma processBatches_run {W : Type} (lib : Lib) (remote : Remote W)
      (mint : string) (batches : list (list ConfirmedSignatureInfo)) :
  forall (acc : list ParsedTokenHistory) (st : St W),
  exists r st',
    processBatches lib remote batches mint acc st = Some (r, st')
    /\ forall e, r = Throw e ->
                 exists tx, computeTokenPrice lib tx mint = Throw e.
Proof.
  induction batches as [| batch batches IH]; intros acc st.
  - exists (Ok acc), st. split; [reflexivity | discriminate].
  - destruct (getTransactionsWithRetries_ends remote batch
                {| world := world st; trace := trace st ++ [EvSleep 1000] |})
      as (txs & st' & Hfetch).
    rewrite (processBatches_step lib remote mint batch batches acc st st' txs
               Hfetch).
    destruct (priceAll lib txs mint []) as [r | e] eqn:Hp.
    + apply IH.
    + exists (Throw e), st'. split; [reflexivity |].
      intros e' E; inversion E; subst e'.
      destruct (priceAll_Throw _ _ _ _ _ Hp) as (tx & _ & Ht).
      now exists tx.
Qed.

Lemma syncAgents_step {W : Type} (lib : Lib) (remote : Remote W)
      (fuel : nat) (agent : Agent) (agents : list Agent) (st st' : St W)
      (lastSignature : option string) (w' : W) (e : string) :
  getLastSignature remote (agent_id agent) (world st)
  = (Ok lastSignature, w') ->
  getHistoricalTransactionData lib remote fuel (agent_mint agent)
    lastSignature (after st w' (EvGetLastSignature (agent_id agent)))
  = Some (Throw e, st') ->
  syncAgents lib remote fuel (agent :: agents) st = Some (Throw e, st').
Proof.
  intros Hl Hh. cbn [syncAgents]. unfold bind at 1, call. rewrite Hl.
  unfold bind at 1. unfold after in Hh. now rewrite Hh.
Qed.

(** Five rejections in a row are the whole batch fetch: it returns what
    it had. *)
Lemma retryLoop_rejected {W : Type} (remote : Remote W)
      (batch : list ConfirmedSignatureInfo) (k : nat) (w w1 : W)
      (evs : list Event) :
  Rejected remote (map signature batch) k w w1 evs ->
  forall (st : St W) transactions,
    world st = w ->
    retryLoop remote k batch transactions st
    = Some (Ok transactions, {| world := w1; trace := trace st ++ evs |}).
Proof.
  induction 1 as [w | k w w1 w2 e evs Hcall _ IH]; intros st transactions Hw.
  - cbn. rewrite app_nil_r. destruct st; cbn in *. now subst.
  - cbn [retryLoop]. unfold bind at 1, tryCatch, bind at 1, call.
    rewrite Hw, Hcall. cbn.
    match goal with
    | |- retryLoop _ _ _ _ ?st1 = _ =>
        rewrite (IH st1 transactions eq_refl)
    end.
    cbn [trace]. unfold rejectedAttempt. now rewrite <- !app_assoc.
Qed.

(** A batch fetch leaves a request for the batch in the trace. *)
Lemma getTransactionsWithRetries_asks {W : Type} (remote : Remote W)
      (batch : list ConfirmedSignatureInfo) (st : St W) :
  exists txs st' new,
    getTransactionsWithRetries remote batch st = Some (Ok txs, st')
    /\ trace st' = trace st ++ new
    /\ In (EvGetParsedTransactions (map signature batch)) new.
Proof.
  unfold getTransactionsWithRetries.
  destruct (retryLoop_run remote batch 5 st [])
    as (k & w1 & evs & Hk & Hrej & [[-> Hrun] | (Hlt & tx & w2 & _ & Hrun)]);
    rewrite Hrun.
  - eexists _, _, evs. split; [reflexivity |]. split; [reflexivity |].
    inversion Hrej; subst. now left.
  - eexists _, _, (evs ++ [EvGetParsedTransactions (map signature batch)]).
    split; [reflexivity |]. split; [reflexivity |].
    apply in_or_app. right. now left.
Qed.

(** A batch loop that ends normally has asked for every batch. *)
Lemma processBatches_asks {W : Type} (lib : Lib) (remote : Remote W)
      (mint : string) (batches : list (list ConfirmedSignatureInfo)) :
  forall acc (st : St W) out st',
    processBatches lib remote batches mint acc st = Some (Ok out, st') ->
    exists new,
      trace st' = trace st ++ new
      /\ Forall (fun batch =>
                   In (EvGetParsedTransactions (map signature batch)) new)
                batches.
Proof.
  induction batches as [| batch batches IH]; intros acc st out st' H.
  - exists []. split; [| constructor].
    cbn in H. inversion H; subst. now rewrite app_nil_r.
  - destruct (getTransactionsWithRetries_asks remote batch
                {| world := world st; trace := trace st ++ [EvSleep 1000] |})
      as (txs & st1 & new1 & Hfetch & Ht1 & Hin1).
    rewrite (processBatches_step lib remote mint batch batches acc st st1 txs
               Hfetch) in H.
    cbn [trace] in Ht1.
    destruct (priceAll lib txs mint []) as [r | e]; [| discriminate].
    destruct (IH _ _ _ _ H) as (new2 & Ht2 & Hall).
    exists ([EvSleep 1000] ++ new1 ++ new2). split.
    + rewrite Ht2, Ht1. now rewrite <- !app_assoc.
    + constructor.
      * apply in_or_app. right. apply in_or_app. now left.
      * eapply Forall_impl; [| exact Hall]. cbn beta. intros b Hb.
        apply in_or_app. right. apply in_or_app. now right.
Qed.

(** C8, as the code has it. Rejections by the transaction provider never
    abort the batch loop: a batch fetch always ends normally, after five
    rejected attempts the batch contributes nothing and the loop goes on
    with the next batch, whatever the fetch returned the loop goes on with
    the remaining batches as long as no price derivation raises, and a
    loop that ends normally has asked for every batch.  The loop always
    ends, and ends with an error only when the price derivation of a
    transaction raised it.  Such an error is not caught: it ends the batch
    loop before the remaining batches, and an error of one asset ends the
    sync loop before the remaining assets. *)
Theorem only_fetch_errors_are_contained {W : Type} (lib : Lib)
        (remote : Remote W) (mint : string) :
  (forall batches acc (st : St W),
      exists r st',
        processBatches lib remote batches mint acc st = Some (r, st')
        /\ forall e, r = Throw e ->
                     exists tx, computeTokenPrice lib tx mint = Throw e)
  /\ (forall batch batches acc (st : St W),
         exists txs st',
           getTransactionsWithRetries remote batch
             {| world := world st; trace := trace st ++ [EvSleep 1000] |}
           = Some (Ok txs, st')
           /\ forall r,
               priceAll lib txs mint [] = Ok r ->
               processBatches lib remote (batch :: batches) mint acc st
               = processBatches lib remote batches mint (acc ++ r) st')
  /\ (forall batch batches acc (st : St W) w1 evs,
         Rejected remote (map signature batch) 5 (world st) w1 evs ->
         processBatches lib remote (batch :: batches) mint acc st
         = processBatches lib remote batches mint acc
             {| world := w1; trace := trace st ++ EvSleep 1000 :: evs |})
  /\ (forall batches acc (st st' : St W) out,
         processBatches lib remote batches mint acc st = Some (Ok out, st') ->
         exists new,
           trace st' = trace st ++ new
           /\ Forall (fun batch =>
                        In (EvGetParsedTransactions (map signature batch)) new)
                     batches)
  /\ (forall batch batches acc (st st' : St W) txs e,
         getTransactionsWithRetries remote batch
           {| world := world st; trace := trace st ++ [EvSleep 1000] |}
         = Some (Ok txs, st') ->
         priceAll lib txs mint [] = Throw e ->
         processBatches lib remote (batch :: batches) mint acc st
         = Some (Throw e, st'))
  /\ (forall fuel agent agents (st st' : St W) lastSignature w' e,
         agent_mint agent = mint ->
         getLastSignature remote (agent_id agent) (world st)
         = (Ok lastSignature, w') ->
         getHistoricalTransactionData lib remote fuel mint lastSignature
           (after st w' (EvGetLastSignature (agent_id agent)))
         = Some (Throw e, st') ->
         syncAgents lib remote fuel (agent :: agents) st
         = Some (Throw e, st')).
Proof.
  split; [| split; [| split; [| split; [| split]]]].
  - intros batches acc st. apply processBatches_run.
  - intros batch batches acc st.
    destruct (getTransactionsWithRetries_ends remote batch
                {| world := world st; trace := trace st ++ [EvSleep 1000] |})
      as (txs & st' & Hfetch).
    exists txs, st'. split; [exact Hfetch |]. intros r Hp.
    rewrite (processBatches_step lib remote mint batch batches acc st st' txs
               Hfetch), Hp. reflexivity.
  - intros batch batches acc st w1 evs Hrej.
    pose proof (retryLoop_rejected remote batch 5 _ _ _ Hrej
                  {| world := world st; trace := trace st ++ [EvSleep 1000] |}
                  [] eq_refl) as Hfetch.
    rewrite (processBatches_step lib remote mint batch batches acc st _ []
               Hfetch).
    cbn [priceAll trace]. rewrite app_nil_r, <- app_assoc. reflexivity.
  - intros batches acc st st' out H.
    exact (processBatches_asks lib remote mint batches acc st out st' H).
  - intros batch batches acc st st' txs e Hfetch Hp.
    rewrite (processBatches_step lib remote mint batch batches acc st st' txs
               Hfetch), Hp. reflexivity.
  - intros fuel agent agents st st' lastSignature w' e <- Hl Hh.
    eapply syncAgents_step; eassumption.
Qed.

(** C8 as stated fails.  The body of [s3] carries a compute-budget
    instruction the decoder rejects: the batch holding it ends the batch
    loop although the next batch alone yields a trade, and the sync run
    ends before the second asset is looked at, without a row stored for
    the first. *)
Lemma derivation_error_aborts_counterexample :
  outcomeOf (processBatches Sample.lib Sample.remote
               [[Sample.landed "s3"]; [Sample.landed "s5"]]
               Sample.mintOne [] (Sample.start Sample.poisoned))
  = Some (Throw "Instruction type incorrect; not a ComputeBudgetInstruction")
  /\ option_map (fun r => match r with
                          | Ok l => List.length l
                          | Throw _ => O
                          end)
                (outcomeOf (processBatches Sample.lib Sample.remote
                              [[Sample.landed "s5"]]
                              Sample.mintOne []
                              (Sample.start Sample.poisoned)))
     = Some 1%nat
  /\ outcomeOf (syncAgentTransactionHistory Sample.lib Sample.remote 10
                  (Sample.start Sample.poisoned))
     = Some (Throw "Instruction type incorrect; not a ComputeBudgetInstruction")
  /\ existsb (asksCursorOf 2)
             (traceOf (syncAgentTransactionHistory Sample.lib Sample.remote 10
                         (Sample.start Sample.poisoned)))
     = false
  /\ existsb (asksCursorOf 2)
             (traceOf (syncAgentTransactionHistory Sample.lib Sample.remote 10
                         (Sample.start Sample.calm)))
     = true.
Proof.
  repeat split; vm_compute; reflexivity.
Qed.

(** Seven rejections in a row: the five attempts for the first batch are
    all rejected, the batch contributes nothing, and the loop goes on with
    the second batch in the world the rejections left. *)
Lemma only_fetch_errors_are_contained_witness :
  let evs :=
    List.concat (repeat (rejectedAttempt ["s5"] "429 Too Many Requests") 5) in
  processBatches Sample.lib Sample.remote
    [[Sample.landed "s5"]; [Sample.landed "s3"]] Sample.mintOne []
    (Sample.start (Sample.withFailures 7 Sample.calm))
  = processBatches Sample.lib Sample.remote
      [[Sample.landed "s3"]] Sample.mintOne []
      {| world := Sample.withFailures 2 Sample.calm;
         trace := [] ++ EvSleep 1000 :: evs |}.
Proof.
  cbn zeta.
  apply (proj1 (proj2 (proj2 (only_fetch_errors_are_contained
                                Sample.lib Sample.remote Sample.mintOne)))
           [Sample.landed "s5"] [[Sample.landed "s3"]] []
           (Sample.start (Sample.withFailures 7 Sample.calm))).
  cbn [List.concat repeat map Sample.landed signature world Sample.start].
  do 5 (eapply Rejected_more; [reflexivity |]).
  apply Rejected_none.
Defined.

(** ** The cap on the signature history *)

Lemma filter_split_length {A} (f : A -> bool) (l : list A) :
  (List.length (filter f l) + List.length (filter (fun a => negb (f a)) l)
   = List.length l)%nat.
Proof.
  induction l as [| a l IH]; cbn; [reflexivity |].
  destruct (f a); cbn; lia.
Qed.

Lemma filter_all {A} (f : A -> bool) (l : list A) :
  Forall (fun a => f a = true) l -> filter f l = l.
Proof.
  induction 1 as [| a l Ha _ IH]; cbn; [reflexivity |].
  now rewrite Ha, IH.
Qed.

(** C10. The cap of 5000 is applied to the raw history and the failed
    transactions are dropped afterwards: what is forwarded comes from the
    first 5000 records only, each failed record among them takes one of
    the 5000 places, and so a history that starts with one failed record
    followed by more than 5000 successful ones forwards 4999 records. *)
Theorem cap_precedes_success_filter :
  (forall allSignatures,
      forwarded allSignatures = filter succeeded (firstn 5000 allSignatures)
      /\ (forall r, In r (forwarded allSignatures) ->
                    In r (firstn 5000 allSignatures) /\ err r = None)
      /\ (List.length (forwarded allSignatures)
          + List.length (filter (fun r => negb (succeeded r))
                                (firstn 5000 allSignatures))
          = Nat.min 5000 (List.length allSignatures))%nat)
  /\ (forall bad good,
         succeeded bad = false ->
         Forall (fun r => succeeded r = true) good ->
         (5000 < List.length good)%nat ->
         (5000 < List.length (filter succeeded (bad :: good)))%nat
         /\ List.length (forwarded (bad :: good)) = 4999%nat).
Proof.
  split.
  - intros allSignatures. split; [reflexivity |]. split.
    + intros r Hr. unfold forwarded in Hr. apply filter_In in Hr as [Hin Hs].
      split; [exact Hin |]. unfold succeeded in Hs.
      destruct (err r); [discriminate | reflexivity].
    + unfold forwarded. rewrite filter_split_length. apply length_firstn.
  - intros bad good Hbad Hgood Hlen. split.
    + cbn [filter]. rewrite Hbad, (filter_all _ _ Hgood). exact Hlen.
    + unfold forwarded. change 5000%nat with (S 4999).
      rewrite firstn_cons. cbn [filter]. rewrite Hbad.
      rewrite filter_all by now apply Forall_firstn_keep.
      rewrite length_firstn. lia.
Qed.

(** ** The history of the agent response *)

Section SortFacts.

Context {A : Type}.
Variable le : A -> A -> bool.
Variable R : A -> A -> Prop.

Hypothesis le_R : forall x y, le x y = true -> R x y.
Hypothesis le_total : forall x y, le x y = false -> R y x.
Hypothesis R_trans : forall x y z, R x y -> R y z -> R x z.

Lemma insertBy_Permutation (x : A) (l : list A) :
  Permutation (insertBy le x l) (x :: l).
Proof.
  induction l as [| y l IH]; cbn; [reflexivity |].
  destruct (le x y); [reflexivity |].
  rewrite IH. apply perm_swap.
Qed.

Lemma sortBy_Permutation (l : list A) : Permutation (sortBy le l) l.
Proof.
  induction l as [| x l IH]; cbn; [reflexivity |].
  fold (sortBy le l). rewrite insertBy_Permutation. now constructor.
Qed.

Lemma insertBy_sorted (x : A) (l : list A) :
  StronglySorted R l -> StronglySorted R (insertBy le x l).
Proof.
  induction 1 as [| y l Hs IH Hy]; cbn.
  - constructor; constructor.
  - destruct (le x y) eqn:Hxy.
    + constructor; [now constructor |].
      constructor; [now apply le_R |].
      apply Forall_forall. intros z Hz. rewrite Forall_forall in Hy.
      eapply R_trans; [apply le_R; eassumption | now apply Hy].
    + constructor; [assumption |].
      apply Forall_forall. intros z Hz.
      apply (Permutation_in _ (insertBy_Permutation x l)) in Hz.
      destruct Hz as [<- | Hz]; [now apply le_total |].
      rewrite Forall_forall in Hy. now apply Hy.
Qed.

Lemma sortBy_sorted (l : list A) : StronglySorted R (sortBy le l).
Proof.
  induction l as [| x l IH]; cbn; [constructor |].
  now apply insertBy_sorted.
Qed.

End SortFacts.

(** The array read back through [flattendHistory] is the sorted one. *)
Lemma getAgentResponse_history_sorted (lib : Lib)
      (agentHistory : list PriceHistoryRow) :
  getAgentResponse_history lib agentHistory
  = sortBy (fun a b => time a - time b <=? 0)
           (flatten lib (aggregate agentHistory)).
Proof. reflexivity. Qed.

(** C9, as the code has it. [sort] orders the array in place and returns
    the same array, so the second assignment stores the array already
    sorted: the history returned holds the aggregated entries in ascending
    order of time. *)
Theorem returned_history_is_sorted (lib : Lib)
        (agentHistory : list PriceHistoryRow) :
  let returned := getAgentResponse_history lib agentHistory in
  StronglySorted (fun a b => time a <= time b) returned
  /\ Permutation returned (flatten lib (aggregate agentHistory)).
Proof.
  cbn zeta. rewrite getAgentResponse_history_sorted. split.
  - apply sortBy_sorted.
    + intros x y H. apply Z.leb_le in H. lia.
    + intros x y H. apply Z.leb_gt in H. lia.
    + intros x y z. lia.
  - apply sortBy_Permutation.
Qed.

(** C9 as stated fails: with two block times beyond the array-index range,
    stored latest first, the aggregation lists the later time first and
    the response lists the earlier time first. *)
Lemma returned_history_counterexample :
  map time (flatten Sample.lib (aggregate Sample.lateRows))
  = [4294967297; 4294967296]
  /\ map time (getAgentResponse_history Sample.lib Sample.lateRows)
     = [4294967296; 4294967297].
Proof.
  split; vm_compute; reflexivity.
Qed.

(* ================================================================== *)
(** * Further properties of the pipeline *)

(** ** Batches *)

Section Chunks.

Local Open Scope nat_scope.

Variable size : nat.
Hypothesis size_pos : 0 < size.

Lemma chunksOf_nil (fuel : nat) : chunksOf fuel size [] = [].
Proof. destruct fuel; reflexivity. Qed.

Lemma chunksOf_cons (fuel : nat) (x : ConfirmedSignatureInfo)
      (l : list ConfirmedSignatureInfo) :
  chunksOf (S fuel) size (x :: l)
  = firstn size (x :: l) :: chunksOf fuel size (skipn size (x :: l)).
Proof. reflexivity. Qed.

Lemma skipn_shorter (x : ConfirmedSignatureInfo)
      (l : list ConfirmedSignatureInfo) :
  List.length (skipn size (x :: l)) < List.length (x :: l).
Proof. rewrite length_skipn. cbn [List.length]. lia. Qed.

Lemma chunksOf_concat (fuel : nat) :
  forall l, List.length l <= fuel -> List.concat (chunksOf fuel size l) = l.
Proof.
  induction fuel as [| fuel IH]; intros [| x l] Hl; try reflexivity.
  - cbn in Hl. lia.
  - rewrite chunksOf_cons. cbn [List.concat]. rewrite IH.
    + apply firstn_skipn.
    + pose proof (skipn_shorter x l). lia.
Qed.

Lemma chunksOf_sizes (fuel : nat) :
  forall l,
    Forall (fun b => 1 <= List.length b <= size) (chunksOf fuel size l).
Proof.
  induction fuel as [| fuel IH]; intros [| x l]; try constructor.
  - rewrite length_firstn. cbn [List.length]. lia.
  - apply IH.
Qed.

Lemma chunksOf_count (fuel : nat) :
  forall l,
    List.length l <= fuel ->
    List.length l <= List.length (chunksOf fuel size l) * size
    /\ List.length (chunksOf fuel size l) * size < List.length l + size.
Proof.
  induction fuel as [| fuel IH]; intros [| x l] Hl; cbn in Hl; try lia.
  - cbn. lia.
  - rewrite chunksOf_nil. cbn. lia.
  - rewrite chunksOf_cons. cbn [List.length].
    pose proof (skipn_shorter x l) as Hs. cbn [List.length] in Hs.
    destruct (IH (skipn size (x :: l)) ltac:(lia)) as [H1 H2].
    rewrite length_skipn in H1, H2. cbn [List.length] in *.
    destruct (Nat.le_gt_cases (S (List.length l)) size) as [Hle | Hgt].
    + replace (S (List.length l) - size) with 0 in * by lia.
      destruct (List.length (chunksOf fuel size (skipn size (x :: l))));
        cbn in *; lia.
    + lia.
Qed.

Lemma chunksOf_nth (fuel : nat) :
  forall l i,
    List.length l <= fuel ->
    i * size < List.length l ->
    nth_error (chunksOf fuel size l) i
    = Some (slice l (i * size) (i * size + size)).
Proof.
  unfold slice.
  induction fuel as [| fuel IH]; intros [| x l] i Hl Hi; cbn in Hl, Hi;
    try lia.
  rewrite chunksOf_cons. destruct i as [| i].
  - cbn [nth_error Nat.mul Nat.add]. now rewrite Nat.sub_0_r.
  - cbn [nth_error]. pose proof (skipn_shorter x l) as Hs.
    cbn [List.length] in Hs. rewrite IH.
    + rewrite skipn_skipn. f_equal. f_equal; [lia | f_equal; lia].
    + lia.
    + rewrite length_skipn. cbn [List.length]. lia.
Qed.

End Chunks.

Lemma batches_count_bound (sent : list ConfirmedSignatureInfo) :
  (List.length sent <= List.length (batchesOf sent) * 100)%nat
  /\ (List.length (batchesOf sent) * 100 < List.length sent + 100)%nat.
Proof.
  unfold batchesOf, BATCH_SIZE. apply chunksOf_count; lia.
Qed.

(** X1. The batches of a run split the forwarded records without loss or
    overlap: joined in order they give the records back, batch [i] is
    [slice(100 i, 100 i + 100)], every batch holds between 1 and 100
    records, and there are just enough batches to hold them all. *)
Theorem batches_partition (sent : list ConfirmedSignatureInfo) :
  let batches := batchesOf sent in
  List.concat batches = sent
  /\ (forall i, (i * 100 < List.length sent)%nat ->
                nth_error batches i
                = Some (slice sent (i * 100) (i * 100 + 100)))
  /\ Forall (fun b => (1 <= List.length b <= 100)%nat) batches
  /\ (List.length sent <= List.length batches * 100)%nat
  /\ (List.length batches * 100 < List.length sent + 100)%nat.
Proof.
  unfold batchesOf, BATCH_SIZE. cbn zeta.
  split; [apply chunksOf_concat; lia |].
  split; [intros i Hi; apply chunksOf_nth; lia |].
  split; [apply chunksOf_sizes; lia |].
  apply chunksOf_count; lia.
Qed.

(** ** What a run leaves in the trace *)

Lemma Rejected_market {W : Type} (remote : Remote W) (sigs : list string)
      (k : nat) (w w' : W) (evs : list Event) :
  Rejected remote sigs k w w' evs ->
  Forall (fun ev => isMarketEvent ev = true) evs.
Proof.
  induction 1 as [| k w w1 w2 e evs _ _ IH]; [constructor |].
  unfold rejectedAttempt. cbn [app]. repeat constructor. exact IH.
Qed.

Lemma getTransactionsWithRetries_trace {W : Type} (remote : Remote W)
      (batch : list ConfirmedSignatureInfo) (st : St W) :
  exists txs st' new,
    getTransactionsWithRetries remote batch st = Some (Ok txs, st')
    /\ trace st' = trace st ++ new
    /\ (countAttempts new <= 5)%nat
    /\ Forall (fun ev => isMarketEvent ev = true) new.
Proof.
  unfold getTransactionsWithRetries.
  destruct (retryLoop_run remote batch 5 st [])
    as (k & w1 & evs & Hk & Hrej & Hrun).
  pose proof (Rejected_attempts _ _ _ _ _ _ Hrej) as Hcount.
  pose proof (Rejected_market _ _ _ _ _ _ Hrej) as Hm.
  destruct Hrun as [[-> Hrun] | (Hlt & tx & w2 & _ & Hrun)]; rewrite Hrun.
  - eexists _, _, evs. split; [reflexivity |]. split; [reflexivity |].
    split; [lia | exact Hm].
  - eexists _, _, (evs ++ [EvGetParsedTransactions (map signature batch)]).
    split; [reflexivity |]. split; [reflexivity |]. split.
    + rewrite countAttempts_app, Hcount. cbn. lia.
    + apply Forall_app. split; [exact Hm | repeat constructor].
Qed.

Lemma processBatches_attempts {W : Type} (lib : Lib) (remote : Remote W)
      (mint : string) (batches : list (list ConfirmedSignatureInfo)) :
  forall acc (st : St W) r st',
    processBatches lib remote batches mint acc st = Some (r, st') ->
    exists new,
      trace st' = trace st ++ new
      /\ (countAttempts new <= 5 * List.length batches)%nat
      /\ Forall (fun ev => isMarketEvent ev = true) new.
Proof.
  induction batches as [| batch batches IH]; intros acc st r st' H.
  - cbn in H. inversion H; subst. exists []. split; [now rewrite app_nil_r |].
    split; [cbn; lia | constructor].
  - destruct (getTransactionsWithRetries_trace remote batch
                {| world := world st; trace := trace st ++ [EvSleep 1000] |})
      as (txs & st1 & new1 & Hfetch & Ht1 & Hc1 & Hm1).
    rewrite (processBatches_step lib remote mint batch batches acc st st1 txs
               Hfetch) in H.
    cbn [trace] in Ht1.
    destruct (priceAll lib txs mint []) as [l | e].
    + destruct (IH _ _ _ _ H) as (new2 & Ht2 & Hc2 & Hm2).
      exists ([EvSleep 1000] ++ new1 ++ new2). split; [| split].
      * rewrite Ht2, Ht1. now rewrite <- !app_assoc.
      * rewrite !countAttempts_app. cbn [List.length]. cbn. lia.
      * constructor; [reflexivity |]. apply Forall_app. now split.
    + inversion H; subst. exists ([EvSleep 1000] ++ new1). split; [| split].
      * rewrite Ht1. now rewrite <- !app_assoc.
      * rewrite !countAttempts_app. cbn [List.length]. cbn. lia.
      * constructor; [reflexivity | exact Hm1].
Qed.

Lemma walkPages_trace {W : Type} (remote : Remote W) (venue : PublicKey)
      (until : option string) (fuel : nat) :
  forall current allSignatures (st : St W) r st',
    walkPages remote fuel venue until current allSignatures st
    = Some (r, st') ->
    exists new,
      trace st' = trace st ++ new
      /\ countAttempts new = 0%nat
      /\ Forall (fun ev => isMarketEvent ev = true) new.
Proof.
  induction fuel as [| fuel IH]; intros current allSignatures st r st' H.
  - destruct current; cbn in H; [| discriminate].
    inversion H; subst. exists []. split; [now rewrite app_nil_r |].
    split; [reflexivity | constructor].
  - destruct current as [| c cs]; cbn [walkPages] in H.
    + inversion H; subst. exists []. split; [now rewrite app_nil_r |].
      split; [reflexivity | constructor].
    + unfold bind at 1, call in H.
      destruct (getSignaturesForAddress remote venue until
                  (lastSignatureOf (c :: cs)) (world st)) as [[page | e] w'].
      * unfold bind at 1, sleep, emit in H. cbn [world trace] in H.
        destruct (IH _ _ _ _ _ H) as (new & Ht & Hc & Hm). cbn [trace] in Ht.
        eexists. split; [rewrite Ht, <- !app_assoc; reflexivity |]. split.
        -- rewrite !countAttempts_app, Hc. reflexivity.
        -- repeat (constructor; [reflexivity |]). exact Hm.
      * inversion H; subst. eexists. split; [reflexivity |].
        split; [reflexivity | repeat constructor].
Qed.

Lemma forwarded_batches_bound
      (allSignatures : list ConfirmedSignatureInfo) :
  (List.length (batchesOf (forwarded allSignatures)) <= 50)%nat.
Proof.
  destruct (batches_count_bound (forwarded allSignatures)) as [H1 H2].
  assert (List.length (forwarded allSignatures) <= 5000)%nat.
  { unfold forwarded. etransitivity; [apply filter_length_le |].
    apply firstn_le_length. }
  lia.
Qed.

Lemma getTokenPoolInfo_trace {W : Type} (lib : Lib) (remote : Remote W)
      (fuel : nat) (mint : string) (lastSignature : option string)
      (st st' : St W) (r : Result (list ParsedTokenHistory)) :
  getTokenPoolInfo lib remote fuel mint lastSignature st = Some (r, st') ->
  exists new,
    trace st' = trace st ++ new
    /\ (countAttempts new <= 250)%nat
    /\ Forall (fun ev => isMarketEvent ev = true) new.
Proof.
  intros H.
  unfold getTokenPoolInfo, bind at 1 in H.
  destruct (fetchPoolByMints remote mint (NATIVE_MINT lib) (world st))
    as [answer w1] eqn:Hreg.
  rewrite (getPoolInfo_run lib remote mint st _ _ Hreg) in H.
  set (st1 := after st w1 (EvFetchPoolByMints mint (NATIVE_MINT lib))) in *.
  destruct (match answer with
            | Ok (Some (p :: _)) => newPublicKey lib (pool_id p)
            | Ok _ => fallbackVenue lib mint
            | Throw e => Throw e
            end) as [venue | e].
  2:{ inversion H; subst. eexists. split; [reflexivity |].
      split; [cbn; lia | repeat constructor]. }
  unfold bind at 1, getAllTransactionsUntilLastSignature, bind at 1, call in H.
  destruct (getSignaturesForAddress remote venue (untilOf lastSignature) None
              (world st1)) as [[page | e] w2].
  2:{ inversion H; subst. eexists. split; [cbn; rewrite <- app_assoc;
                                           reflexivity |].
      split; [cbn; lia | repeat constructor]. }
  match type of H with
  | match ?walk with _ => _ end = _ =>
      destruct walk as [[[allSignatures | e] st2] |] eqn:Hwalk
  end; [| | discriminate].
  - destruct (walkPages_trace _ _ _ _ _ _ _ _ _ Hwalk)
      as (newW & HtW & HcW & HmW).
    cbn [trace] in HtW.
    destruct (processBatches_attempts _ _ _ _ _ _ _ _ H)
      as (newB & HtB & HcB & HmB).
    pose proof (forwarded_batches_bound allSignatures) as Hb.
    unfold batchesOf in Hb.
    eexists. split; [| split].
    + rewrite HtB, HtW. unfold st1; cbn [trace after].
      rewrite <- !app_assoc. reflexivity.
    + rewrite !countAttempts_app, HcW. cbn. lia.
    + repeat (constructor; [reflexivity |]). apply Forall_app. now split.
  - inversion H; subst.
    destruct (walkPages_trace _ _ _ _ _ _ _ _ _ Hwalk)
      as (newW & HtW & HcW & HmW).
    cbn [trace] in HtW.
    eexists. split; [| split].
    + rewrite HtW. unfold st1; cbn [trace after].
      rewrite <- !app_assoc. reflexivity.
    + rewrite !countAttempts_app, HcW. cbn. lia.
    + repeat (constructor; [reflexivity |]). exact HmW.
Qed.

(** X2. Whatever the venue's history holds and however the node behaves,
    a run of [getTokenPoolInfo] that ends has asked for transaction bodies
    at most 250 times: at most 50 batches, at most 5 attempts each. *)
Theorem body_requests_bounded {W : Type} (lib : Lib) (remote : Remote W)
        (fuel : nat) (mint : string) (lastSignature : option string)
        (st st' : St W) (r : Result (list ParsedTokenHistory)) :
  getTokenPoolInfo lib remote fuel mint lastSignature st = Some (r, st') ->
  exists new,
    trace st' = trace st ++ new
    /\ (countAttempts new <= 250)%nat
    /\ forall allSignatures,
        (List.length (batchesOf (forwarded allSignatures)) <= 50)%nat.
Proof.
  intros H.
  destruct (getTokenPoolInfo_trace _ _ _ _ _ _ _ _ H) as (new & Ht & Hc & _).
  exists new. split; [exact Ht |]. split; [exact Hc |].
  apply forwarded_batches_bound.
Qed.

(** The sample run stays within the bound. *)
Lemma body_requests_bounded_witness :
  exists r st' new,
    getTokenPoolInfo Sample.lib Sample.remote 3 Sample.mintOne (Some "s1")
      (Sample.start Sample.calm)
    = Some (r, st')
    /\ trace st' = trace (Sample.start Sample.calm) ++ new
    /\ (countAttempts new <= 250)%nat.
Proof.
  destruct (getTokenPoolInfo Sample.lib Sample.remote 3 Sample.mintOne
              (Some "s1") (Sample.start Sample.calm))
    as [[r st'] |] eqn:H; [| vm_compute in H; discriminate].
  destruct (body_requests_bounded _ _ _ _ _ _ _ _ H) as (new & Ht & Hc & _).
  exists r, st', new. repeat split; assumption.
Defined.

(** ** The shape of a walk *)

Section WalkShape.

Context {W : Type}.
Variable remote : Remote W.
Variable venue : PublicKey.
Variable until : option string.

Lemma removelast_cons2 {A} (x y : A) (l : list A) :
  removelast (x :: y :: l) = x :: removelast (y :: l).
Proof. reflexivity. Qed.

Lemma Paged_nonempty (before : option string) (w w' : W)
      (pages : list (list ConfirmedSignatureInfo)) :
  Paged remote venue until before w pages w' -> pages <> [].
Proof. destruct 1; discriminate. Qed.

(** After a non-empty page the loop asks on, page by page, until the
    empty page; it returns all it was given followed by these pages. *)
Lemma walkPages_shape (fuel : nat) :
  forall c cs allSignatures (st st' : St W) out,
    walkPages remote fuel venue until (c :: cs) allSignatures st
    = Some (Ok out, st') ->
    exists pages,
      Paged remote venue until (lastSignatureOf (c :: cs)) (world st)
            pages (world st')
      /\ out = allSignatures ++ List.concat pages
      /\ trace st'
         = trace st ++ furtherRequests venue until ((c :: cs) :: pages).
Proof.
  induction fuel as [| fuel IH]; intros c cs allSignatures st st' out H;
    [discriminate |].
  cbn [walkPages] in H. unfold bind at 1, call in H.
  destruct (getSignaturesForAddress remote venue until
              (lastSignatureOf (c :: cs)) (world st)) as [[page | e] w1]
    eqn:Hcall; [| discriminate].
  unfold bind at 1, sleep, emit in H. cbn [world trace] in H.
  destruct page as [| p ps].
  - destruct fuel; cbn in H; inversion H; subst; cbn [world trace];
      (exists [[]]; split; [apply Paged_end; exact Hcall |];
       split; [cbn; now rewrite !app_nil_r |];
       unfold furtherRequests; cbn; now rewrite <- app_assoc).
  - destruct (IH _ _ _ _ _ _ H) as (pages & Hp & Hout & Ht).
    cbn [world trace] in Hp, Ht.
    exists ((p :: ps) :: pages). split; [| split].
    + econstructor; [exact Hcall | discriminate | exact Hp].
    + rewrite Hout. cbn [List.concat]. now rewrite <- app_assoc.
    + rewrite Ht. unfold furtherRequests.
      pose proof (Paged_nonempty _ _ _ _ Hp) as Hne.
      destruct pages as [| q qs]; [contradiction |].
      rewrite !removelast_cons2. cbn [flat_map].
      rewrite <- !app_assoc. reflexivity.
Qed.

Lemma furtherRequests_counts (pages : list (list ConfirmedSignatureInfo)) :
  List.length (filter isPageRequest (furtherRequests venue until pages))
  = List.length (removelast pages)
  /\ List.length (filter isSleep (furtherRequests venue until pages))
     = List.length (removelast pages).
Proof.
  unfold furtherRequests.
  induction (removelast pages) as [| p l [IH1 IH2]]; [split; reflexivity |].
  cbn. now rewrite IH1, IH2.
Qed.

Lemma length_removelast {A} (l : list A) :
  l <> [] -> S (List.length (removelast l)) = List.length l.
Proof.
  induction l as [| x [| y l] IH]; intros H; [contradiction | reflexivity |].
  rewrite removelast_cons2. cbn [List.length]. f_equal. apply IH. discriminate.
Qed.

(** When the provider never answers with an empty page or an error, no
    amount of fuel lets the walk return. *)
Hypothesis never_empty :
  forall until before w,
  exists page w',
    getSignaturesForAddress remote venue until before w = (Ok page, w')
    /\ page <> [].

Lemma walkPages_never_ends (fuel : nat) :
  forall c cs allSignatures (st : St W),
    walkPages remote fuel venue until (c :: cs) allSignatures st = None.
Proof.
  induction fuel as [| fuel IH]; intros c cs allSignatures st;
    [reflexivity |].
  cbn [walkPages]. unfold bind at 1, call.
  destruct (never_empty until (lastSignatureOf (c :: cs)) (world st))
    as (page & w' & -> & Hne).
  unfold bind at 1, sleep, emit. cbn [world trace].
  destruct page as [| p ps]; [contradiction |]. apply IH.
Qed.

End WalkShape.

(** X3. A walk that returns has asked for one page after another, each
    before the last signature of the page it follows and with the same
    [until], until the first empty page; it returns these pages joined in
    order, has made one request per page, the empty one included, and has
    paused 1000 ms after each request but the first.  No cap stops it
    earlier. *)
Theorem walk_is_all_pages {W : Type} (remote : Remote W)
        (venue : PublicKey) (fuel : nat) (lastSignature : option string)
        (st st' : St W) (out : list ConfirmedSignatureInfo) :
  getAllTransactionsUntilLastSignature remote fuel venue lastSignature st
  = Some (Ok out, st') ->
  exists pages new,
    Paged remote venue (untilOf lastSignature) None (world st) pages
          (world st')
    /\ out = List.concat pages
    /\ trace st' = trace st ++ new
    /\ new = EvGetSignaturesForAddress venue (untilOf lastSignature) None
             :: furtherRequests venue (untilOf lastSignature) pages
    /\ List.length (filter isPageRequest new) = List.length pages
    /\ S (List.length (filter isSleep new)) = List.length pages.
Proof.
  intros H.
  unfold getAllTransactionsUntilLastSignature, bind, call in H.
  set (until := untilOf lastSignature) in *.
  destruct (getSignaturesForAddress remote venue until None (world st))
    as [[page | e] w1] eqn:Hcall; [| discriminate].
  assert (Hcounts :
            forall pages, pages <> [] ->
              let new := EvGetSignaturesForAddress venue until None
                         :: furtherRequests venue until pages in
              List.length (filter isPageRequest new) = List.length pages
              /\ S (List.length (filter isSleep new)) = List.length pages).
  { intros pages Hne new. unfold new.
    cbn [filter isPageRequest isSleep List.length].
    destruct (furtherRequests_counts venue until pages) as [-> ->].
    split; now apply length_removelast. }
  destruct page as [| c cs].
  - destruct fuel; cbn in H; inversion H; subst; cbn [world trace];
      (exists [[]]; eexists; split; [apply Paged_end; exact Hcall |];
       split; [reflexivity |]; split; [reflexivity |];
       split; [reflexivity |]; exact (Hcounts [[]] ltac:(discriminate))).
  - destruct (walkPages_shape remote venue until fuel _ _ _ _ _ _ H)
      as (pages & Hp & Hout & Ht).
    cbn [world trace] in Hp, Ht.
    exists ((c :: cs) :: pages). eexists.
    split; [econstructor; [exact Hcall | discriminate | exact Hp] |].
    split; [exact Hout |].
    split; [rewrite Ht, <- app_assoc; reflexivity |].
    split; [reflexivity |]. apply Hcounts. discriminate.
Qed.

(** X4. The walk has no limit of its own: against a provider that answers
    every request with a non-empty page it does not return, whatever the
    fuel; the cap of 5000 is applied only to what a finished walk
    returned. *)
Theorem walk_needs_an_empty_page {W : Type} (remote : Remote W)
        (venue : PublicKey) :
  (forall until before w,
    exists page w',
      getSignaturesForAddress remote venue until before w = (Ok page, w')
      /\ page <> []) ->
  forall fuel lastSignature (st : St W),
    getAllTransactionsUntilLastSignature remote fuel venue lastSignature st
    = None.
Proof.
  intros H fuel lastSignature st.
  unfold getAllTransactionsUntilLastSignature, bind, call.
  destruct (H (untilOf lastSignature) None (world st))
    as (page & w' & -> & Hne).
  destruct page as [| p ps]; [contradiction |].
  now apply walkPages_never_ends.
Qed.

(** The walk over the sample venue: three pages, the last one empty. *)
Lemma walk_is_all_pages_witness :
  exists pages,
    List.concat pages
    = [Sample.landed "s5"; Sample.failed "s4";
       Sample.landed "s3"; Sample.landed "s2"].
Proof.
  destruct (getAllTransactionsUntilLastSignature Sample.remote 2 "venue"
              (Some "s1") (Sample.start Sample.calm))
    as [[[out | e] st'] |] eqn:H;
    try (vm_compute in H; discriminate).
  destruct (walk_is_all_pages _ _ _ _ _ _ _ H) as (pages & new & _ & Hout & _).
  exists pages. rewrite <- Hout.
  vm_compute in H. inversion H. reflexivity.
Defined.

(** A provider that repeats its answer keeps the walk going. *)
Lemma walk_needs_an_empty_page_witness :
  getAllTransactionsUntilLastSignature Sample.stuck 1000 "venue" None
    (Sample.start Sample.calm)
  = None.
Proof.
  apply walk_needs_an_empty_page.
  intros u b w. eexists _, _. split; [reflexivity | discriminate].
Defined.

(** ** More on price derivation *)

Section Derivation.

Variable lib : Lib.

Lemma scanInstruction_Throw (ml : Z) (ins : Instruction) (e : string) :
  scanInstruction lib ml ins = Throw e ->
  instructionTypeOf lib ins = Throw e
  \/ (isSetComputeUnitPrice lib ins = true /\ unitPriceOf lib ins = Throw e).
Proof.
  unfold scanInstruction, isSetComputeUnitPrice, instructionTypeOf,
    unitPriceOf.
  destruct (bs58_decode lib (ins_data ins)) as [raw | e1]; cbn;
    [| intros H; inversion H; left; reflexivity].
  destruct (decodeInstructionType lib _) as [type | e2]; cbn;
    [| intros H; inversion H; left; reflexivity].
  destruct (String.eqb type "SetComputeUnitPrice"); [| discriminate].
  intros H. right. split; [reflexivity | exact H].
Qed.

Lemma scan_Throw (cbs : list Instruction) :
  forall ml e,
    forEachR (scanInstruction lib) cbs ml = Throw e ->
    exists ins,
      In ins cbs
      /\ (instructionTypeOf lib ins = Throw e
          \/ (isSetComputeUnitPrice lib ins = true
              /\ unitPriceOf lib ins = Throw e)).
Proof.
  induction cbs as [| a cbs IH]; intros ml e H; cbn in H; [discriminate |].
  destruct (scanInstruction lib ml a) as [ml1 | e1] eqn:Ha; cbn in H.
  - destruct (IH _ _ H) as (ins & Hin & Hc). exists ins.
    split; [now right | exact Hc].
  - inversion H; subst. exists a. split; [now left |].
    now apply scanInstruction_Throw with (ml := ml).
Qed.

Lemma priorityFeeOf_Throw (tx : ParsedTransactionWithMeta) (m : Meta)
      (e : string) :
  priorityFeeOf lib tx m = Throw e ->
  exists ins,
    In ins (instructions tx)
    /\ programId ins = ComputeBudgetProgram_programId lib
    /\ (instructionTypeOf lib ins = Throw e
        \/ (isSetComputeUnitPrice lib ins = true
            /\ unitPriceOf lib ins = Throw e)).
Proof.
  unfold priorityFeeOf.
  destruct (computeBudgetInstructions lib tx) as [| c cbs] eqn:Hcbs;
    [discriminate |].
  destruct (forEachR (scanInstruction lib) (c :: cbs) 0) as [ml | e1] eqn:Hs;
    cbn; [discriminate |].
  intros H; inversion H; subst.
  destruct (scan_Throw _ _ _ Hs) as (ins & Hin & Hc).
  rewrite <- Hcbs in Hin. apply computeBudgetInstructions_In in Hin as [Hi Hp].
  exists ins. repeat split; assumption.
Qed.

Variables (tx : ParsedTransactionWithMeta) (m : Meta).
Variables (preTB postTB : list TokenBalance) (mint : string).

Lemma signerTrade_Throw (s : Signer) (e : string) :
  signerTrade lib tx m preTB postTB mint s = Throw e ->
  balanceChanged lib preTB postTB mint s = true
  /\ priorityFeeOf lib tx m = Throw e.
Proof.
  unfold signerTrade, balanceChanged.
  destruct (Num.eqb _ _); cbn; [discriminate |].
  destruct (blockTimeFalsy _); cbn; [discriminate |].
  destruct (priorityFeeOf lib tx m); cbn; [discriminate |].
  intros H; inversion H; subst. split; reflexivity.
Qed.

Lemma pushTrade_Throw (signers : list Signer) :
  forall acc e,
    forEachR (pushTrade lib tx m preTB postTB mint) signers acc = Throw e ->
    exists s,
      In s signers /\ signerTrade lib tx m preTB postTB mint s = Throw e.
Proof.
  induction signers as [| s signers IH]; intros acc e H; cbn in H;
    [discriminate |].
  unfold pushTrade at 1 in H.
  destruct (signerTrade lib tx m preTB postTB mint s) as [r | e1] eqn:Hs;
    cbn in H.
  - destruct r; cbn in H; destruct (IH _ _ H) as (s' & Hin & Ht);
      exists s'; (split; [now right | exact Ht]).
  - inversion H; subst. exists s. split; [now left | exact Hs].
Qed.

(** The trades of a call are those of the signers whose balance changed,
    one each and in the order of the accounts. *)
Lemma trades_follow_signers (signers : list Signer) :
  blockTimeFalsy (blockTime tx) = false ->
  forall acc out,
    forEachR (pushTrade lib tx m preTB postTB mint) signers acc = Ok out ->
    exists trades,
      out = acc ++ trades
      /\ Forall2 (fun s t => signerTrade lib tx m preTB postTB mint s
                             = Ok (Some t))
                 (filter (balanceChanged lib preTB postTB mint) signers)
                 trades.
Proof.
  intros Hbt.
  induction signers as [| s signers IH]; intros acc out H; cbn in H.
  - inversion H; subst. exists []. split; [now rewrite app_nil_r | constructor].
  - unfold pushTrade at 1 in H.
    destruct (signerTrade lib tx m preTB postTB mint s) as [r | e1] eqn:Hs;
      cbn in H; [| discriminate].
    cbn [filter]. unfold balanceChanged at 1.
    destruct (Num.eqb (tokenBalanceOf lib preTB (key s) mint)
                      (tokenBalanceOf lib postTB (key s) mint)) eqn:He.
    + unfold signerTrade in Hs. rewrite He in Hs. cbn in Hs.
      inversion Hs; subst r. cbn in H. now apply IH.
    + destruct (signerTrade_changed _ _ _ _ _ _ _ _ Hs He Hbt) as (t & ->).
      cbn in H. destruct (IH _ _ H) as (trades & -> & HF).
      exists (t :: trades). split; [now rewrite <- app_assoc |].
      cbn. constructor; assumption.
Qed.

End Derivation.

Lemma signersFrom_aligned (keys : list ParsedMessageAccount) :
  forall i s,
    In s (signersFrom i keys) ->
    exists k,
      (i <= index s)%nat
      /\ nth_error keys (index s - i) = Some k
      /\ signer k = true
      /\ pubkey k = key s.
Proof.
  induction keys as [| k keys IH]; intros i s H; cbn in H; [contradiction |].
  destruct (signer k) eqn:Hk.
  - destruct H as [<- | H].
    + exists k. cbn. rewrite Nat.sub_diag. repeat split; auto.
    + destruct (IH _ _ H) as (k' & Hi & Hn & Hs & Hp). exists k'.
      split; [lia |]. replace (index s - i)%nat with (S (index s - S i)) by lia.
      repeat split; assumption.
  - destruct (IH _ _ H) as (k' & Hi & Hn & Hs & Hp). exists k'.
    split; [lia |]. replace (index s - i)%nat with (S (index s - S i)) by lia.
    repeat split; assumption.
Qed.

Lemma computeTokenPrice_Throw (lib : Lib) (tx : ParsedTransactionWithMeta)
      (mint : string) (e : string) :
  computeTokenPrice lib tx mint = Throw e ->
  exists m preTB postTB,
    meta tx = Some m
    /\ preTokenBalances m = Some preTB
    /\ postTokenBalances m = Some postTB
    /\ forEachR (pushTrade lib tx m preTB postTB mint)
                (signersFrom 0 (accountKeys tx)) [] = Throw e.
Proof.
  unfold computeTokenPrice.
  destruct (meta tx) as [m |]; [| discriminate].
  destruct (preTokenBalances m) as [preTB |] eqn:Hpre; [| discriminate].
  destruct (postTokenBalances m) as [postTB |] eqn:Hpost; [| discriminate].
  destruct (blockTimeFalsy (blockTime tx)); [discriminate |].
  destruct (forEachR _ _ _) as [out | e1] eqn:Hrun; cbn; [discriminate |].
  intros E; inversion E; subst. exists m, preTB, postTB.
  repeat split; assumption || reflexivity.
Qed.

(** X5. Price derivation raises only when it has a trade to price and a
    compute-budget instruction that does not decode: some signer's asset
    balance changed, and an instruction addressed to the compute-budget
    program failed in [bs58.decode], in [decodeInstructionType] or, being
    a [SetComputeUnitPrice], in [decodeSetComputeUnitPrice].  Instructions
    of other programs are never decoded. *)
Theorem derivation_raises_only_on_compute_budget (lib : Lib)
        (tx : ParsedTransactionWithMeta) (mint : string) (e : string) :
  computeTokenPrice lib tx mint = Throw e ->
  exists m preTB postTB s ins,
    meta tx = Some m
    /\ preTokenBalances m = Some preTB
    /\ postTokenBalances m = Some postTB
    /\ In s (signersFrom 0 (accountKeys tx))
    /\ balanceChanged lib preTB postTB mint s = true
    /\ In ins (instructions tx)
    /\ programId ins = ComputeBudgetProgram_programId lib
    /\ (instructionTypeOf lib ins = Throw e
        \/ (isSetComputeUnitPrice lib ins = true
            /\ unitPriceOf lib ins = Throw e)).
Proof.
  intros H.
  destruct (computeTokenPrice_Throw _ _ _ _ H)
    as (m & preTB & postTB & Hm & Hpre & Hpost & Hrun).
  destruct (pushTrade_Throw _ _ _ _ _ _ _ _ _ Hrun) as (s & Hs & Ht).
  destruct (signerTrade_Throw _ _ _ _ _ _ _ _ Ht) as (Hc & Hp).
  destruct (priorityFeeOf_Throw _ _ _ _ Hp) as (ins & Hi & Hprog & Hd).
  exists m, preTB, postTB, s, ins. repeat split; assumption.
Qed.

(** The sample sale with the instruction of tag 4. *)
Lemma derivation_raises_only_on_compute_budget_witness :
  exists ins,
    In ins [Sample.setLimit; Sample.setLoadedAccounts]
    /\ (instructionTypeOf Sample.lib ins
        = Throw "Instruction type incorrect; not a ComputeBudgetInstruction"
        \/ (isSetComputeUnitPrice Sample.lib ins = true
            /\ unitPriceOf Sample.lib ins
               = Throw "Instruction type incorrect; not a ComputeBudgetInstruction")).
Proof.
  destruct (derivation_raises_only_on_compute_budget Sample.lib
              (Sample.sale [Sample.setLimit; Sample.setLoadedAccounts])
              Sample.mintOne
              "Instruction type incorrect; not a ComputeBudgetInstruction"
              ltac:(vm_compute; reflexivity))
    as (m & preTB & postTB & s & ins & _ & _ & _ & _ & _ & Hi & _ & Hd).
  exists ins. split; [exact Hi | exact Hd].
Defined.

Lemma computeTokenPrice_trades (lib : Lib) (tx : ParsedTransactionWithMeta)
      (mint : string) (m : Meta) (preTB postTB : list TokenBalance)
      (trades : list ParsedTokenHistory) :
  computeTokenPrice lib tx mint = Ok (Some trades) ->
  meta tx = Some m ->
  preTokenBalances m = Some preTB ->
  postTokenBalances m = Some postTB ->
  blockTimeFalsy (blockTime tx) = false
  /\ Forall2 (fun s t => signerTrade lib tx m preTB postTB mint s
                         = Ok (Some t))
             (filter (balanceChanged lib preTB postTB mint)
                     (signersFrom 0 (accountKeys tx)))
             trades.
Proof.
  intros H Hm Hpre Hpost.
  destruct (computeTokenPrice_Some _ _ _ _ H)
    as (m' & preTB' & postTB' & Hm' & Hpre' & Hpost' & Hbt & Hrun).
  assert (m' = m) by congruence; subst m'.
  assert (preTB' = preTB) by congruence; subst preTB'.
  assert (postTB' = postTB) by congruence; subst postTB'.
  split; [exact Hbt |].
  destruct (trades_follow_signers _ _ _ _ _ _ _ Hbt _ _ Hrun)
    as (trades' & E & HF).
  cbn in E. now subst.
Qed.

Lemma signerTrade_labelled (lib : Lib) (tx : ParsedTransactionWithMeta)
      (m : Meta) (preTB postTB : list TokenBalance) (mint : string)
      (s : Signer) (t : ParsedTokenHistory) :
  signerTrade lib tx m preTB postTB mint s = Ok (Some t) ->
  labelled tx mint t
  /\ (pth_type t = "buy" \/ pth_type t = "sell").
Proof.
  unfold signerTrade, labelled.
  destruct (Num.eqb _ _); cbn; [discriminate |].
  destruct (blockTimeFalsy (blockTime tx)) eqn:Hbt; cbn; [discriminate |].
  destruct (priorityFeeOf lib tx m); cbn; [| discriminate].
  intros H; inversion H; subst t; clear H. cbn.
  unfold blockTimeFalsy in Hbt. destruct (blockTime tx) as [bt |];
    [| discriminate].
  apply Z.eqb_neq in Hbt.
  split; [repeat split; auto |].
  destruct (Num.ltb _ _); auto.
Qed.

(** X6. A call that returns trades returns exactly one per signer whose
    asset balance changed, in the order of the account list; each carries
    the first signature of the transaction, the mint asked for and the
    (non-zero) block time, is owned by an account flagged as signer, and
    takes its native balance at that account's own index. *)
Theorem trades_are_the_changed_signers (lib : Lib)
        (tx : ParsedTransactionWithMeta) (mint : string) (m : Meta)
        (preTB postTB : list TokenBalance)
        (trades : list ParsedTokenHistory) :
  computeTokenPrice lib tx mint = Ok (Some trades) ->
  meta tx = Some m ->
  preTokenBalances m = Some preTB ->
  postTokenBalances m = Some postTB ->
  let changed := filter (balanceChanged lib preTB postTB mint)
                        (signersFrom 0 (accountKeys tx)) in
  map pth_owner trades = map key changed
  /\ Forall (labelled tx mint) trades
  /\ Forall2 (fun s t =>
                exists k,
                  nth_error (accountKeys tx) (index s) = Some k
                  /\ signer k = true
                  /\ pubkey k = pth_owner t
                  /\ preSolBalance t
                     = Num.div (numAt (preBalances m) (index s))
                               (LAMPORTS_PER_SOL lib))
             changed trades.
Proof.
  intros H Hm Hpre Hpost changed.
  destruct (computeTokenPrice_trades _ _ _ _ _ _ _ H Hm Hpre Hpost)
    as [_ HF].
  fold changed in HF.
  assert (Hin : forall s, In s changed ->
                          In s (signersFrom 0 (accountKeys tx))).
  { intros s Hs. unfold changed in Hs. now apply filter_In in Hs. }
  clearbody changed. clear H.
  induction HF as [| s t ss ts Hst HF IH]; [repeat split; constructor |].
  destruct (IH (fun s' Hs' => Hin s' (or_intror Hs'))) as (IH1 & IH2 & IH3).
  destruct (signerTrade_Some _ _ _ _ _ _ _ _ Hst)
    as (pf & _ & _ & Ho & _ & _ & Hps & _).
  destruct (signerTrade_labelled _ _ _ _ _ _ _ _ Hst) as [Hl _].
  destruct (signersFrom_aligned _ _ _ (Hin s (or_introl eq_refl)))
    as (k & _ & Hn & Hk & Hp).
  rewrite Nat.sub_0_r in Hn.
  split; [cbn; now rewrite Ho, IH1 |].
  split; [now constructor |].
  constructor; [| exact IH3].
  exists k. repeat split; try assumption. congruence.
Qed.

(** In the sample sale the first account is the only one that traded. *)
Lemma trades_are_the_changed_signers_witness :
  map pth_owner [Sample.saleTrade] = [Sample.traderOne]
  /\ Forall (labelled (Sample.sale [Sample.setLimit; Sample.setPrice])
                      Sample.mintOne)
            [Sample.saleTrade].
Proof.
  destruct (trades_are_the_changed_signers Sample.lib
              (Sample.sale [Sample.setLimit; Sample.setPrice])
              Sample.mintOne Sample.saleMeta
              [Sample.balance Sample.traderOne "5000000"]
              [Sample.balance Sample.traderOne "3000000"]
              [Sample.saleTrade]
              ltac:(vm_compute; reflexivity) eq_refl eq_refl eq_refl)
    as (H1 & H2 & _).
  split; [exact H1 | exact H2].
Defined.

Lemma nan_quotient_guarded (a : float) :
  guardPrice (Num.div a (Num.abs Num.NaN)) = Num.zero.
Proof. destruct a; reflexivity. Qed.

Lemma numAt_beyond (arr : list float) (i : nat) :
  (List.length arr <= i)%nat -> numAt arr i = Num.NaN.
Proof.
  intros H. unfold numAt. now rewrite (proj2 (nth_error_None arr i) H).
Qed.

Lemma sub_nan_r (x : float) : Num.sub x Num.NaN = Num.NaN.
Proof. destruct x; reflexivity. Qed.

Lemma add_nan_l (x : float) : Num.add Num.NaN x = Num.NaN.
Proof. reflexivity. Qed.

(** X7. When the native balance arrays do not reach a signer's account
    index, the signer's trade is emitted all the same, with [NaN] as the
    native balance read out of range and with price 0. *)
Theorem missing_native_balance_prices_zero (lib : Lib)
        (tx : ParsedTransactionWithMeta) (mint : string) (m : Meta)
        (preTB postTB : list TokenBalance)
        (trades : list ParsedTokenHistory) :
  computeTokenPrice lib tx mint = Ok (Some trades) ->
  meta tx = Some m ->
  preTokenBalances m = Some preTB ->
  postTokenBalances m = Some postTB ->
  Forall2 (fun s t =>
             pth_owner t = key s
             /\ ((List.length (preBalances m) <= index s)%nat ->
                 preSolBalance t = Num.NaN /\ price t = Num.zero)
             /\ ((List.length (postBalances m) <= index s)%nat ->
                 postSolBalance t = Num.NaN /\ price t = Num.zero))
          (filter (balanceChanged lib preTB postTB mint)
                  (signersFrom 0 (accountKeys tx)))
          trades.
Proof.
  intros H Hm Hpre Hpost.
  destruct (computeTokenPrice_trades _ _ _ _ _ _ _ H Hm Hpre Hpost)
    as [_ HF].
  clear H.
  induction HF as [| s t ss ts Hst HF IH]; [constructor |].
  constructor; [| exact IH].
  destruct (signerTrade_Some _ _ _ _ _ _ _ _ Hst)
    as (pf & _ & _ & Ho & _ & _ & Hps & Hpo & _ & Hpr).
  split; [exact Ho |]. split; intros Hlen.
  - assert (E : preSolBalance t = Num.NaN)
      by (rewrite Hps, numAt_beyond by exact Hlen; reflexivity).
    split; [exact E |]. rewrite Hpr, E. cbn [Num.sub SFsub].
    apply nan_quotient_guarded.
  - assert (E : postSolBalance t = Num.NaN)
      by (rewrite Hpo, numAt_beyond by exact Hlen; reflexivity).
    split; [exact E |]. rewrite Hpr, E, sub_nan_r.
    apply nan_quotient_guarded.
Qed.

(** The sample sale without native balances is still reported, at 0. *)
Lemma missing_native_balance_prices_zero_witness :
  Forall2 (fun s t =>
             pth_owner t = key s
             /\ ((List.length (preBalances Sample.bareMeta) <= index s)%nat ->
                 preSolBalance t = Num.NaN /\ price t = Num.zero)
             /\ ((List.length (postBalances Sample.bareMeta) <= index s)%nat ->
                 postSolBalance t = Num.NaN /\ price t = Num.zero))
          (filter (balanceChanged Sample.lib
                     [Sample.balance Sample.traderOne "5000000"]
                     [Sample.balance Sample.traderOne "3000000"]
                     Sample.mintOne)
                  (signersFrom 0 (accountKeys Sample.bareSale)))
          (emitted (computeTokenPrice Sample.lib Sample.bareSale
                      Sample.mintOne)).
Proof.
  exact (missing_native_balance_prices_zero Sample.lib Sample.bareSale
           Sample.mintOne Sample.bareMeta
           [Sample.balance Sample.traderOne "5000000"]
           [Sample.balance Sample.traderOne "3000000"]
           (emitted (computeTokenPrice Sample.lib Sample.bareSale
                       Sample.mintOne))
           ltac:(vm_compute; reflexivity) eq_refl eq_refl eq_refl).
Defined.

Example bare_sale_priced_zero :
  map price (emitted (computeTokenPrice Sample.lib Sample.bareSale
                        Sample.mintOne))
  = [Num.zero].
Proof. vm_compute; reflexivity. Qed.

(** ** What a run hands on *)

Lemma signerTrade_wellPriced (lib : Lib) (tx : ParsedTransactionWithMeta)
      (m : Meta) (preTB postTB : list TokenBalance) (mint : string)
      (s : Signer) (t : ParsedTokenHistory) :
  signerTrade lib tx m preTB postTB mint s = Ok (Some t) ->
  wellPriced mint t.
Proof.
  intros H.
  destruct (signerTrade_labelled _ _ _ _ _ _ _ _ H)
    as [(_ & Hm & _ & Hd) Hty].
  destruct (signerTrade_Some _ _ _ _ _ _ _ _ H)
    as (_ & _ & _ & _ & _ & _ & _ & _ & _ & Hpr).
  repeat split; try assumption.
  rewrite Hpr. apply guardPrice_quotient.
Qed.

Lemma computeTokenPrice_wellPriced (lib : Lib)
      (tx : ParsedTransactionWithMeta) (mint : string)
      (trades : list ParsedTokenHistory) :
  computeTokenPrice lib tx mint = Ok (Some trades) ->
  Forall (wellPriced mint) trades.
Proof.
  intros H.
  destruct (computeTokenPrice_Some _ _ _ _ H)
    as (m & preTB & postTB & _ & _ & _ & _ & Hrun).
  apply Forall_forall. intros t Hin.
  destruct (trade_of_signer _ _ _ _ _ _ _ _ _ Hrun Hin) as (s & _ & Hs).
  eapply signerTrade_wellPriced; eassumption.
Qed.

Lemma priceAll_keeps (lib : Lib) (mint : string)
      (P : ParsedTokenHistory -> Prop) :
  (forall tx trades, computeTokenPrice lib tx mint = Ok (Some trades) ->
                     Forall P trades) ->
  forall txs acc out,
    Forall P acc ->
    priceAll lib txs mint acc = Ok out ->
    Forall P out.
Proof.
  intros HP. induction txs as [| tx txs IH]; intros acc out Hacc H; cbn in H.
  - now inversion H; subst.
  - destruct (computeTokenPrice lib tx mint) as [[l |] | e] eqn:Hc; cbn in H;
      [| | discriminate].
    + eapply IH; [| exact H]. apply Forall_app. split; [assumption |].
      eapply HP; eassumption.
    + eapply IH; eassumption.
Qed.

Lemma processBatches_keeps {W : Type} (lib : Lib) (remote : Remote W)
      (mint : string) (P : ParsedTokenHistory -> Prop) :
  (forall tx trades, computeTokenPrice lib tx mint = Ok (Some trades) ->
                     Forall P trades) ->
  forall batches acc (st st' : St W) out,
    Forall P acc ->
    processBatches lib remote batches mint acc st = Some (Ok out, st') ->
    Forall P out.
Proof.
  intros HP. induction batches as [| batch batches IH];
    intros acc st st' out Hacc H.
  - cbn in H. now inversion H; subst.
  - destruct (getTransactionsWithRetries_ends remote batch
                {| world := world st; trace := trace st ++ [EvSleep 1000] |})
      as (txs & st1 & Hfetch).
    rewrite (processBatches_step lib remote mint batch batches acc st st1 txs
               Hfetch) in H.
    destruct (priceAll lib txs mint []) as [l | e] eqn:Hp; [| discriminate].
    eapply IH; [| exact H]. apply Forall_app. split; [assumption |].
    eapply priceAll_keeps; [exact HP | constructor | exact Hp].
Qed.

Lemma getTokenPoolInfo_Ok {W : Type} (lib : Lib) (remote : Remote W)
      (fuel : nat) (mint : string) (lastSignature : option string)
      (st st' : St W) (out : list ParsedTokenHistory) :
  getTokenPoolInfo lib remote fuel mint lastSignature st
  = Some (Ok out, st') ->
  exists venue allSignatures st1 st2,
    getPoolInfo lib remote mint st = Some (Ok venue, st1)
    /\ getAllTransactionsUntilLastSignature remote fuel venue lastSignature
         st1
       = Some (Ok allSignatures, st2)
    /\ processBatches lib remote (batchesOf (forwarded allSignatures)) mint []
         st2
       = Some (Ok out, st').
Proof.
  unfold getTokenPoolInfo, bind at 1. intros H.
  destruct (getPoolInfo lib remote mint st) as [[[venue | e] st1] |] eqn:Hv;
    try discriminate.
  unfold bind at 1 in H.
  destruct (getAllTransactionsUntilLastSignature remote fuel venue
              lastSignature st1) as [[[allSignatures | e] st2] |] eqn:Hw;
    try discriminate.
  exists venue, allSignatures, st1, st2.
  split; [reflexivity |]. split; [exact Hw | exact H].
Qed.

(** X8. Every trade a run of [getTokenPoolInfo] returns is for the mint
    asked for, is a [buy] or a [sell], has a non-zero block time and a
    price that is finite and not negative. *)
Theorem run_returns_well_priced_trades {W : Type} (lib : Lib)
        (remote : Remote W) (fuel : nat) (mint : string)
        (lastSignature : option string) (st st' : St W)
        (out : list ParsedTokenHistory) :
  getTokenPoolInfo lib remote fuel mint lastSignature st
  = Some (Ok out, st') ->
  Forall (wellPriced mint) out.
Proof.
  intros H.
  destruct (getTokenPoolInfo_Ok _ _ _ _ _ _ _ _ H)
    as (venue & allSignatures & st1 & st2 & _ & _ & Hb).
  eapply processBatches_keeps; [| constructor | exact Hb].
  intros tx trades. apply computeTokenPrice_wellPriced.
Qed.

(** The two trades of the sample venue. *)
Lemma run_returns_well_priced_trades_witness :
  Forall (wellPriced Sample.mintOne)
         (match getTokenPoolInfo Sample.lib Sample.remote 3 Sample.mintOne
                  (Some "s1") (Sample.start Sample.calm) with
          | Some (Ok out, _) => out
          | _ => []
          end).
Proof.
  destruct (getTokenPoolInfo Sample.lib Sample.remote 3 Sample.mintOne
              (Some "s1") (Sample.start Sample.calm))
    as [[[out | e] st'] |] eqn:H; try constructor.
  exact (run_returns_well_priced_trades _ _ _ _ _ _ _ _ H).
Defined.

(** ** Storing the rows *)

Section Storing.

Context {W : Type}.
Variable lib : Lib.
Variable remote : Remote W.
Variable agent : Agent.

Let rows (items : list ParsedTokenHistory) : list PriceHistoryRow :=
  map (rowOf lib agent) items.

(** The loop stores the rows one by one and stops at the first one the
    database rejects. *)
Lemma createAll_run (history : list ParsedTokenHistory) :
  forall st : St W,
  exists done rest w1,
    history = done ++ rest
    /\ Stored remote (rows done) (world st) w1
    /\ ((rest = []
         /\ createAll lib remote history agent st
            = Some (Ok tt,
                    {| world := w1;
                       trace := trace st ++ map EvCreate (rows done) |}))
        \/ (exists item rest' e w2,
               rest = item :: rest'
               /\ PriceHistory_create remote (rowOf lib agent item) w1
                  = (Throw e, w2)
               /\ createAll lib remote history agent st
                  = Some (Throw e,
                          {| world := w2;
                             trace := trace st
                                      ++ map EvCreate
                                           (rows (done ++ [item])) |}))).
Proof.
  induction history as [| item history IH]; intros st.
  - exists [], [], (world st). split; [reflexivity |].
    split; [constructor |]. left. split; [reflexivity |].
    cbn. rewrite app_nil_r. destruct st; reflexivity.
  - destruct (PriceHistory_create remote (rowOf lib agent item) (world st))
      as [[u | e] w'] eqn:Hc.
    + destruct u.
      set (st1 := {| world := w';
                     trace := trace st ++ [EvCreate (rowOf lib agent item)] |}).
      destruct (IH st1) as (done & rest & w1 & Hh & Hs & Hrun).
      assert (Hstep : createAll lib remote (item :: history) agent st
                      = createAll lib remote history agent st1).
      { cbn [createAll]. unfold bind at 1, call. fold (rowOf lib agent item).
        now rewrite Hc. }
      exists (item :: done), rest, w1. split; [cbn; now rewrite Hh |].
      split; [econstructor; eassumption |].
      rewrite Hstep. cbn [trace world st1] in Hrun.
      destruct Hrun as [[-> Hrun] | (it & rest' & e & w2 & -> & Hrej & Hrun)].
      * left. split; [reflexivity |]. rewrite Hrun. unfold st1.
        cbn [trace world rows map]. now rewrite <- app_assoc.
      * right. exists it, rest', e, w2. split; [reflexivity |].
        split; [exact Hrej |]. rewrite Hrun. unfold st1.
        cbn [trace world rows map app]. now rewrite <- app_assoc.
    + exists [], (item :: history), (world st). split; [reflexivity |].
      split; [constructor |]. right. exists item, history, e, w'.
      split; [reflexivity |]. split; [exact Hc |].
      cbn [createAll]. unfold bind at 1, call. fold (rowOf lib agent item).
      now rewrite Hc.
Qed.

End Storing.

(** X9. The rows of a history are handed to [PriceHistory.create] one by
    one in the order of the history, newest first.  Either all are
    accepted, or the loop ends with the error of the first row rejected:
    the rows before it stay stored, the ones after it are never tried. *)
Theorem rows_stored_in_order_without_rollback {W : Type} (lib : Lib)
        (remote : Remote W) (agent : Agent)
        (history : list ParsedTokenHistory) (st : St W) :
  exists done rest w1,
    history = done ++ rest
    /\ Stored remote (map (rowOf lib agent) done) (world st) w1
    /\ ((rest = []
         /\ createAll lib remote history agent st
            = Some (Ok tt,
                    {| world := w1;
                       trace := trace st
                                ++ map EvCreate
                                     (map (rowOf lib agent) done) |}))
        \/ (exists item rest' e w2,
               rest = item :: rest'
               /\ PriceHistory_create remote (rowOf lib agent item) w1
                  = (Throw e, w2)
               /\ createAll lib remote history agent st
                  = Some (Throw e,
                          {| world := w2;
                             trace := trace st
                                      ++ map EvCreate
                                           (map (rowOf lib agent)
                                                (done ++ [item])) |}))).
Proof.
  apply createAll_run.
Qed.

(** ** The rows of a sync run *)

Lemma rowsStored_app (evs1 evs2 : list Event) :
  rowsStored (evs1 ++ evs2) = rowsStored evs1 ++ rowsStored evs2.
Proof. apply flat_map_app. Qed.

Lemma rowsStored_market (evs : list Event) :
  Forall (fun ev => isMarketEvent ev = true) evs -> rowsStored evs = [].
Proof.
  induction 1 as [| ev evs Hev _ IH]; [reflexivity |].
  destruct ev; try discriminate; exact IH.
Qed.

Lemma rowsStored_creates (rows : list PriceHistoryRow) :
  rowsStored (map EvCreate rows) = rows.
Proof.
  induction rows as [| r rows IH]; [reflexivity |].
  change (r :: rowsStored (map EvCreate rows) = r :: rows). now rewrite IH.
Qed.

Lemma goodRow_more (lib : Lib) (agent : Agent) (agents : list Agent)
      (row : PriceHistoryRow) :
  goodRow lib agents row -> goodRow lib (agent :: agents) row.
Proof.
  intros (a & item & Ha & Hw & Hr). exists a, item.
  split; [now right | split; assumption].
Qed.

Lemma createAll_rows {W : Type} (lib : Lib) (remote : Remote W)
      (agent : Agent) (history : list ParsedTokenHistory) (st st' : St W)
      (r : Result unit) :
  createAll lib remote history agent st = Some (r, st') ->
  exists tried,
    trace st' = trace st ++ map EvCreate (map (rowOf lib agent) tried)
    /\ forall item, In item tried -> In item history.
Proof.
  intros H.
  destruct (createAll_run lib remote agent history st)
    as (done & rest & w1 & Hh & _ & Hrun).
  destruct Hrun as [[_ Hrun] | (item & rest' & e & w2 & Hr & _ & Hrun)];
    rewrite Hrun in H; inversion H; subst.
  - exists done. split; [reflexivity |]. intros item Hin.
    apply in_or_app. now left.
  - exists (done ++ [item]). split; [reflexivity |]. intros it Hin.
    apply in_app_or in Hin as [Hin | [<- | []]]; apply in_or_app;
      [now left | right; now left].
Qed.

Lemma syncAgents_rows {W : Type} (lib : Lib) (remote : Remote W)
      (fuel : nat) (agents : list Agent) :
  forall (st st' : St W) (r : Result unit),
    syncAgents lib remote fuel agents st = Some (r, st') ->
    exists new,
      trace st' = trace st ++ new
      /\ Forall (goodRow lib agents) (rowsStored new).
Proof.
  induction agents as [| agent agents IH]; intros st st' r H.
  - cbn in H. inversion H; subst. exists []. split; [now rewrite app_nil_r |].
    constructor.
  - cbn [syncAgents] in H. unfold bind at 1, call in H.
    destruct (getLastSignature remote (agent_id agent) (world st))
      as [[lastSignature | e] w1].
    2:{ inversion H; subst. eexists. split; [reflexivity | constructor]. }
    unfold bind at 1 in H.
    match type of H with
    | match ?run with _ => _ end = _ =>
        destruct run as [[[history | e] st1] |] eqn:Hh
    end; [| | discriminate].
    2:{ inversion H; subst.
        destruct (getTokenPoolInfo_trace _ _ _ _ _ _ _ _ Hh)
          as (newM & Ht & _ & Hm).
        cbn [trace] in Ht. eexists. split.
        - rewrite Ht, <- app_assoc. reflexivity.
        - rewrite rowsStored_app, (rowsStored_market _ Hm). constructor. }
    destruct (getTokenPoolInfo_trace _ _ _ _ _ _ _ _ Hh)
      as (newM & HtM & _ & Hm).
    cbn [trace] in HtM.
    assert (Hgood : Forall (wellPriced (agent_mint agent)) history).
    { destruct (getTokenPoolInfo_Ok _ _ _ _ _ _ _ _ Hh)
        as (venue & allSignatures & sa & sb & _ & _ & Hb).
      eapply processBatches_keeps; [| constructor | exact Hb].
      intros tx trades. apply computeTokenPrice_wellPriced. }
    unfold bind at 1 in H.
    destruct (createAll lib remote history agent st1)
      as [[[u | e] st2] |] eqn:Hc; [| | discriminate].
    + destruct (createAll_rows _ _ _ _ _ _ _ Hc) as (tried & HtC & Hin).
      assert (Hrows : Forall (goodRow lib (agent :: agents))
                             (map (rowOf lib agent) tried)).
      { apply Forall_forall. intros row Hrow.
        apply in_map_iff in Hrow as (item & <- & Hitem).
        exists agent, item. split; [now left |].
        split; [| reflexivity]. rewrite Forall_forall in Hgood.
        apply Hgood, Hin, Hitem. }
      unfold bind at 1, emit in H.
      destruct (IH _ _ _ H) as (newR & HtR & HgR). cbn [trace] in HtR.
      eexists. split.
      * rewrite HtR, HtC, HtM, <- !app_assoc. reflexivity.
      * cbn [app rowsStored flat_map]. rewrite !rowsStored_app.
        rewrite (rowsStored_market _ Hm), rowsStored_creates.
        cbn [app rowsStored flat_map].
        apply Forall_app. split; [exact Hrows |].
        eapply Forall_impl; [| exact HgR]. intros row. apply goodRow_more.
    + inversion H; subst.
      destruct (createAll_rows _ _ _ _ _ _ _ Hc) as (tried & HtC & Hin).
      eexists. split.
      * rewrite HtC, HtM, <- !app_assoc. reflexivity.
      * cbn [app rowsStored flat_map]. rewrite !rowsStored_app.
        rewrite (rowsStored_market _ Hm), rowsStored_creates.
        cbn [app]. apply Forall_forall. intros row Hrow.
        apply in_map_iff in Hrow as (item & <- & Hitem).
        exists agent, item. split; [now left |].
        split; [| reflexivity]. rewrite Forall_forall in Hgood.
        apply Hgood, Hin, Hitem.
Qed.

(** X10. Every row a sync run hands to [PriceHistory.create], accepted or
    not, belongs to one of the agents the run read, and is the row of a
    trade for that agent's mint with a non-zero block time and the text of
    a price that is finite and not negative. *)
Theorem sync_stores_only_well_priced_rows {W : Type} (lib : Lib)
        (remote : Remote W) (fuel : nat) (st st' : St W)
        (r : Result unit) (agents : list Agent) (w1 : W) :
  getAgents remote (world st) = (Ok agents, w1) ->
  syncAgentTransactionHistory lib remote fuel st = Some (r, st') ->
  exists new,
    trace st' = trace st ++ new
    /\ Forall (goodRow lib agents) (rowsStored new).
Proof.
  intros Ha H.
  unfold syncAgentTransactionHistory, bind, call in H. rewrite Ha in H.
  destruct (syncAgents_rows _ _ _ _ _ _ _ H) as (new & Ht & Hg).
  cbn [trace] in Ht.
  exists (EvGetAgents :: new). split.
  - rewrite Ht, <- app_assoc. reflexivity.
  - exact Hg.
Qed.

(** The sync run over the sample world. *)
Lemma sync_stores_only_well_priced_rows_witness :
  exists r st' new,
    syncAgentTransactionHistory Sample.lib Sample.remote 3
      (Sample.start Sample.calm)
    = Some (r, st')
    /\ trace st' = trace (Sample.start Sample.calm) ++ new
    /\ Forall (goodRow Sample.lib (Sample.w_agents Sample.calm))
              (rowsStored new).
Proof.
  destruct (syncAgentTransactionHistory Sample.lib Sample.remote 3
              (Sample.start Sample.calm))
    as [[r st'] |] eqn:H; [| vm_compute in H; discriminate].
  destruct (sync_stores_only_well_priced_rows Sample.lib Sample.remote 3
              (Sample.start Sample.calm) st' r
              (Sample.w_agents Sample.calm) Sample.calm eq_refl H)
    as (new & Ht & Hg).
  exists r, st', new. repeat split; assumption.
Defined.

(** ** Aggregation by block time *)

Lemma pushAt_keys (k : Z) (row : PriceHistoryRow) (o : JSObject) :
  map fst (pushAt k row o)
  = if existsb (Z.eqb k) (map fst o) then map fst o else map fst o ++ [k].
Proof.
  induction o as [| [k' rows] o IH]; [reflexivity |].
  cbn [pushAt map fst existsb]. destruct (k =? k') eqn:Hk; cbn [orb].
  - reflexivity.
  - cbn [map fst]. rewrite IH. now destruct (existsb (Z.eqb k) (map fst o)).
Qed.

Lemma existsb_eqb_In (k : Z) (l : list Z) :
  existsb (Z.eqb k) l = true <-> In k l.
Proof.
  rewrite existsb_exists. split.
  - intros (x & Hx & E). apply Z.eqb_eq in E. now subst.
  - intros H. exists k. split; [exact H | apply Z.eqb_refl].
Qed.

Lemma pushAt_In (k : Z) (row : PriceHistoryRow) (o : JSObject) (k' : Z)
      (g' : list PriceHistoryRow) :
  NoDup (map fst o) ->
  In (k', g') (pushAt k row o) <->
  (k' <> k /\ In (k', g') o)
  \/ (k' = k /\ exists g, In (k, g) o /\ g' = g ++ [row])
  \/ (k' = k /\ ~ In k (map fst o) /\ g' = [row]).
Proof.
  induction o as [| [k0 g0] o IH]; intros Hnd.
  - cbn. split.
    + intros [E | []]. inversion E; subst. right. right. auto.
    + intros [[_ []] | [(_ & g & [] & _) | (-> & _ & ->)]]. now left.
  - inversion Hnd as [| ? ? Hnotin Hnd']; subst.
    cbn [pushAt]. destruct (Z.eqb_spec k k0) as [-> | Hne].
    + cbn [In map fst]. split.
      * intros [E | Hin].
        -- inversion E; subst. right. left. split; [reflexivity |].
           exists g0. split; [now left | reflexivity].
        -- left. split; [| now right]. intros ->. apply Hnotin.
           apply in_map_iff. now exists (k0, g').
      * intros [[Hk [E | Hin]] | [(-> & g & [E | Hin] & ->)
                                 | (-> & Hn & ->)]].
        -- inversion E; subst. contradiction.
        -- now right.
        -- inversion E; subst. now left.
        -- exfalso. apply Hnotin. apply in_map_iff. now exists (k0, g).
        -- exfalso. apply Hn. now left.
    + cbn [In map fst]. rewrite (IH Hnd'). split.
      * intros [E | [[Hk Hin] | [(-> & g & Hin & ->) | (-> & Hn & ->)]]].
        -- inversion E; subst. left. split; [congruence | now left].
        -- left. split; [assumption | now right].
        -- right. left. split; [reflexivity |]. exists g.
           split; [now right | reflexivity].
        -- right. right. split; [reflexivity |]. split; [| reflexivity].
           intros [E | Hin]; [congruence | contradiction].
      * intros [[Hk [E | Hin]] | [(-> & g & [E | Hin] & ->)
                                 | (-> & Hn & ->)]].
        -- now left.
        -- right. left. now split.
        -- inversion E; subst. contradiction.
        -- right. right. left. split; [reflexivity |]. now exists g.
        -- right. right. right. split; [reflexivity |].
           split; [| reflexivity]. intros Hin. apply Hn. now right.
Qed.

Lemma aggregate_snoc (agentHistory : list PriceHistoryRow)
      (row : PriceHistoryRow) :
  aggregate (agentHistory ++ [row])
  = pushAt (row_blockTime row) row (aggregate agentHistory).
Proof. unfold aggregate. now rewrite fold_left_app. Qed.

Lemma rowsAt_snoc (k : Z) (agentHistory : list PriceHistoryRow)
      (row : PriceHistoryRow) :
  rowsAt k (agentHistory ++ [row])
  = rowsAt k agentHistory
    ++ (if row_blockTime row =? k then [row] else []).
Proof. unfold rowsAt. now rewrite filter_app. Qed.

Lemma rowsAt_none (k : Z) (agentHistory : list PriceHistoryRow) :
  ~ In k (map row_blockTime agentHistory) -> rowsAt k agentHistory = [].
Proof.
  induction agentHistory as [| r l IH]; intros H; [reflexivity |].
  unfold rowsAt. cbn [filter]. destruct (Z.eqb_spec (row_blockTime r) k).
  - exfalso. apply H. now left.
  - apply IH. intros Hin. apply H. now right.
Qed.

(** The object built by the first loop of the expanded response. *)
Lemma aggregate_groups (agentHistory : list PriceHistoryRow) :
  NoDup (map fst (aggregate agentHistory))
  /\ (forall k, In k (map fst (aggregate agentHistory))
                <-> In k (map row_blockTime agentHistory))
  /\ (forall k g, In (k, g) (aggregate agentHistory) ->
                  g = rowsAt k agentHistory).
Proof.
  induction agentHistory as [| row l (Hnd & Hkeys & Hgroups)] using rev_ind.
  - cbn. split; [constructor |]. split; [tauto | contradiction].
  - rewrite aggregate_snoc. set (kr := row_blockTime row).
    assert (Hk' : map fst (pushAt kr row (aggregate l))
                  = if existsb (Z.eqb kr) (map fst (aggregate l))
                    then map fst (aggregate l)
                    else map fst (aggregate l) ++ [kr])
      by apply pushAt_keys.
    split; [| split].
    + rewrite Hk'.
      destruct (existsb (Z.eqb kr) (map fst (aggregate l))) eqn:He;
        [exact Hnd |].
      apply NoDup_app; [exact Hnd | repeat constructor; intros [] |].
      intros x Hx [<- | []].
      apply (proj2 (existsb_eqb_In kr _)) in Hx. congruence.
    + intros k. rewrite Hk', map_app, in_app_iff. cbn [map In].
      fold kr.
      destruct (existsb (Z.eqb kr) (map fst (aggregate l))) eqn:He.
      * apply existsb_eqb_In in He. rewrite Hkeys. split; [auto |].
        intros [H | [<- | []]]; [exact H | now apply Hkeys].
      * rewrite in_app_iff, Hkeys. cbn [In]. tauto.
    + intros k g Hin. apply (pushAt_In _ _ _ _ _ Hnd) in Hin.
      rewrite rowsAt_snoc. fold kr.
      destruct Hin as [[Hne Hin] | [(-> & g0 & Hin & ->) | (-> & Hn & ->)]].
      * destruct (Z.eqb_spec kr k); [congruence |].
        rewrite app_nil_r. now apply Hgroups.
      * rewrite Z.eqb_refl. f_equal. now apply Hgroups.
      * rewrite Z.eqb_refl. rewrite rowsAt_none; [reflexivity |].
        intros H. apply Hn. now apply Hkeys.
Qed.

Lemma filter_split_Permutation {A} (p : A -> bool) (l : list A) :
  Permutation (filter p l ++ filter (fun a => negb (p a)) l) l.
Proof.
  induction l as [| a l IH]; [reflexivity |].
  cbn [filter]. destruct (p a); cbn [negb app].
  - now constructor.
  - rewrite <- Permutation_middle. now constructor.
Qed.

Lemma Object_entries_Permutation (o : JSObject) :
  Permutation (Object_entries o) o.
Proof.
  unfold Object_entries.
  rewrite sortBy_Permutation. apply filter_split_Permutation.
Qed.

(** Below 10^21 the key of a block time is read back as the block time. *)
Lemma keyTime_small (lib : Lib) (t : Z) :
  Z.abs t < 10 ^ 21 -> keyTime lib t = t.
Proof.
  intros H. unfold keyTime.
  destruct (Z.ltb_spec (Z.abs t) (10 ^ 21)); [reflexivity | lia].
Qed.

Lemma flatten_Permutation (lib : Lib) (o : JSObject) :
  Permutation (flatten lib o)
              (map (fun e => {| time := keyTime lib (fst e);
                                hp_price := sumPrices lib (snd e) |}) o).
Proof.
  unfold flatten. rewrite Object_entries_Permutation.
  erewrite map_ext; [reflexivity |]. intros [k g]; reflexivity.
Qed.

Lemma flatten_times (lib : Lib) (o : JSObject) :
  Forall (fun e => Z.abs (fst e) < 10 ^ 21) o ->
  Permutation (map time (flatten lib o)) (map fst o).
Proof.
  intros Hsmall. rewrite flatten_Permutation, map_map. cbn [time].
  erewrite map_ext_in; [reflexivity |].
  intros e He. rewrite Forall_forall in Hsmall.
  now apply keyTime_small, Hsmall.
Qed.

Lemma sorted_distinct_strict (l : list HistoricPrice) :
  StronglySorted (fun a b => time a <= time b) l ->
  NoDup (map time l) ->
  StronglySorted (fun a b => time a < time b) l.
Proof.
  induction 1 as [| a l Hs IH Ha]; intros Hnd; [constructor |].
  cbn in Hnd. inversion Hnd as [| ? ? Hnotin Hnd']; subst.
  constructor; [now apply IH |].
  apply Forall_forall. intros b Hb. rewrite Forall_forall in Ha.
  specialize (Ha b Hb).
  destruct (Z.eq_dec (time a) (time b)) as [E | Hne]; [| lia].
  exfalso. apply Hnotin. rewrite E. now apply in_map.
Qed.

(** X11. With every block time below 10^21 in absolute value, where the
    key of a block time is read back as the block time, the history of the
    expanded response has exactly one entry per block time that occurs
    among the stored rows, in strictly ascending order of time, and the
    price of an entry is the sum taken over the rows of its block time, in
    the order they were stored. *)
Theorem history_has_one_entry_per_block_time (lib : Lib)
        (agentHistory : list PriceHistoryRow) :
  Forall (fun row => Z.abs (row_blockTime row) < 10 ^ 21) agentHistory ->
  let returned := getAgentResponse_history lib agentHistory in
  StronglySorted (fun a b => time a < time b) returned
  /\ (forall k, In k (map time returned)
                <-> In k (map row_blockTime agentHistory))
  /\ (forall e, In e returned ->
                hp_price e = sumPrices lib (rowsAt (time e) agentHistory)).
Proof.
  intros Hbound. cbn zeta. rewrite getAgentResponse_history_sorted.
  set (o := aggregate agentHistory).
  destruct (aggregate_groups agentHistory) as (Hnd & Hkeys & Hgroups).
  fold o in Hnd, Hkeys, Hgroups.
  assert (Hsmall : Forall (fun e => Z.abs (fst e) < 10 ^ 21) o).
  { apply Forall_forall. intros e He.
    assert (Hk : In (fst e) (map row_blockTime agentHistory))
      by (apply Hkeys; now apply in_map).
    apply in_map_iff in Hk as (row & Hrow & Hin). rewrite <- Hrow.
    rewrite Forall_forall in Hbound. now apply Hbound. }
  set (le := fun a b : HistoricPrice => time a - time b <=? 0).
  assert (Hperm : Permutation (sortBy le (flatten lib o)) (flatten lib o))
    by apply sortBy_Permutation.
  assert (Htimes : Permutation (map time (sortBy le (flatten lib o)))
                               (map fst o)).
  { rewrite Hperm. now apply flatten_times. }
  split; [| split].
  - apply sorted_distinct_strict.
    + apply sortBy_sorted.
      * intros x y H. apply Z.leb_le in H. lia.
      * intros x y H. apply Z.leb_gt in H. lia.
      * intros x y z. lia.
    + eapply Permutation_NoDup; [symmetry; exact Htimes | exact Hnd].
  - intros k. rewrite <- Hkeys. split; intros H.
    + eapply Permutation_in; [exact Htimes | exact H].
    + eapply Permutation_in; [symmetry; exact Htimes | exact H].
  - intros e He.
    apply (Permutation_in _ Hperm) in He.
    apply (Permutation_in _ (flatten_Permutation lib o)) in He.
    apply in_map_iff in He as ([k g] & <- & Hin). cbn.
    rewrite Forall_forall in Hsmall.
    rewrite (keyTime_small lib k (Hsmall _ Hin)).
    now rewrite (Hgroups k g Hin).
Qed.

(** The rows stored latest first at two block times beyond the array-index
    range. *)
Lemma history_has_one_entry_per_block_time_witness :
  let returned := getAgentResponse_history Sample.lib Sample.lateRows in
  StronglySorted (fun a b => time a < time b) returned
  /\ (forall k, In k (map time returned)
                <-> In k (map row_blockTime Sample.lateRows))
  /\ (forall e, In e returned ->
                hp_price e
                = sumPrices Sample.lib (rowsAt (time e) Sample.lateRows)).
Proof.
  apply (history_has_one_entry_per_block_time Sample.lib Sample.lateRows).
  apply Forall_forall. intros row Hrow.
  repeat (destruct Hrow as [<- | Hrow]; [reflexivity |]).
  destruct Hrow.
Defined.

(** Beyond the bound the time of an entry is not its block time: the key
    of 10^21 is read as 1. *)
Example exponent_form_key_is_not_read_back :
  map time (getAgentResponse_history Sample.lib Sample.distantRows) = [1; 5]
  /\ map row_blockTime Sample.distantRows = [10 ^ 21; 5].
Proof. split; vm_compute; reflexivity. Qed.

(** ** Sums of stored prices *)

Lemma sumPrices_app (lib : Lib) (l1 l2 : list PriceHistoryRow) :
  sumPrices lib (l1 ++ l2)
  = fold_left
      (fun acc p =>
         let paresedPrice := parseFloat lib (row_price p) in
         if Num.isNaN paresedPrice then acc else Num.add acc paresedPrice)
      l2 (sumPrices lib l1).
Proof. unfold sumPrices. apply fold_left_app. Qed.

(** X12. A stored price that does not parse is left out of the sum of its
    block: the sum is the one of the other rows, and a block whose prices
    all fail to parse gets the price 0. *)
Theorem unparsable_prices_are_skipped (lib : Lib)
        (l1 l2 : list PriceHistoryRow) (r : PriceHistoryRow) :
  Num.isNaN (parseFloat lib (row_price r)) = true ->
  sumPrices lib (l1 ++ r :: l2) = sumPrices lib (l1 ++ l2)
  /\ (Forall (fun p => Num.isNaN (parseFloat lib (row_price p)) = true)
             (l1 ++ l2) ->
      sumPrices lib (l1 ++ r :: l2) = Num.zero).
Proof.
  intros Hr.
  assert (E : sumPrices lib (l1 ++ r :: l2) = sumPrices lib (l1 ++ l2)).
  { rewrite !sumPrices_app. cbn [fold_left]. cbv zeta. now rewrite Hr. }
  split; [exact E |].
  rewrite E. generalize (l1 ++ l2) as l. intros l Hl. unfold sumPrices.
  generalize Num.zero as acc. induction Hl as [| p l Hp _ IH]; intros acc;
    [reflexivity |].
  cbn [fold_left]. cbv zeta. rewrite Hp. apply IH.
Qed.

(** In the sample rows the price [oops] does not count. *)
Lemma unparsable_prices_are_skipped_witness :
  sumPrices Sample.lib (Sample.rowsAtLaterBlock)
  = sumPrices Sample.lib
      (filter (fun r => negb (String.eqb (row_price r) "oops"))
              Sample.rowsAtLaterBlock).
Proof.
  exact (proj1 (unparsable_prices_are_skipped Sample.lib
                  [ {| row_price := "4"; row_blockTime := 1700000100;
                       row_agentId := 1; row_signature := Some "s5" |} ]
                  [ {| row_price := "2"; row_blockTime := 1700000100;
                       row_agentId := 1; row_signature := Some "s2" |} ]
                  {| row_price := "oops"; row_blockTime := 1700000100;
                     row_agentId := 1; row_signature := Some "s4" |}
                  eq_refl)).
Defined.

(** *** Sums are not negative *)

Lemma shr_1_nonneg (mrs : shr_record) :
  0 <= shr_m mrs -> 0 <= shr_m (shr_1 mrs).
Proof.
  destruct mrs as [m r s].
  destruct m as [| p | p]; cbn; [lia | | lia].
  intros _. destruct p; cbn; lia.
Qed.

Lemma iter_shr_1_nonneg (p : positive) :
  forall mrs, 0 <= shr_m mrs -> 0 <= shr_m (iter_pos shr_1 p mrs).
Proof.
  induction p as [p IH | p IH |]; intros mrs H; cbn.
  - apply IH, IH, shr_1_nonneg, H.
  - apply IH, IH, H.
  - apply shr_1_nonneg, H.
Qed.

Lemma shr_fexp_nonneg (m e : Z) (l : location) :
  0 <= m -> 0 <= shr_m (fst (shr_fexp Num.prec Num.emax m e l)).
Proof.
  intros H. unfold shr_fexp, shr.
  assert (H0 : 0 <= shr_m (shr_record_of_loc m l))
    by (destruct l as [| []]; exact H).
  destruct (fexp Num.prec Num.emax (Zdigits2 m + e) - e); cbn [fst];
    try exact H0.
  now apply iter_shr_1_nonneg.
Qed.

Lemma round_nearest_even_nonneg (m : Z) (l : location) :
  0 <= m -> 0 <= round_nearest_even m l.
Proof.
  intros H. unfold round_nearest_even.
  destruct l as [| []]; try exact H; try lia.
  destruct (Z.even m); lia.
Qed.

(** Rounding a mantissa that is not negative gives a number, with the
    sign asked for. *)
Lemma binary_round_aux_number (s : bool) (m e : Z) (l : location) :
  0 <= m ->
  match binary_round_aux Num.prec Num.emax s m e l with
  | S754_zero s' | S754_infinity s' | S754_finite s' _ _ => s' = s
  | S754_nan => False
  end.
Proof.
  intros H. unfold binary_round_aux.
  pose proof (shr_fexp_nonneg m e l H) as H1.
  destruct (shr_fexp Num.prec Num.emax m e l) as [mrs e']. cbn [fst] in H1.
  pose proof (shr_fexp_nonneg _ e' loc_Exact
                (round_nearest_even_nonneg _ (loc_of_shr_record mrs) H1))
    as H2.
  destruct (shr_fexp _ _ _ e' loc_Exact) as [mrs' e'']. cbn [fst] in H2.
  destruct (shr_m mrs'); [reflexivity | | lia].
  destruct (e'' <=? Num.emax - Num.prec); reflexivity.
Qed.

Lemma add_notNegative (x y : float) :
  notNegative x = true -> notNegative y = true ->
  notNegative (Num.add x y) = true.
Proof.
  destruct x as [[] | [] | | [] mx ex]; try discriminate;
    destruct y as [[] | [] | | [] my ey]; try discriminate;
    intros _ _; try reflexivity.
  unfold Num.add, SFadd. cbn [cond_Zopp].
  set (ez := Z.min ex ey).
  destruct (shl_align mx ex ez) as [mx' ex'].
  destruct (shl_align my ey ez) as [my' ey']. cbn [fst Z.add].
  unfold binary_normalize, binary_round.
  destruct (shl_align _ _ _) as [mz ez'].
  pose proof (binary_round_aux_number false (Z.pos mz) ez' loc_Exact
                ltac:(lia)) as H.
  destruct (binary_round_aux _ _ _ _ _ _) as [s | s | | s m e];
    try contradiction; subst; reflexivity.
Qed.

(** X13. When every stored price of a block parses to [NaN] or to a
    number that is not negative, the price reported for the block is not
    [NaN] and not negative. *)
Theorem block_price_is_not_negative (lib : Lib)
        (prices : list PriceHistoryRow) :
  Forall (fun p => let x := parseFloat lib (row_price p) in
                   Num.isNaN x || notNegative x = true) prices ->
  notNegative (sumPrices lib prices) = true.
Proof.
  unfold sumPrices.
  assert (H0 : notNegative Num.zero = true) by reflexivity.
  revert H0. generalize Num.zero as acc.
  induction prices as [| p prices IH]; intros acc Hacc H; [exact Hacc |].
  inversion H as [| ? ? Hp Hps]; subst. cbn [fold_left]. cbv zeta in *.
  destruct (Num.isNaN (parseFloat lib (row_price p))) eqn:Hn.
  - now apply IH.
  - apply IH; [| exact Hps]. cbn in Hp. now apply add_notNegative.
Qed.

(** The rows of the later sample block. *)
Lemma block_price_is_not_negative_witness :
  notNegative (sumPrices Sample.lib Sample.rowsAtLaterBlock) = true.
Proof.
  apply block_price_is_not_negative. repeat constructor.
Defined.

(** ** Block times in the array-index range *)

Lemma sortBy_of_sorted {A} (le : A -> A -> bool) (l : list A) :
  StronglySorted (fun x y => le x y = true) l -> sortBy le l = l.
Proof.
  induction 1 as [| x l Hs IH Hx]; [reflexivity |].
  cbn. fold (sortBy le l). rewrite IH.
  destruct l as [| y l']; [reflexivity |].
  inversion Hx as [| ? ? Hxy _]; subst. cbn. now rewrite Hxy.
Qed.

Lemma filter_none {A} (f : A -> bool) (l : list A) :
  Forall (fun a => f a = true) l -> filter (fun a => negb (f a)) l = [].
Proof.
  induction 1 as [| a l Ha _ IH]; [reflexivity |].
  cbn. now rewrite Ha.
Qed.

Lemma StronglySorted_weaken {A} (R S : A -> A -> Prop) (l : list A) :
  (forall x y, R x y -> S x y) ->
  StronglySorted R l -> StronglySorted S l.
Proof.
  intros HRS. induction 1 as [| x l Hs IH Hx]; constructor; [assumption |].
  eapply Forall_impl; [| exact Hx]. intros y. apply HRS.
Qed.

Lemma StronglySorted_map {A B} (R : A -> A -> Prop) (S : B -> B -> Prop)
      (f : A -> B) (l : list A) :
  (forall x y, R x y -> S (f x) (f y)) ->
  StronglySorted R l -> StronglySorted S (map f l).
Proof.
  intros HRS. induction 1 as [| x l Hs IH Hx]; cbn; constructor;
    [assumption |].
  apply Forall_forall. intros b Hb. apply in_map_iff in Hb as (y & <- & Hy).
  rewrite Forall_forall in Hx. now apply HRS, Hx.
Qed.

(** X14. When every block time lies in the array-index range, from 0 to
    2^32 - 2, [Object.entries] already lists the aggregated entries in
    ascending order of time and the sort changes nothing: the history
    returned is the aggregated sequence as it is. *)
Theorem index_block_times_are_already_sorted (lib : Lib)
        (agentHistory : list PriceHistoryRow) :
  Forall (fun r => isArrayIndex (row_blockTime r) = true) agentHistory ->
  getAgentResponse_history lib agentHistory
  = flatten lib (aggregate agentHistory)
  /\ StronglySorted (fun a b => time a <= time b)
                    (flatten lib (aggregate agentHistory)).
Proof.
  intros Hidx. rewrite getAgentResponse_history_sorted.
  set (o := aggregate agentHistory).
  destruct (aggregate_groups agentHistory) as (_ & Hkeys & _).
  fold o in Hkeys.
  assert (Ho : Forall (fun e => isArrayIndex (fst e) = true) o).
  { apply Forall_forall. intros [k g] Hin. cbn.
    assert (Hk : In k (map row_blockTime agentHistory)).
    { apply Hkeys. apply in_map_iff. now exists (k, g). }
    apply in_map_iff in Hk as (r & <- & Hr).
    rewrite Forall_forall in Hidx. now apply Hidx. }
  assert (Hsorted : StronglySorted (fun a b => time a <= time b)
                                   (flatten lib o)).
  { assert (Hflat :
      flatten lib o
      = map (fun e => {| time := fst e; hp_price := sumPrices lib (snd e) |})
            (sortBy (fun a b => fst a <=? fst b)
                    (filter (fun e => isArrayIndex (fst e)) o))).
    { unfold flatten, Object_entries.
      rewrite (filter_none _ _ Ho), app_nil_r.
      apply map_ext_in. intros [k g] Hin. cbn [fst snd]. f_equal.
      apply keyTime_small.
      apply (Permutation_in _ (sortBy_Permutation _ _)) in Hin.
      apply filter_In in Hin as [_ Hk]. cbn [fst] in Hk.
      unfold isArrayIndex in Hk. apply andb_true_iff in Hk as [H0 H1].
      apply Z.leb_le in H0. apply Z.ltb_lt in H1.
      rewrite Z.abs_eq by exact H0.
      assert (2 ^ 32 - 1 < 10 ^ 21) by reflexivity. lia. }
    rewrite Hflat.
    apply StronglySorted_map
      with (R := fun a b : Z * list PriceHistoryRow => fst a <= fst b).
    - intros [k1 g1] [k2 g2]; cbn; auto.
    - apply sortBy_sorted.
      + intros x y H. now apply Z.leb_le in H.
      + intros x y H. apply Z.leb_gt in H. lia.
      + intros x y z. lia. }
  split; [| exact Hsorted].
  apply sortBy_of_sorted.
  eapply StronglySorted_weaken; [| exact Hsorted].
  intros x y H. apply Z.leb_le. cbn beta in H. lia.
Qed.

(** The sample rows: two blocks, the later one stored first. *)
Lemma index_block_times_are_already_sorted_witness :
  getAgentResponse_history Sample.lib Sample.storedRows
  = flatten Sample.lib (aggregate Sample.storedRows)
  /\ StronglySorted (fun a b => time a <= time b)
                    (flatten Sample.lib (aggregate Sample.storedRows)).
Proof.
  apply index_block_times_are_already_sorted. repeat constructor.
Defined.

Example sample_history :
  map time (getAgentResponse_history Sample.lib Sample.storedRows)
  = [1700000000; 1700000100]
  /\ map hp_price (getAgentResponse_history Sample.lib Sample.storedRows)
     = [Num.of_Z 3; Num.of_Z 6].
Proof. split; vm_compute; reflexivity. Qed.

(** ** One batch, one asset *)

Lemma priceAll_Ok (lib : Lib) (mint : string)
      (txs : list ParsedTransactionWithMeta) :
  Forall (fun tx => forall e, computeTokenPrice lib tx mint <> Throw e) txs ->
  forall acc,
    priceAll lib txs mint acc
    = Ok (acc ++ flat_map (fun tx => emitted (computeTokenPrice lib tx mint))
                          txs).
Proof.
  induction 1 as [| tx txs Htx _ IH]; intros acc; cbn.
  - now rewrite app_nil_r.
  - destruct (computeTokenPrice lib tx mint) as [[l |] | e] eqn:Hc; cbn.
    + rewrite IH. now rewrite <- app_assoc.
    + apply IH.
    + now destruct (Htx e).
Qed.

(** X15. When the node answers the first request of a batch and no price
    derivation raises, the trades of the batch are those of the
    transactions returned, joined in the order of the answer; a [null]
    entry, or a transaction for which derivation returns nothing, only
    drops out and costs the others nothing. *)
Theorem batch_trades_follow_the_answer {W : Type} (lib : Lib)
        (remote : Remote W) (batch : list ConfirmedSignatureInfo)
        (mint : string) (st : St W)
        (tx : option (list (option ParsedTransactionWithMeta))) (w' : W) :
  getParsedTransactions remote (map signature batch) (world st)
  = (Ok tx, w') ->
  Forall (fun t => forall e, computeTokenPrice lib t mint <> Throw e)
         (entriesOf tx) ->
  processTransactionBatch lib remote batch mint st
  = Some (Ok (flat_map (fun t => emitted (computeTokenPrice lib t mint))
                       (entriesOf tx)),
          after st w' (EvGetParsedTransactions (map signature batch))).
Proof.
  intros Hcall Hok.
  unfold processTransactionBatch, getTransactionsWithRetries.
  cbn [retryLoop]. unfold bind, tryCatch, call. rewrite Hcall. cbn.
  unfold liftR, after.
  replace (match tx with Some l => nonNull l | None => [] end)
    with (entriesOf tx) by reflexivity.
  now rewrite (priceAll_Ok lib mint _ Hok []).
Qed.

Lemma sample_bodies_priced :
  Forall (fun t => forall e,
              computeTokenPrice Sample.lib t Sample.mintOne <> Throw e)
         (entriesOf (Some (map (fun s => Sample.lookup s
                                           (Sample.w_bodies Sample.calm))
                               (map signature Sample.batch)))).
Proof.
  repeat constructor; intros e; vm_compute; discriminate.
Qed.

(** Four signatures, two bodies, two trades. *)
Lemma batch_trades_follow_the_answer_witness :
  option_map (fun r => match r with
                       | Ok l => map pth_signature l
                       | Throw _ => []
                       end)
             (outcomeOf (processTransactionBatch Sample.lib Sample.remote
                           Sample.batch Sample.mintOne
                           (Sample.start Sample.calm)))
  = Some [Some "s5"; Some "s3"].
Proof.
  rewrite (batch_trades_follow_the_answer Sample.lib Sample.remote
             Sample.batch Sample.mintOne (Sample.start Sample.calm)
             _ Sample.calm eq_refl sample_bodies_priced).
  vm_compute. reflexivity.
Defined.

(** X16. When the pipeline raises for an asset, the sync run ends with
    that error having stored nothing for the asset, whatever had been
    derived before the error, and without reading the cursor of any later
    asset: after the cursor of the asset only calls of the market module
    are made. *)
Theorem failed_asset_stores_nothing {W : Type} (lib : Lib)
        (remote : Remote W) (fuel : nat) (agent : Agent)
        (agents : list Agent) (st st' : St W)
        (lastSignature : option string) (w1 : W) (e : string) :
  getLastSignature remote (agent_id agent) (world st)
  = (Ok lastSignature, w1) ->
  getHistoricalTransactionData lib remote fuel (agent_mint agent)
    lastSignature (after st w1 (EvGetLastSignature (agent_id agent)))
  = Some (Throw e, st') ->
  syncAgents lib remote fuel (agent :: agents) st = Some (Throw e, st')
  /\ exists calls,
      trace st' = trace st ++ EvGetLastSignature (agent_id agent) :: calls
      /\ Forall (fun ev => isMarketEvent ev = true) calls
      /\ rowsStored (EvGetLastSignature (agent_id agent) :: calls) = [].
Proof.
  intros Hl Hh.
  split; [eapply syncAgents_step; eassumption |].
  destruct (getTokenPoolInfo_trace _ _ _ _ _ _ _ _ Hh) as (calls & Ht & _ & Hm).
  cbn [trace after] in Ht. exists calls.
  split; [rewrite Ht, <- app_assoc; reflexivity |].
  split; [exact Hm |].
  change (rowsStored calls = []). now apply rowsStored_market.
Qed.

(** The poisoned sample: the trade of [s5] had been derived, the body of
    [s3] raised, nothing is stored. *)
Lemma failed_asset_stores_nothing_witness :
  outcomeOf (syncAgents Sample.lib Sample.remote 3
               (Sample.w_agents Sample.poisoned)
               (Sample.start Sample.poisoned))
  = Some (Throw "Instruction type incorrect; not a ComputeBudgetInstruction").
Proof.
  set (st := Sample.start Sample.poisoned).
  set (agent := {| agent_id := 1; agent_mint := Sample.mintOne |}).
  destruct (getHistoricalTransactionData Sample.lib Sample.remote 3
              (agent_mint agent) (Some "s1")
              (after st Sample.poisoned (EvGetLastSignature 1)))
    as [[[out | e] st'] |] eqn:Hh;
    try (vm_compute in Hh; discriminate).
  assert (He : e = "Instruction type incorrect; not a ComputeBudgetInstruction")
    by (vm_compute in Hh; inversion Hh; reflexivity).
  subst e.
  destruct (failed_asset_stores_nothing Sample.lib Sample.remote 3 agent
              [ {| agent_id := 2; agent_mint := Sample.mintTwo |} ]
              st st' (Some "s1") Sample.poisoned _ eq_refl Hh) as [Hs _].
  change (Sample.w_agents Sample.poisoned)
    with [agent; {| agent_id := 2; agent_mint := Sample.mintTwo |}].
  now rewrite Hs.
Defined.

(* ------------------------------------------------------------------ *)
(** * The launch handler *)

Section LaunchFacts.

Context {W : Type}.
Variable deps : LaunchDeps W.

(** The info rows are saved in order, each with the agent's id, up to the
    first save that rejects. *)
Lemma saveInfos_run id rows :
  forall st r st',
  saveInfos deps id rows st = (r, st') ->
  exists k,
    (k <= List.length rows)%nat /\
    ltrace st' = ltrace st ++ map LvSaveInfo (map (ofAgent id) (firstn k rows)) /\
    (r = Ok tt -> k = List.length rows).
Proof.
  induction rows as [|info rows IH]; intros st r st' H.
  - cbn in H. inversion H; subst. exists 0%nat. cbn.
    rewrite app_nil_r. auto.
  - cbn [saveInfos] in H. unfold lbind, lcall in H.
    destruct (AgentInfo_save deps _ (lworld st)) as [[[]|e] w] eqn:Hs.
    + apply IH in H. destruct H as (k & Hk & Ht & Hr).
      exists (S k). cbn [List.length firstn map]. split; [lia|]. split.
      * rewrite Ht. cbn [ltrace]. rewrite <- app_assoc. reflexivity.
      * intros E. rewrite (Hr E). reflexivity.
    + inversion H; subst. exists 1%nat. cbn [List.length firstn map ltrace].
      split; [lia|]. split; [reflexivity|discriminate].
Qed.


Lemma steps_of_saves id rows :
  map stepOf (map LvSaveInfo (map (ofAgent id) rows))
  = repeat KSaveInfo (List.length rows).
Proof.
  induction rows as [|row rows IH]; cbn; [reflexivity|].
  now rewrite IH.
Qed.

Lemma repeat_split {A} (x : A) (k n : nat) :
  (k <= n)%nat -> repeat x n = repeat x k ++ repeat x (n - k).
Proof.
  intros Hk. rewrite <- repeat_app. f_equal. lia.
Qed.

Lemma agentInfoOf_length data :
  List.length (agentInfoOf data) = rowsOf (Ok (inl data)).
Proof.
  unfold agentInfoOf, rowsOf. rewrite !length_app, !length_map. lia.
Qed.

(** Runs the handler symbolically: one case per answer of a collaborator. *)
Ltac run_launch H :=
  unfold launch, lbind, lcall, lrun, lemit, lret in H;
  repeat (cbn [lworld ltrace fst snd] in H;
    match type of H with
    | context [saveInfos ?d ?i ?rows ?s] =>
        let E := fresh "Hsave" in
        destruct (saveInfos d i rows s) as [[[]|?] ?] eqn:E
    | context [match ?x with _ => _ end] =>
        lazymatch x with
        | context [match _ with _ => _ end] => fail
        | _ => destruct x eqn:?
        end
    end).

(** X18. The steps of a launch are a prefix of one fixed plan: validation,
    the log line, two key pairs, the agent fee, the fee poll, a third key
    pair, the token metadata, the agent record, one save per info row, the
    transaction.  A 200 reply has taken all of them. *)
Theorem launch_steps_in_order req st r st' :
  launch deps req st = (r, st') ->
  exists new rest,
    ltrace st' = ltrace st ++ new /\
    launchPlan (rowsOf (fst (safeParseAsync deps (req_body req) (lworld st))))
    = map stepOf new ++ rest /\
    ((exists id mint tx, r = Ok (Json200 id mint tx)) -> rest = []).
Proof.
  intros H. run_launch H.
  all: inversion H; subst; clear H.
  all: try (apply saveInfos_run in Hsave;
            destruct Hsave as (done & Hk & Ht & Hr);
            rewrite agentInfoOf_length in Hk;
            try (specialize (Hr eq_refl); rewrite agentInfoOf_length in Hr)).
  all: cbn [ltrace fst] in *; try rewrite Ht.
  all: rewrite <- ?app_assoc; cbn [app].
  all: try (exists []; eexists; split; [now rewrite app_nil_r|];
            split; [reflexivity | intros (? & ? & ? & ?); discriminate]).
  all: eexists; eexists; (split; [reflexivity|]).
  all: unfold launchPlan; cbn [map stepOf]; rewrite ?map_app, ?steps_of_saves;
       cbn [map stepOf app].
  all: rewrite ?firstn_length_le by (rewrite agentInfoOf_length; lia).
  all: try subst done.
  all: try (split;
       [ first [ reflexivity
               | do 10 (apply f_equal); symmetry; apply app_nil_r
               | rewrite (repeat_split KSaveInfo done _ Hk);
                 rewrite <- ?app_assoc; reflexivity ]
       | intros (? & ? & ? & E); first [discriminate E | reflexivity] ]).
Qed.

Lemma saves_do_not_build id rows owner m :
  ~ In (LvBuildTransaction owner m) (map LvSaveInfo (map (ofAgent id) rows)).
Proof.
  intros Hin. apply in_map_iff in Hin. destruct Hin as (? & E & _).
  discriminate E.
Qed.

Lemma savedAgents_saves rows : savedAgents (map LvSaveInfo rows) = [].
Proof.
  induction rows as [|row rows IH]; [reflexivity|exact IH].
Qed.

Lemma savedInfos_saves rows : savedInfos (map LvSaveInfo rows) = rows.
Proof.
  induction rows as [|row rows IH]; [reflexivity|].
  cbn. f_equal. exact IH.
Qed.

(** X17. A launch generates a key, asks for the fee, starts the fee poll,
    uploads metadata, saves or builds anything only when launching is
    enabled, the caller is signed in, the body validates, an image with a
    MIME type is attached and a platform is configured. *)
Theorem launch_acts_only_after_checks req st r st' new :
  launch deps req st = (r, st') ->
  ltrace st' = ltrace st ++ new ->
  existsb acts new = true ->
  DISABLE_LAUNCH deps = false /\
  given (req_address req) = true /\
  imageMissing (req_file req) = false /\
  exists data,
    fst (safeParseAsync deps (req_body req) (lworld st)) = Ok (inl data) /\
    (twitterConfig data <> None \/ telegramConfig data <> None).
Proof.
  intros H Hnew Hacts. run_launch H.
  all: inversion H; subst; clear H.
  all: try (apply saveInfos_run in Hsave;
            destruct Hsave as (done & Hk & Ht & Hr)).
  all: cbn [ltrace fst] in *; try rewrite Ht in Hnew.
  all: rewrite <- ?app_assoc in Hnew; cbn [app] in Hnew.
  all: try (rewrite <- (app_nil_r (ltrace st')) in Hnew at 1).
  all: apply app_inv_head in Hnew; subst new.
  all: try discriminate Hacts.
  all: unfold given, imageMissing.
  all: rewrite ?Heqo, ?Heqb0, ?Heqo0, ?Heqo1, ?Heqb1.
  all: repeat split; try assumption; try reflexivity.
  all: eexists; (split; [reflexivity|]); first [left; congruence | right; congruence].
Qed.

(** X19. When the construction of the transaction is reached, the agent
    has been saved as pending for the caller with the mint that is used for
    the transaction, together with every info row, each under the agent's
    id, and the poll of its fee account has been started; this holds also if
    the construction then answers null or raises, so nothing is undone. *)
Theorem transaction_is_built_after_saving req st r st' new owner m :
  launch deps req st = (r, st') ->
  ltrace st' = ltrace st ++ new ->
  In (LvBuildTransaction owner m) new ->
  exists data agent id fee,
    fst (safeParseAsync deps (req_body req) (lworld st)) = Ok (inl data) /\
    req_address req = Some owner /\
    savedAgents new = [agent] /\
    ad_owner agent = owner /\
    ad_mint agent = m /\
    ad_status agent = "pending" /\
    savedInfos new = map (ofAgent id) (agentInfoOf data) /\
    In (LvPollFeeAccount (ad_feeAccountPublicKey agent) fee) new /\
    ((exists e, r = Throw e)
     \/ r = Ok (NextError "Failed to create agent")
     \/ exists tx, r = Ok (Json200 id m tx)).
Proof.
  intros H Hnew Hin. run_launch H.
  all: inversion H; subst; clear H.
  all: try (apply saveInfos_run in Hsave;
            destruct Hsave as (done & Hk & Ht & Hr);
            try (specialize (Hr eq_refl); subst done;
                 rewrite firstn_all in Ht)).
  all: cbn [ltrace fst] in *; try rewrite Ht in Hnew.
  all: rewrite <- ?app_assoc in Hnew; cbn [app] in Hnew.
  all: try (rewrite <- (app_nil_r (ltrace st')) in Hnew at 1).
  all: apply app_inv_head in Hnew; subst new.
  all: try (exfalso; cbn in Hin;
            repeat (destruct Hin as [Hin|Hin]; [discriminate Hin|]);
            first [ exact Hin | exact (saves_do_not_build _ _ _ _ Hin) ]).
  all: cbn [In] in Hin;
       repeat (destruct Hin as [Hin|Hin]; [discriminate Hin|]);
       apply in_app_or in Hin;
       (destruct Hin as [Hin|Hin];
        [exfalso; exact (saves_do_not_build _ _ _ _ Hin)|]);
       cbn [In] in Hin;
       repeat (destruct Hin as [Hin|Hin]; [discriminate Hin|]);
       (destruct Hin as [Hin|[]]); inversion Hin; subst owner m; clear Hin.
  all: eexists; eexists; exists a2; eexists.
  all: unfold savedAgents, savedInfos; cbn [flat_map app];
       rewrite !flat_map_app;
       fold (savedAgents (map LvSaveInfo (map (ofAgent a2) (agentInfoOf l))));
       fold (savedInfos (map LvSaveInfo (map (ofAgent a2) (agentInfoOf l))));
       rewrite savedAgents_saves, savedInfos_saves; cbn [flat_map app].
  all: repeat (split; [reflexivity|]).
  all: rewrite app_nil_r.
  all: repeat (split; [reflexivity|]).
  all: split; [do 5 right; left; reflexivity|].
  all: first [ left; eexists; reflexivity
             | right; left; reflexivity
             | right; right; eexists; reflexivity ].
Qed.

End LaunchFacts.

(** The sample launch that succeeds. *)
Lemma launch_acts_only_after_checks_witness :
  DISABLE_LAUNCH (Sample.launchDeps true) = false /\
  given (req_address Sample.launchRequest) = true /\
  imageMissing (req_file Sample.launchRequest) = false /\
  exists data,
    fst (safeParseAsync (Sample.launchDeps true)
           (req_body Sample.launchRequest) (lworld Sample.fresh))
    = Ok (inl data) /\
    (twitterConfig data <> None \/ telegramConfig data <> None).
Proof.
  apply (launch_acts_only_after_checks (Sample.launchDeps true)
           Sample.launchRequest Sample.fresh
           (fst (launch (Sample.launchDeps true) Sample.launchRequest
                   Sample.fresh))
           (snd (launch (Sample.launchDeps true) Sample.launchRequest
                   Sample.fresh))
           (ltrace (snd (launch (Sample.launchDeps true) Sample.launchRequest
                           Sample.fresh))));
    reflexivity.
Defined.

Lemma launch_steps_in_order_witness :
  exists new rest,
    ltrace (snd (launch (Sample.launchDeps true) Sample.launchRequest
                   Sample.fresh))
    = ltrace Sample.fresh ++ new /\
    launchPlan
      (rowsOf (fst (safeParseAsync (Sample.launchDeps true)
                      (req_body Sample.launchRequest) (lworld Sample.fresh))))
    = map stepOf new ++ rest /\
    ((exists id mint tx,
        fst (launch (Sample.launchDeps true) Sample.launchRequest Sample.fresh)
        = Ok (Json200 id mint tx)) -> rest = []).
Proof.
  apply (launch_steps_in_order (Sample.launchDeps true)
           Sample.launchRequest Sample.fresh).
  reflexivity.
Defined.

(** The sample launch whose transaction cannot be built. *)
Lemma transaction_is_built_after_saving_witness :
  exists data agent id fee,
    fst (safeParseAsync (Sample.launchDeps false)
           (req_body Sample.launchRequest) (lworld Sample.fresh))
    = Ok (inl data) /\
    req_address Sample.launchRequest = Some "owner1" /\
    savedAgents (ltrace (snd (launch (Sample.launchDeps false)
                                Sample.launchRequest Sample.fresh)))
    = [agent] /\
    ad_owner agent = "owner1" /\
    ad_mint agent = "keyA" /\
    ad_status agent = "pending" /\
    savedInfos (ltrace (snd (launch (Sample.launchDeps false)
                               Sample.launchRequest Sample.fresh)))
    = map (ofAgent id) (agentInfoOf data) /\
    In (LvPollFeeAccount (ad_feeAccountPublicKey agent) fee)
       (ltrace (snd (launch (Sample.launchDeps false)
                       Sample.launchRequest Sample.fresh))) /\
    ((exists e, fst (launch (Sample.launchDeps false) Sample.launchRequest
                       Sample.fresh) = Throw e)
     \/ fst (launch (Sample.launchDeps false) Sample.launchRequest
               Sample.fresh) = Ok (NextError "Failed to create agent")
     \/ exists tx, fst (launch (Sample.launchDeps false) Sample.launchRequest
                          Sample.fresh) = Ok (Json200 id "keyA" tx)).
Proof.
  apply (transaction_is_built_after_saving (Sample.launchDeps false)
           Sample.launchRequest Sample.fresh
           (fst (launch (Sample.launchDeps false) Sample.launchRequest
                   Sample.fresh))
           (snd (launch (Sample.launchDeps false) Sample.launchRequest
                   Sample.fresh))).
  - reflexivity.
  - reflexivity.
  - vm_compute. do 15 right. left. reflexivity.
Defined.

Example sample_launch_without_transaction :
  launch (Sample.launchDeps false) Sample.launchRequest Sample.fresh
  = (Ok (NextError "Failed to create agent"),
     snd (launch (Sample.launchDeps false) Sample.launchRequest Sample.fresh))
  /\ List.length (ltrace (snd (launch (Sample.launchDeps false)
                                 Sample.launchRequest Sample.fresh))) = 16%nat.
Proof. split; reflexivity. Qed.
